(** * Query sending and result streaming of the duckdb-wasm connections

    A shallow embedding of [DuckDBConnection], [ResultStreamIterator] and
    [PreparedStatement] (direct mode, bindings/connection.ts) and of
    [AsyncDuckDBConnection], [AsyncResultStreamIterator] and
    [AsyncPreparedStatement] (suspending mode, parallel/async_connection.ts).

    The bindings surface is an arbitrary deterministic state machine over a
    world type [W]; every call the drivers make is recorded, with its
    reply, in a chronological log. Loops that retry while the bindings answer
    [null] take a fuel argument bounding the number of iterations; running
    out of fuel is the completion [Spinning]. *)

From Stdlib Require Import List String ZArith Lia Bool Arith PeanoNat.
Import ListNotations.
Local Open Scope string_scope.
Local Open Scope list_scope.

(** ** Values *)

(** A [Uint8Array]; [length] is its [.length]. *)
Definition Uint8Array := list Byte.byte.

(** Arguments of a prepared statement ([any[]]). *)
Inductive JsValue :=
| JsNull
| JsBool (b : bool)
| JsNumber (z : Z)
| JsString (s : string).

(** What a [throw] carries: an [Error] object with its [name] and [message],
    or some other value, which has no string [message]. *)
Inductive Thrown :=
| ErrorObj (name message : string)
| NonError (repr : string).

Definition new_Error (message : string) : Thrown := ErrorObj "Error" message.
Definition new_TypeError (message : string) : Thrown := ErrorObj "TypeError" message.

(** [e.message], when it is a string. *)
Definition message_of (e : Thrown) : option string :=
  match e with
  | ErrorObj _ m => Some m
  | NonError _ => None
  end.

(** [s.includes(search)] *)
Fixpoint includes (s search : string) : bool :=
  if String.prefix search s then true
  else match s with
       | EmptyString => false
       | String _ s' => includes s' search
       end.

(** [IteratorResult<Uint8Array>]: [value] is [None] for [null]. *)
Record IteratorResult := { done : bool; value : option Uint8Array }.

(** ** The bindings surface *)

(** A call either returns or throws. *)
Inductive Reply (A : Type) :=
| Answer (a : A)
| Fault (e : Thrown).
Arguments Answer {A} a.
Arguments Fault {A} e.

(** The operations of [DuckDBBindings] / [AsyncDuckDB] used by the
    connections. [None] is the [null] of "not ready yet". *)
Class Bindings (W : Type) := {
  startPendingQuery : Z -> string -> bool -> W -> Reply (option Uint8Array) * W;
  pollPendingQuery : Z -> W -> Reply (option Uint8Array) * W;
  fetchQueryResults : Z -> W -> Reply (option Uint8Array) * W;
  sendPrepared : Z -> Z -> list JsValue -> W -> Reply Uint8Array * W;
  isDetached : W -> bool * W
}.

Inductive Call :=
| StartPendingQuery (conn : Z) (text : string) (allowStreamResult : bool)
| PollPendingQuery (conn : Z)
| FetchQueryResults (conn : Z)
| SendPrepared (conn stmt : Z) (params : list JsValue).

(** What the drivers do to the outside, in order. [Sync] is a direct-mode
    call with its reply; [Issue] posts a suspending-mode request under a
    ticket and [Settle] is the await of its promise. *)
Inductive Event :=
| Sync (c : Call) (r : Reply (option Uint8Array))
| Issue (t : nat) (c : Call)
| Settle (t : nat) (r : Reply (option Uint8Array))
| Detached (b : bool)
| LoggerLog (value : string)
| ConsoleError (msg : string)
| ConsoleLog (e : Thrown).

Record Env (W : Type) := { world : W; log : list Event }.
Arguments world {W} e.
Arguments log {W} e.
Arguments Build_Env {W} world log.

(** ** Completions and the driver monad *)

Inductive Completion (A : Type) :=
| Returned (a : A)
| Threw (e : Thrown)
| Spinning.
Arguments Returned {A} a.
Arguments Threw {A} e.
Arguments Spinning {A}.

Definition M (S A : Type) : Type := S -> Completion A * S.

Definition ret {S A} (a : A) : M S A := fun s => (Returned a, s).
Definition throw {S A} (e : Thrown) : M S A := fun s => (Threw e, s).
Definition spin {S A} : M S A := fun s => (Spinning, s).

Definition bind {S A B} (m : M S A) (k : A -> M S B) : M S B :=
  fun s =>
    match m s with
    | (Returned a, s') => k a s'
    | (Threw e, s') => (Threw e, s')
    | (Spinning, s') => (Spinning, s')
    end.

(** [try { m } catch (e) { handler e }] *)
Definition try_catch {S A} (m : M S A) (handler : Thrown -> M S A) : M S A :=
  fun s =>
    match m s with
    | (Threw e, s') => handler e s'
    | other => other
    end.

Declare Scope driver_scope.
Delimit Scope driver_scope with driver.
Notation "x <- c1 ;; c2" := (bind c1 (fun x => c2))
  (at level 61, c1 at next level, right associativity) : driver_scope.
Notation "c1 ;; c2" := (bind c1 (fun _ => c2))
  (at level 61, right associativity) : driver_scope.
Local Open Scope driver_scope.

(** State of a method call: the receiver object and the environment. *)
Definition self {O E} : M (O * E) O := fun s => (Returned (fst s), s).
Definition assign {O E} (f : O -> O) : M (O * E) unit :=
  fun s => (Returned tt, (f (fst s), snd s)).
Definition on_env {O E A} (m : M E A) : M (O * E) A :=
  fun s => let (r, e') := m (snd s) in (r, (fst s, e')).

Section Surface.
Context {W : Type} {B : Bindings W}.

Definition record (ev : Event) (env : Env W) : Env W :=
  {| world := world env; log := log env ++ [ev] |}.

Definition reply_map {A A'} (f : A -> A') (r : Reply A) : Reply A' :=
  match r with
  | Answer a => Answer (f a)
  | Fault e => Fault e
  end.

(** The bindings operation behind a call; the header of [sendPrepared] is
    never [null]. *)
Definition respond (c : Call) (w : W) : Reply (option Uint8Array) * W :=
  match c with
  | StartPendingQuery conn text allow => startPendingQuery conn text allow w
  | PollPendingQuery conn => pollPendingQuery conn w
  | FetchQueryResults conn => fetchQueryResults conn w
  | SendPrepared conn stmt params =>
      let (r, w') := sendPrepared conn stmt params w in (reply_map Some r, w')
  end.

Definition complete {A} (r : Reply A) : Completion A :=
  match r with
  | Answer a => Returned a
  | Fault e => Threw e
  end.

(** A direct-mode call. *)
Definition call (c : Call) : M (Env W) (option Uint8Array) :=
  fun env =>
    let (r, w') := respond c (world env) in
    (complete r, {| world := w'; log := log env ++ [Sync c r] |}).

(** [sendPrepared] in direct mode: its header is a [Uint8Array]. *)
Definition call_sendPrepared (conn stmt : Z) (params : list JsValue)
  : M (Env W) Uint8Array :=
  fun env =>
    let (r, w') := sendPrepared conn stmt params (world env) in
    (complete r,
     {| world := w';
        log := log env ++ [Sync (SendPrepared conn stmt params) (reply_map Some r)] |}).

Definition call_isDetached : M (Env W) bool :=
  fun env =>
    let (b, w') := isDetached (world env) in
    (Returned b, {| world := w'; log := log env ++ [Detached b] |}).

Definition logger_log (value : string) : M (Env W) unit :=
  fun env => (Returned tt, record (LoggerLog value) env).
Definition console_error (msg : string) : M (Env W) unit :=
  fun env => (Returned tt, record (ConsoleError msg) env).
Definition console_log (e : Thrown) : M (Env W) unit :=
  fun env => (Returned tt, record (ConsoleLog e) env).

(** A [Promise<Uint8Array | null>] of the suspending mode: the worker
    serves requests in order, so the reply is fixed when the request is
    posted; the promise is outstanding until it is awaited. *)
Record Promise := { ticket : nat; settles : Reply (option Uint8Array) }.

Definition request (c : Call) : M (Env W) Promise :=
  fun env =>
    let t := List.length (log env) in
    let (r, w') := respond c (world env) in
    (Returned {| ticket := t; settles := r |},
     {| world := w'; log := log env ++ [Issue t c] |}).

Definition await (p : Promise) : M (Env W) (option Uint8Array) :=
  fun env => (complete (settles p), record (Settle (ticket p) (settles p)) env).

(** [await sendPrepared(...)] in suspending mode. *)
Definition await_sendPrepared (conn stmt : Z) (params : list JsValue)
  : M (Env W) Uint8Array :=
  fun env =>
    let t := List.length (log env) in
    let (r, w') := sendPrepared conn stmt params (world env) in
    (complete r,
     {| world := w';
        log := log env ++ [Issue t (SendPrepared conn stmt params);
                           Settle t (reply_map Some r)] |}).

End Surface.

(** A parameter with default value [d]: a missing argument is [None]. *)
Definition default_param {A} (d : A) (arg : option A) : A :=
  match arg with
  | Some a => a
  | None => d
  end.

(** ** Direct mode: bindings/connection.ts *)

Module Blocking.
Section Driver.
Context {W : Type} {B : Bindings W}.

Record DuckDBConnection := { _conn : Z }.

Record ResultStreamIterator := {
  conn : Z;
  header : Uint8Array;
  _first : bool;
  _depleted : bool
}.

Definition new_ResultStreamIterator (conn : Z) (header : Uint8Array) :=
  {| conn := conn; header := header; _first := true; _depleted := false |}.

Definition set_first (b : bool) (it : ResultStreamIterator) :=
  {| conn := conn it; header := header it; _first := b; _depleted := _depleted it |}.
Definition set_depleted (b : bool) (it : ResultStreamIterator) :=
  {| conn := conn it; header := header it; _first := _first it; _depleted := b |}.

(** The executor of the promise awaited in [send]'s loop. *)
Definition poll_promise (conn : Z) : M (Env W) (option Uint8Array) :=
  try_catch (call (PollPendingQuery conn))
    (fun e =>
       console_log e ;;
       match message_of e with
       | Some message =>
           if includes message "worker is not set!"
           then throw (new_Error "Worker has been terminated")
           else throw e
       | None =>
           throw (new_TypeError "Cannot read properties of undefined (reading 'includes')")
       end).

(** [while (header == null) header = await new Promise(...)] *)
Fixpoint poll_loop (fuel : nat) (conn : Z) (header : option Uint8Array)
  {struct fuel} : M (Env W) Uint8Array :=
  match header with
  | Some h => ret h
  | None =>
      match fuel with
      | O => spin
      | S fuel' =>
          header <- poll_promise conn ;;
          poll_loop fuel' conn header
      end
  end.

Definition send (this : DuckDBConnection) (text : string)
  (allowStreamResult : option bool) (fuel : nat) : M (Env W) ResultStreamIterator :=
  let allowStreamResult := default_param false allowStreamResult in
  header <- call (StartPendingQuery (_conn this) text allowStreamResult) ;;
  header <- poll_loop fuel (_conn this) header ;;
  ret (new_ResultStreamIterator (_conn this) header).

(** [do { bufferI8 = fetchQueryResults(conn) } while (bufferI8 == null)] *)
Fixpoint fetch_loop (fuel : nat) (conn : Z) : M (Env W) Uint8Array :=
  match fuel with
  | O => spin
  | S fuel' =>
      bufferI8 <- call (FetchQueryResults conn) ;;
      match bufferI8 with
      | None => fetch_loop fuel' conn
      | Some b => ret b
      end
  end.

Definition next (fuel : nat) : M (ResultStreamIterator * Env W) IteratorResult :=
  this <- self ;;
  if _first this then
    assign (set_first false) ;;
    ret {| done := false; value := Some (header this) |}
  else if _depleted this then
    ret {| done := true; value := None |}
  else
    bufferI8 <- on_env (fetch_loop fuel (conn this)) ;;
    assign (set_depleted (List.length bufferI8 =? 0)%nat) ;;
    this <- self ;;
    ret {| done := _depleted this; value := Some bufferI8 |}.

Record PreparedStatement := { connectionId : Z; statementId : Z }.

Definition send_prepared (this : PreparedStatement) (params : list JsValue)
  : M (Env W) ResultStreamIterator :=
  header <- call_sendPrepared (connectionId this) (statementId this) params ;;
  ret (new_ResultStreamIterator (connectionId this) header).

End Driver.
End Blocking.

(** ** Suspending mode: parallel/async_connection.ts *)

Module Async.
Section Driver.
Context {W : Type} {B : Bindings W}.

Record AsyncDuckDBConnection := { _conn : Z }.

Record AsyncResultStreamIterator := {
  conn : Z;
  header : Uint8Array;
  _first : bool;
  _depleted : bool;
  _inFlight : option Promise
}.

Definition new_AsyncResultStreamIterator (conn : Z) (header : Uint8Array) :=
  {| conn := conn; header := header;
     _first := true; _depleted := false; _inFlight := None |}.

Definition set_first (b : bool) (it : AsyncResultStreamIterator) :=
  {| conn := conn it; header := header it;
     _first := b; _depleted := _depleted it; _inFlight := _inFlight it |}.
Definition set_depleted (b : bool) (it : AsyncResultStreamIterator) :=
  {| conn := conn it; header := header it;
     _first := _first it; _depleted := b; _inFlight := _inFlight it |}.
Definition set_inFlight (p : option Promise) (it : AsyncResultStreamIterator) :=
  {| conn := conn it; header := header it;
     _first := _first it; _depleted := _depleted it; _inFlight := p |}.

(** What [send] resolves with. *)
Inductive Sent :=
| Undefined
| Iterator (it : AsyncResultStreamIterator).

(** [while (header == null) { if (isDetached()) return undefined; header = await poll }];
    [None] is the [return undefined] from inside the loop. *)
Fixpoint poll_loop (fuel : nat) (conn : Z) (header : option Uint8Array)
  {struct fuel} : M (Env W) (option Uint8Array) :=
  match header with
  | Some h => ret (Some h)
  | None =>
      match fuel with
      | O => spin
      | S fuel' =>
          detached <- call_isDetached ;;
          if detached then
            console_error "cannot send a message since the worker is not set!" ;;
            ret None
          else
            header <- (p <- request (PollPendingQuery conn) ;; await p) ;;
            poll_loop fuel' conn header
      end
  end.

Definition send (this : AsyncDuckDBConnection) (text : string)
  (allowStreamResult : option bool) (fuel : nat) : M (Env W) Sent :=
  let allowStreamResult := default_param false allowStreamResult in
  logger_log text ;;
  header <- (p <- request (StartPendingQuery (_conn this) text allowStreamResult) ;;
             await p) ;;
  header <- poll_loop fuel (_conn this) header ;;
  match header with
  | None => ret Undefined
  | Some header => ret (Iterator (new_AsyncResultStreamIterator (_conn this) header))
  end.

(** [while (buffer == null) buffer = await fetchQueryResults(conn)] *)
Fixpoint fetch_loop (fuel : nat) (conn : Z) (buffer : option Uint8Array)
  {struct fuel} : M (Env W) Uint8Array :=
  match buffer with
  | Some b => ret b
  | None =>
      match fuel with
      | O => spin
      | S fuel' =>
          buffer <- (p <- request (FetchQueryResults conn) ;; await p) ;;
          fetch_loop fuel' conn buffer
      end
  end.

Definition next (fuel : nat) : M (AsyncResultStreamIterator * Env W) IteratorResult :=
  this <- self ;;
  if _first this then
    assign (set_first false) ;;
    ret {| done := false; value := Some (header this) |}
  else if _depleted this then
    ret {| done := true; value := None |}
  else
    buffer <- match _inFlight this with
              | Some inFlight =>
                  buffer <- on_env (await inFlight) ;;
                  assign (set_inFlight None) ;;
                  ret buffer
              | None => ret None
              end ;;
    buffer <- on_env (fetch_loop fuel (conn this) buffer) ;;
    assign (set_depleted (List.length buffer =? 0)%nat) ;;
    this <- self ;;
    (if negb (_depleted this) then
       inFlight <- on_env (request (FetchQueryResults (conn this))) ;;
       assign (set_inFlight (Some inFlight))
     else ret tt) ;;
    this <- self ;;
    ret {| done := _depleted this; value := Some buffer |}.

Record AsyncPreparedStatement := { connectionId : Z; statementId : Z }.

Definition send_prepared (this : AsyncPreparedStatement) (params : list JsValue)
  : M (Env W) AsyncResultStreamIterator :=
  header <- await_sendPrepared (connectionId this) (statementId this) params ;;
  ret (new_AsyncResultStreamIterator (connectionId this) header).

End Driver.
End Async.

(** ** Reading the log *)

Definition call_of (ev : Event) : option Call :=
  match ev with
  | Sync c _ => Some c
  | Issue _ c => Some c
  | _ => None
  end.

(** The bindings operations invoked, in order. *)
Fixpoint calls (l : list Event) : list Call :=
  match l with
  | [] => []
  | ev :: l' =>
      match call_of ev with
      | Some c => c :: calls l'
      | None => calls l'
      end
  end.

Definition is_poll (c : Call) : bool :=
  match c with PollPendingQuery _ => true | _ => false end.
Definition is_fetch (c : Call) : bool :=
  match c with FetchQueryResults _ => true | _ => false end.

Definition polls (l : list Event) : nat := List.length (filter is_poll (calls l)).
Definition fetches (l : list Event) : nat := List.length (filter is_fetch (calls l)).

(** Does the event touch the bindings surface (a call or [isDetached])? *)
Definition touches_bindings (ev : Event) : bool :=
  match ev with
  | Sync _ _ | Issue _ _ | Settle _ _ | Detached _ => true
  | LoggerLog _ | ConsoleError _ | ConsoleLog _ => false
  end.

Definition issued (l : list Event) : list nat :=
  flat_map (fun ev => match ev with Issue t _ => [t] | _ => [] end) l.
Definition settled (l : list Event) : list nat :=
  flat_map (fun ev => match ev with Settle t _ => [t] | _ => [] end) l.

(** Tickets of the requests posted and not yet awaited. *)
Definition outstanding (l : list Event) : list nat :=
  filter (fun t => negb (existsb (Nat.eqb t) (settled l))) (issued l).

(** ** A scripted bindings surface

    Each operation answers with the next entry of its script; an exhausted
    script answers "not ready" ([null]), an empty header, or "attached". *)

Record Script := {
  on_start : list (Reply (option Uint8Array));
  on_poll : list (Reply (option Uint8Array));
  on_fetch : list (Reply (option Uint8Array));
  on_prepared : list (Reply Uint8Array);
  on_detached : list bool
}.

Definition pop {A} (d : A) (l : list A) : A * list A :=
  match l with
  | [] => (d, [])
  | a :: l' => (a, l')
  end.

#[export] Instance Scripted : Bindings Script := {|
  startPendingQuery _ _ _ s :=
    let (r, l) := pop (Answer None) (on_start s) in
    (r, {| on_start := l; on_poll := on_poll s; on_fetch := on_fetch s;
           on_prepared := on_prepared s; on_detached := on_detached s |});
  pollPendingQuery _ s :=
    let (r, l) := pop (Answer None) (on_poll s) in
    (r, {| on_start := on_start s; on_poll := l; on_fetch := on_fetch s;
           on_prepared := on_prepared s; on_detached := on_detached s |});
  fetchQueryResults _ s :=
    let (r, l) := pop (Answer None) (on_fetch s) in
    (r, {| on_start := on_start s; on_poll := on_poll s; on_fetch := l;
           on_prepared := on_prepared s; on_detached := on_detached s |});
  sendPrepared _ _ _ s :=
    let (r, l) := pop (Answer []) (on_prepared s) in
    (r, {| on_start := on_start s; on_poll := on_poll s; on_fetch := on_fetch s;
           on_prepared := l; on_detached := on_detached s |});
  isDetached s :=
    let (b, l) := pop false (on_detached s) in
    (b, {| on_start := on_start s; on_poll := on_poll s; on_fetch := on_fetch s;
           on_prepared := on_prepared s; on_detached := l |})
|}.

Definition script0 : Script :=
  {| on_start := []; on_poll := []; on_fetch := []; on_prepared := []; on_detached := [] |}.

Definition start_env {W} (w : W) : Env W := {| world := w; log := [] |}.

(** A buffer of [n] zero bytes. *)
Definition bytes (n : nat) : Uint8Array := repeat Byte.x00 n.

(** The events recorded between two environments. *)
Definition since {W} (env env' : Env W) : list Event :=
  skipn (List.length (log env)) (log env').

(** Sequences of [next()] calls, each awaited before the following one; the
    caller goes on whatever the completion. *)
Fixpoint nexts {S} (next : nat -> M S IteratorResult) (fuels : list nat) (s : S)
  : list (Completion IteratorResult) * S :=
  match fuels with
  | [] => ([], s)
  | fuel :: fuels' =>
      let (c, s1) := next fuel s in
      let (cs, s2) := nexts next fuels' s1 in
      (c :: cs, s2)
  end.

(** Draining: [next()] is called until it reports [done], at most [n] times. *)
Fixpoint drain {S} (next : nat -> M S IteratorResult) (n fuel : nat)
  : M S (list IteratorResult) :=
  match n with
  | O => spin
  | S n' =>
      r <- next fuel ;;
      if done r then ret [r]
      else rs <- drain next n' fuel ;; ret (r :: rs)
  end.

(** The bindings answer the successive [fetchQueryResults] calls on [conn]
    with the replies [rs], taking the world from [w] to [w']. *)
Inductive Fetches {W} {B : Bindings W} (conn : Z)
  : W -> list (Reply (option Uint8Array)) -> W -> Prop :=
| Fetches_nil w : Fetches conn w [] w
| Fetches_cons w r w1 rs w' :
    fetchQueryResults conn w = (r, w1) ->
    Fetches conn w1 rs w' ->
    Fetches conn w (r :: rs) w'.

(** * Properties *)

(** ** Reading the log *)

Lemma since_app {W} (env : Env W) (w' : W) (d : list Event) :
  since env {| world := w'; log := log env ++ d |} = d.
Proof.
  unfold since; cbn [log].
  rewrite skipn_app, skipn_all, Nat.sub_diag. reflexivity.
Qed.

Lemma since_refl {W} (env : Env W) : since env env = [].
Proof. unfold since. apply skipn_all. Qed.

Lemma calls_app (l1 l2 : list Event) : calls (l1 ++ l2) = calls l1 ++ calls l2.
Proof.
  induction l1 as [|ev l1 IH]; cbn [calls app]; [reflexivity|].
  destruct (call_of ev); cbn [app]; now rewrite IH.
Qed.

Lemma polls_app (l1 l2 : list Event) : polls (l1 ++ l2) = polls l1 + polls l2.
Proof. unfold polls. now rewrite calls_app, filter_app, length_app. Qed.

Lemma fetches_app (l1 l2 : list Event) : fetches (l1 ++ l2) = fetches l1 + fetches l2.
Proof. unfold fetches. now rewrite calls_app, filter_app, length_app. Qed.

(** ** Stepping through the driver monad *)

Section Steps.
Context {W : Type} {B : Bindings W}.

Lemma call_eq (c : Call) (env : Env W) r w' :
  respond c (world env) = (r, w') ->
  call c env = (complete r, {| world := w'; log := log env ++ [Sync c r] |}).
Proof. intros H. unfold call. now rewrite H. Qed.

Lemma request_eq (c : Call) (env : Env W) r w' :
  respond c (world env) = (r, w') ->
  request c env
  = (Returned {| ticket := List.length (log env); settles := r |},
     {| world := w'; log := log env ++ [Issue (List.length (log env)) c] |}).
Proof. intros H. unfold request. now rewrite H. Qed.

(** [await request(c)]: the request is posted and awaited at once. *)
Lemma request_await_eq (c : Call) (env : Env W) r w' :
  respond c (world env) = (r, w') ->
  (p <- request c ;; await p) env
  = (complete r,
     {| world := w';
        log := log env ++ [Issue (List.length (log env)) c;
                           Settle (List.length (log env)) r] |}).
Proof.
  intros H. unfold bind. rewrite (request_eq _ _ _ _ H).
  unfold await, record; cbn. now rewrite <- app_assoc.
Qed.

End Steps.

(** ** The polling loop of the direct-mode [send] *)

(** What the promise of one poll is rejected with when the poll throws [e]. *)
Definition rejection (e : Thrown) : Thrown :=
  match message_of e with
  | Some message =>
      if includes message "worker is not set!"
      then new_Error "Worker has been terminated"
      else e
  | None => new_TypeError "Cannot read properties of undefined (reading 'includes')"
  end.

Section BlockingPolling.
Context {W : Type} {B : Bindings W}.
Variable conn : Z.

Let absent := Sync (PollPendingQuery conn) (Answer None).

Lemma poll_promise_eq (env : Env W) r w' :
  pollPendingQuery conn (world env) = (r, w') ->
  Blocking.poll_promise conn env
  = match r with
    | Answer h =>
        (Returned h,
         {| world := w'; log := log env ++ [Sync (PollPendingQuery conn) r] |})
    | Fault e =>
        (Threw (rejection e),
         {| world := w';
            log := log env ++ [Sync (PollPendingQuery conn) r; ConsoleLog e] |})
    end.
Proof.
  intros H. unfold Blocking.poll_promise, try_catch.
  rewrite (call_eq (PollPendingQuery conn) env r w' H).
  destruct r as [h|e]; cbn [complete]; [reflexivity|].
  unfold bind, console_log, record, rejection; cbn.
  rewrite <- app_assoc; cbn.
  destruct (message_of e) as [m|]; [|reflexivity].
  destruct (includes m _); reflexivity.
Qed.

(** Every run of the loop: the polls answered [null], then the poll that
    ended it. *)
Lemma blocking_poll_loop_run (fuel : nat) :
  forall (header : option Uint8Array) (env : Env W),
  exists d,
    log (snd (Blocking.poll_loop fuel conn header env)) = log env ++ d /\
    match fst (Blocking.poll_loop fuel conn header env) with
    | Returned h =>
        (header = Some h /\ d = []) \/
        (header = None /\ exists n,
            n < fuel /\
            d = repeat absent n ++ [Sync (PollPendingQuery conn) (Answer (Some h))])
    | Threw x =>
        header = None /\ exists n e,
            n < fuel /\
            d = repeat absent n ++ [Sync (PollPendingQuery conn) (Fault e); ConsoleLog e] /\
            x = rejection e
    | Spinning => header = None /\ d = repeat absent fuel
    end.
Proof.
  induction fuel as [|fuel IH]; intros [h|] env.
  - exists []. rewrite app_nil_r. cbn. auto.
  - exists []. rewrite app_nil_r. cbn. auto.
  - exists []. rewrite app_nil_r. cbn. auto.
  - cbn [Blocking.poll_loop]. unfold bind.
    destruct (pollPendingQuery conn (world env)) as [r w'] eqn:Hp.
    rewrite (poll_promise_eq env r w' Hp).
    destruct r as [[h|]|e].
    + exists [Sync (PollPendingQuery conn) (Answer (Some h))].
      destruct fuel; cbn; (split; [reflexivity|]);
        right; (split; [reflexivity|]); exists 0; (split; [lia|reflexivity]).
    + match goal with |- context [Blocking.poll_loop fuel conn None ?e] =>
        destruct (IH None e) as (d & Hlog & Hres) end.
      cbn [log] in Hlog.
      exists (absent :: d). split.
      { rewrite Hlog, <- app_assoc. reflexivity. }
      destruct (fst (Blocking.poll_loop fuel conn None _)) as [h|x|].
      * right. split; [reflexivity|].
        destruct Hres as [[Hd _]|[_ (n & Hn & Hd)]]; [discriminate|].
        exists (S n). split; [lia|]. now rewrite Hd.
      * destruct Hres as (_ & n & e & Hn & Hd & Hx).
        split; [reflexivity|]. exists (S n), e.
        split; [lia|]. split; [now rewrite Hd|assumption].
      * destruct Hres as (_ & Hd). split; [reflexivity|]. now rewrite Hd.
    + exists [Sync (PollPendingQuery conn) (Fault e); ConsoleLog e].
      cbn. split; [reflexivity|]. split; [reflexivity|].
      exists 0, e. split; [lia|]. split; reflexivity.
Qed.

End BlockingPolling.

Section BlockingSend.
Context {W : Type} {B : Bindings W}.

(** Every run of the direct-mode [send]. *)
Lemma blocking_send_run (this : Blocking.DuckDBConnection) (text : string)
  (allow : option bool) (fuel : nat) (env : Env W) :
  let conn := Blocking._conn this in
  let run := Blocking.send this text allow fuel env in
  exists r d,
    log (snd run)
    = log env ++ Sync (StartPendingQuery conn text (default_param false allow)) r :: d /\
    match r with
    | Fault e => fst run = Threw e /\ d = []
    | Answer header =>
        match fst run with
        | Returned it =>
            exists h, it = Blocking.new_ResultStreamIterator conn h /\
              ((header = Some h /\ d = []) \/
               (header = None /\ exists n,
                   n < fuel /\
                   d = repeat (Sync (PollPendingQuery conn) (Answer None)) n
                         ++ [Sync (PollPendingQuery conn) (Answer (Some h))]))
        | Threw x =>
            header = None /\ exists n e,
              n < fuel /\
              d = repeat (Sync (PollPendingQuery conn) (Answer None)) n
                    ++ [Sync (PollPendingQuery conn) (Fault e); ConsoleLog e] /\
              x = rejection e
        | Spinning =>
            header = None /\ d = repeat (Sync (PollPendingQuery conn) (Answer None)) fuel
        end
    end.
Proof.
  intros conn run.
  assert (Hrun : run = Blocking.send this text allow fuel env) by reflexivity.
  clearbody run. unfold Blocking.send in Hrun. fold conn in Hrun.
  set (allow' := default_param false allow) in *.
  unfold bind in Hrun.
  destruct (respond (StartPendingQuery conn text allow') (world env)) as [r w'] eqn:Hs.
  rewrite (call_eq _ env r w' Hs) in Hrun.
  exists r. destruct r as [header|e]; cbn [complete] in Hrun.
  - match type of Hrun with context [Blocking.poll_loop fuel conn header ?e] =>
      destruct (blocking_poll_loop_run conn fuel header e) as (d & Hlog & Hres);
      destruct (Blocking.poll_loop fuel conn header e) as [[h|x|] env'] end;
      unfold ret in Hrun; subst run; cbn [fst snd log] in *; exists d;
      (split; [rewrite Hlog, <- app_assoc; reflexivity|]).
    + exists h. split; [reflexivity|assumption].
    + assumption.
    + assumption.
  - subst run. exists []. cbn. auto.
Qed.

End BlockingSend.

(** ** The polling loop of the suspending-mode [send] *)

(** [n] rounds of the loop that found the link attached and the header not
  ready, recorded from log position [pos] on. *)
Fixpoint waiting (conn : Z) (pos n : nat) : list Event :=
  match n with
  | O => []
  | S n' =>
      Detached false
        :: Issue (pos + 1) (PollPendingQuery conn)
        :: Settle (pos + 1) (Answer None)
        :: waiting conn (pos + 3) n'
  end.

Definition worker_not_set := "cannot send a message since the worker is not set!".

Lemma waiting_length conn pos n : List.length (waiting conn pos n) = 3 * n.
Proof. revert pos; induction n as [|n IH]; intros pos; cbn [waiting List.length]; [reflexivity|]. rewrite IH. lia. Qed.

Lemma waiting_attached conn pos n : ~ In (Detached true) (waiting conn pos n).
Proof.
  revert pos; induction n as [|n IH]; intros pos; cbn; [tauto|].
  intros [H|[H|[H|H]]]; try discriminate. now apply IH in H.
Qed.

Lemma waiting_polls conn pos n : polls (waiting conn pos n) = n.
Proof.
  revert pos; induction n as [|n IH]; intros pos; [reflexivity|].
  change (waiting conn pos (S n))
    with ([Detached false; Issue (pos + 1) (PollPendingQuery conn);
           Settle (pos + 1) (Answer None)] ++ waiting conn (pos + 3) n).
  rewrite polls_app, IH. reflexivity.
Qed.

Section AsyncPolling.
Context {W : Type} {B : Bindings W}.
Variable conn : Z.

(** One iteration of the loop. *)
Lemma async_poll_loop_step (fuel : nat) (env : Env W) :
  let pos := List.length (log env) in
  Async.poll_loop (S fuel) conn None env
  = match isDetached (world env) with
    | (true, w1) =>
        (Returned None,
         {| world := w1;
            log := log env ++ [Detached true; ConsoleError worker_not_set] |})
    | (false, w1) =>
        let (r, w2) := pollPendingQuery conn w1 in
        let env' := {| world := w2;
                       log := log env ++ [Detached false;
                                          Issue (pos + 1) (PollPendingQuery conn);
                                          Settle (pos + 1) r] |} in
        match r with
        | Answer header => Async.poll_loop fuel conn header env'
        | Fault e => (Threw e, env')
        end
    end.
Proof.
  intros pos. cbn [Async.poll_loop]. unfold bind at 1. unfold call_isDetached.
  destruct (isDetached (world env)) as [[|] w1].
  - unfold bind, console_error, ret, record; cbn. now rewrite <- app_assoc.
  - unfold bind at 1.
    destruct (pollPendingQuery conn w1) as [r w2] eqn:Hp.
    rewrite (request_await_eq (PollPendingQuery conn)
               {| world := w1; log := log env ++ [Detached false] |} r w2 Hp).
    cbn [log]. rewrite length_app; cbn [List.length]. fold pos.
    rewrite <- app_assoc; cbn [app].
    destruct r; reflexivity.
Qed.

(** Every run of the loop. A result [Some h] is a header; [None] is the
    return of [undefined] on a detached link. *)
Lemma async_poll_loop_run (fuel : nat) :
  forall (header : option Uint8Array) (env : Env W),
  let pos := List.length (log env) in
  exists d,
    log (snd (Async.poll_loop fuel conn header env)) = log env ++ d /\
    match fst (Async.poll_loop fuel conn header env) with
    | Returned (Some h) =>
        (header = Some h /\ d = []) \/
        (header = None /\ exists n,
            n < fuel /\
            d = waiting conn pos n
                  ++ [Detached false;
                      Issue (pos + 3 * n + 1) (PollPendingQuery conn);
                      Settle (pos + 3 * n + 1) (Answer (Some h))])
    | Returned None =>
        header = None /\ exists n,
            n < fuel /\
            d = waiting conn pos n ++ [Detached true; ConsoleError worker_not_set]
    | Threw x =>
        header = None /\ exists n,
            n < fuel /\
            d = waiting conn pos n
                  ++ [Detached false;
                      Issue (pos + 3 * n + 1) (PollPendingQuery conn);
                      Settle (pos + 3 * n + 1) (Fault x)]
    | Spinning => header = None /\ d = waiting conn pos fuel
    end.
Proof.
  induction fuel as [|fuel IH]; intros [h|] env pos.
  - exists []. rewrite app_nil_r. cbn. auto.
  - exists []. rewrite app_nil_r. cbn. auto.
  - exists []. rewrite app_nil_r. cbn. auto.
  - rewrite async_poll_loop_step. fold pos.
    destruct (isDetached (world env)) as [[|] w1].
    + exists [Detached true; ConsoleError worker_not_set].
      cbn. split; [reflexivity|]. split; [reflexivity|].
      exists 0. split; [lia|reflexivity].
    + destruct (pollPendingQuery conn w1) as [[[h|]|e] w2].
      * exists [Detached false; Issue (pos + 1) (PollPendingQuery conn);
                Settle (pos + 1) (Answer (Some h))].
        destruct fuel; cbn; (split; [reflexivity|]);
          right; (split; [reflexivity|]); exists 0;
          (split; [lia|]); cbn; now rewrite Nat.add_0_r.
      * cbv zeta.
        match goal with |- context [Async.poll_loop fuel conn None ?e] =>
          destruct (IH None e) as (d & Hlog & Hres) end.
        cbn [log] in Hlog, Hres.
        rewrite length_app in Hres; cbn [List.length] in Hres. fold pos in Hres.
        exists (Detached false :: Issue (pos + 1) (PollPendingQuery conn)
                  :: Settle (pos + 1) (Answer None) :: d).
        split; [rewrite Hlog, <- app_assoc; reflexivity|].
        destruct (fst (Async.poll_loop fuel conn None _)) as [[h|]|x|].
        -- right. split; [reflexivity|].
           destruct Hres as [[Hh _]|[_ (n & Hn & Hd')]]; [discriminate|].
           exists (S n). split; [lia|]. rewrite Hd'.
           replace (pos + 3 * S n + 1) with (pos + 3 + 3 * n + 1) by lia.
           reflexivity.
        -- destruct Hres as (_ & n & Hn & Hd').
           split; [reflexivity|]. exists (S n). split; [lia|].
           rewrite Hd'. reflexivity.
        -- destruct Hres as (_ & n & Hn & Hd').
           split; [reflexivity|]. exists (S n). split; [lia|].
           rewrite Hd'.
           replace (pos + 3 * S n + 1) with (pos + 3 + 3 * n + 1) by lia.
           reflexivity.
        -- destruct Hres as (_ & Hd'). split; [reflexivity|].
           rewrite Hd'. reflexivity.
      * exists [Detached false; Issue (pos + 1) (PollPendingQuery conn);
                Settle (pos + 1) (Fault e)].
        cbn. split; [reflexivity|]. split; [reflexivity|].
        exists 0. split; [lia|]. cbn. now rewrite Nat.add_0_r.
Qed.

End AsyncPolling.

Section AsyncSend.
Context {W : Type} {B : Bindings W}.

(** Every run of the suspending-mode [send]. *)
Lemma async_send_run (this : Async.AsyncDuckDBConnection) (text : string)
  (allow : option bool) (fuel : nat) (env : Env W) :
  let conn := Async._conn this in
  let pos := List.length (log env) in
  let run := Async.send this text allow fuel env in
  exists r d,
    log (snd run)
    = log env
        ++ LoggerLog text
        :: Issue (pos + 1) (StartPendingQuery conn text (default_param false allow))
        :: Settle (pos + 1) r :: d /\
    match r with
    | Fault e => fst run = Threw e /\ d = []
    | Answer header =>
        match fst run with
        | Returned (Async.Iterator it) =>
            exists h, it = Async.new_AsyncResultStreamIterator conn h /\
              ((header = Some h /\ d = []) \/
               (header = None /\ exists n,
                   n < fuel /\
                   d = waiting conn (pos + 3) n
                         ++ [Detached false;
                             Issue (pos + 3 + 3 * n + 1) (PollPendingQuery conn);
                             Settle (pos + 3 + 3 * n + 1) (Answer (Some h))]))
        | Returned Async.Undefined =>
            header = None /\ exists n,
              n < fuel /\
              d = waiting conn (pos + 3) n ++ [Detached true; ConsoleError worker_not_set]
        | Threw x =>
            header = None /\ exists n,
              n < fuel /\
              d = waiting conn (pos + 3) n
                    ++ [Detached false;
                        Issue (pos + 3 + 3 * n + 1) (PollPendingQuery conn);
                        Settle (pos + 3 + 3 * n + 1) (Fault x)]
        | Spinning => header = None /\ d = waiting conn (pos + 3) fuel
        end
    end.
Proof.
  intros conn pos run.
  assert (Hrun : run = Async.send this text allow fuel env) by reflexivity.
  clearbody run. unfold Async.send in Hrun. fold conn in Hrun.
  set (allow' := default_param false allow) in *.
  unfold bind at 1 in Hrun. unfold logger_log in Hrun.
  unfold bind at 1 in Hrun.
  destruct (respond (StartPendingQuery conn text allow')
              (world (record (LoggerLog text) env))) as [r w'] eqn:Hs.
  rewrite (request_await_eq _ _ r w' Hs) in Hrun.
  unfold record in Hrun; cbn [log world] in Hrun.
  rewrite length_app in Hrun; cbn [List.length] in Hrun. fold pos in Hrun.
  rewrite <- app_assoc in Hrun; cbn [app] in Hrun.
  exists r. destruct r as [header|e]; cbn [complete] in Hrun.
  - unfold bind in Hrun.
    match type of Hrun with context [Async.poll_loop fuel conn header ?e] =>
      destruct (async_poll_loop_run conn fuel header e) as (d & Hlog & Hres);
      destruct (Async.poll_loop fuel conn header e) as [[[h|]|x|] env'] end;
      unfold ret in Hrun; subst run; cbn [fst snd log] in *;
      rewrite ?length_app in Hres; cbn [List.length] in Hres; fold pos in Hres;
      exists d;
      (split; [rewrite Hlog, <- app_assoc; reflexivity|]).
    + exists h. split; [reflexivity|assumption].
    + assumption.
    + assumption.
    + assumption.
  - subst run. exists []. cbn. auto.
Qed.

End AsyncSend.

(** ** The default of [allowStreamResult] *)

(** C10. In both connection variants [send(text)] is [send(text, false)]:
  the two calls run identically, and the first bindings operation they
  invoke is [startPendingQuery(conn, text, false)]. *)
Theorem send_default_not_streaming :
  forall (W : Type) (B : Bindings W) (conn : Z) (text : string) (fuel : nat) (env : Env W),
    let cb := {| Blocking._conn := conn |} in
    let ca := {| Async._conn := conn |} in
    (Blocking.send cb text None fuel env = Blocking.send cb text (Some false) fuel env
     /\ exists rest,
         calls (since env (snd (Blocking.send cb text None fuel env)))
         = StartPendingQuery conn text false :: rest)
    /\
    (Async.send ca text None fuel env = Async.send ca text (Some false) fuel env
     /\ exists rest,
         calls (since env (snd (Async.send ca text None fuel env)))
         = StartPendingQuery conn text false :: rest).
Proof.
  intros. split; (split; [reflexivity|]).
  - destruct (blocking_send_run cb text None fuel env) as (r & d & Hlog & _).
    cbn [default_param Blocking._conn cb] in Hlog.
    destruct (Blocking.send cb text None fuel env) as [c [w' l']].
    cbn [snd log] in *. subst l'. rewrite since_app.
    exists (calls d). reflexivity.
  - destruct (async_send_run ca text None fuel env) as (r & d & Hlog & _).
    cbn [default_param Async._conn ca] in Hlog.
    destruct (Async.send ca text None fuel env) as [c [w' l']].
    cbn [snd log] in *. subst l'. rewrite since_app.
    exists (calls d). reflexivity.
Qed.

(** ** Detachment while waiting for the header *)

Lemma waiting_then_poll_attached conn pos n t r :
  ~ In (Detached true)
      (waiting conn pos n ++ [Detached false; Issue t (PollPendingQuery conn); Settle t r]).
Proof.
  rewrite in_app_iff. intros [H|[H|[H|[H|[]]]]]; try discriminate.
  now apply waiting_attached in H.
Qed.

Definition scenarioC : Script :=
  {| on_start := [Answer None]; on_poll := [Answer None]; on_fetch := [];
     on_prepared := []; on_detached := [false; true] |}.

Definition scenarioC_run : Completion Async.Sent * Env Script :=
  Async.send {| Async._conn := 1 |} "select 1" None 5 (start_env scenarioC).

(** The claim that [send] fails when the link is found detached does not
  hold: in scenario C ([startPendingQuery] and one poll answer [null], then
  [isDetached()] is true) [send] throws nothing and resolves with
  [undefined]. *)
Lemma send_detached_resolves_undefined :
  In (Detached true) (log (snd scenarioC_run))
  /\ fst scenarioC_run = Returned Async.Undefined
  /\ (forall e, fst scenarioC_run <> Threw e)
  /\ polls (log (snd scenarioC_run)) = 1.
Proof.
  vm_compute. repeat split.
  - do 6 right. left. reflexivity.
  - intros e H. discriminate H.
Qed.

(** C1 (amended). Whenever [isDetached()] answers [true] during a
  suspending-mode [send], the call constructs no iterator and throws
  nothing: it resolves with [undefined], and the last things it did were
  that check and the [console.error] of the message, so no poll follows. *)
Theorem send_detached_returns_undefined :
  forall (W : Type) (B : Bindings W) (this : Async.AsyncDuckDBConnection)
         (text : string) (allow : option bool) (fuel : nat) (env : Env W),
    In (Detached true) (since env (snd (Async.send this text allow fuel env))) ->
    fst (Async.send this text allow fuel env) = Returned Async.Undefined
    /\ exists d,
        since env (snd (Async.send this text allow fuel env))
        = d ++ [Detached true; ConsoleError worker_not_set]
        /\ ~ In (Detached true) d.
Proof.
  intros W B this text allow fuel env.
  destruct (async_send_run this text allow fuel env) as (r & d & Hlog & Hres).
  cbv zeta in Hlog, Hres.
  destruct (Async.send this text allow fuel env) as [c [w' l']].
  cbn [fst snd log] in *. subst l'. rewrite since_app.
  set (pos := List.length (log env)) in *.
  intros [H|[H|[H|H]]]; try discriminate.
  destruct r as [header|e].
  - destruct c as [[|it]|x|].
    + destruct Hres as (_ & n & _ & Hd). split; [reflexivity|].
      exists (LoggerLog text
                :: Issue (pos + 1)
                     (StartPendingQuery (Async._conn this) text (default_param false allow))
                :: Settle (pos + 1) (Answer header)
                :: waiting (Async._conn this) (pos + 3) n).
      split; [now rewrite Hd|].
      intros [H'|[H'|[H'|H']]]; try discriminate.
      now apply waiting_attached in H'.
    + destruct Hres as (h & _ & [[_ Hd]|[_ (n & _ & Hd)]]); subst d.
      * destruct H.
      * now apply waiting_then_poll_attached in H.
    + destruct Hres as (_ & n & _ & Hd); subst d.
      now apply waiting_then_poll_attached in H.
    + destruct Hres as (_ & Hd); subst d. now apply waiting_attached in H.
  - destruct Hres as (_ & Hd); subst d. destruct H.
Qed.

Lemma send_detached_returns_undefined_witness :
  In (Detached true) (since (start_env scenarioC) (snd scenarioC_run))
  /\ fst scenarioC_run = Returned Async.Undefined.
Proof.
  assert (H : In (Detached true) (since (start_env scenarioC) (snd scenarioC_run))).
  { vm_compute. do 6 right. left. reflexivity. }
  split; [exact H|].
  exact (proj1 (send_detached_returns_undefined Script Scripted
                  {| Async._conn := 1 |} "select 1" None 5 (start_env scenarioC) H)).
Defined.

(** ** Errors raised by a poll in direct mode *)

Lemma repeat_absent_no_fault conn n e tail :
  In (Sync (PollPendingQuery conn) (Fault e))
     (repeat (Sync (PollPendingQuery conn) (Answer None)) n ++ tail) ->
  In (Sync (PollPendingQuery conn) (Fault e)) tail.
Proof.
  rewrite in_app_iff. intros [H|H]; [|assumption].
  apply repeat_spec in H. discriminate H.
Qed.

(** A poll that throws ends [send], which throws the rejection value. *)
Lemma blocking_send_poll_fault {W} {B : Bindings W}
  (this : Blocking.DuckDBConnection) (text : string) (allow : option bool)
  (fuel : nat) (env : Env W) (e : Thrown) :
  In (Sync (PollPendingQuery (Blocking._conn this)) (Fault e))
     (since env (snd (Blocking.send this text allow fuel env))) ->
  fst (Blocking.send this text allow fuel env) = Threw (rejection e).
Proof.
  destruct (blocking_send_run this text allow fuel env) as (r & d & Hlog & Hres).
  cbv zeta in Hlog, Hres.
  destruct (Blocking.send this text allow fuel env) as [c [w' l']].
  cbn [fst snd log] in *. subst l'. rewrite since_app.
  intros [H|H]; [discriminate|].
  destruct r as [header|e0].
  - destruct c as [it|x|].
    + destruct Hres as (h & _ & [[_ Hd]|[_ (n & _ & Hd)]]); subst d.
      * destruct H.
      * apply repeat_absent_no_fault in H. destruct H as [H|[]]. discriminate.
    + destruct Hres as (_ & n & e' & _ & Hd & Hx); subst d x.
      apply repeat_absent_no_fault in H.
      destruct H as [H|[H|[]]]; [|discriminate]. now inversion H.
    + destruct Hres as (_ & Hd); subst d.
      rewrite <- (app_nil_r (repeat _ fuel)) in H.
      apply repeat_absent_no_fault in H. destruct H.
  - destruct Hres as (_ & Hd); subst d. destruct H.
Qed.

(** C5. In direct mode, when [pollPendingQuery] throws an [Error] during
  [send]'s polling loop: if its message includes 'worker is not set!',
  [send] fails with the new error 'Worker has been terminated', which is
  not the error that was thrown; otherwise [send] fails with the very
  error that was thrown. *)
Theorem blocking_send_poll_error :
  forall (W : Type) (B : Bindings W) (this : Blocking.DuckDBConnection)
         (text : string) (allow : option bool) (fuel : nat) (env : Env W)
         (name message : string),
    In (Sync (PollPendingQuery (Blocking._conn this)) (Fault (ErrorObj name message)))
       (since env (snd (Blocking.send this text allow fuel env))) ->
    if includes message "worker is not set!"
    then fst (Blocking.send this text allow fuel env)
         = Threw (new_Error "Worker has been terminated")
         /\ new_Error "Worker has been terminated" <> ErrorObj name message
    else fst (Blocking.send this text allow fuel env) = Threw (ErrorObj name message).
Proof.
  intros W B this text allow fuel env name message H.
  apply blocking_send_poll_fault in H. rewrite H. unfold rejection; cbn [message_of].
  destruct (includes message "worker is not set!") eqn:Hinc; [|reflexivity].
  split; [reflexivity|].
  intros Heq. inversion Heq; subst. vm_compute in Hinc. discriminate Hinc.
Qed.

Definition worker_gone : Script :=
  {| on_start := [Answer None];
     on_poll := [Answer None;
                 Fault (new_Error "cannot send a message since the worker is not set!")];
     on_fetch := []; on_prepared := []; on_detached := [] |}.

Lemma blocking_send_poll_error_witness :
  fst (Blocking.send {| Blocking._conn := 1 |} "select 1" None 5 (start_env worker_gone))
  = Threw (new_Error "Worker has been terminated").
Proof.
  refine (proj1 (blocking_send_poll_error Script Scripted {| Blocking._conn := 1 |}
                   "select 1" None 5 (start_env worker_gone)
                   "Error" "cannot send a message since the worker is not set!" _)).
  vm_compute. do 2 right. left. reflexivity.
Defined.

(** A thrown value without a string [message] is not propagated: reading
  [e.message.includes] throws a [TypeError] in its place. *)
Lemma blocking_send_poll_non_error {W} {B : Bindings W}
  (this : Blocking.DuckDBConnection) (text : string) (allow : option bool)
  (fuel : nat) (env : Env W) (repr : string) :
  In (Sync (PollPendingQuery (Blocking._conn this)) (Fault (NonError repr)))
     (since env (snd (Blocking.send this text allow fuel env))) ->
  fst (Blocking.send this text allow fuel env)
  = Threw (new_TypeError "Cannot read properties of undefined (reading 'includes')").
Proof. intros H. now apply blocking_send_poll_fault in H. Qed.

(** ** Scenario B: the header arrives with the second poll *)

Section TwoPolls.
Context {W : Type} {B : Bindings W}.
Variables (conn : Z) (text : string) (allow : option bool) (env : Env W)
          (h : Uint8Array) (w1 : W).
Hypothesis Hstart :
  startPendingQuery conn text (default_param false allow) (world env) = (Answer None, w1).

Lemma blocking_send_second_poll (fuel : nat) (b2 b3 : W) :
  2 <= fuel ->
  pollPendingQuery conn w1 = (Answer None, b2) ->
  pollPendingQuery conn b2 = (Answer (Some h), b3) ->
  Blocking.send {| Blocking._conn := conn |} text allow fuel env
  = (Returned (Blocking.new_ResultStreamIterator conn h),
     {| world := b3;
        log := log env
                 ++ [Sync (StartPendingQuery conn text (default_param false allow))
                       (Answer None);
                     Sync (PollPendingQuery conn) (Answer None);
                     Sync (PollPendingQuery conn) (Answer (Some h))] |}).
Proof.
  intros Hfuel Hb1 Hb2. destruct fuel as [|[|fuel]]; try lia.
  unfold Blocking.send; cbn [Blocking._conn].
  unfold bind at 1.
  rewrite (call_eq (StartPendingQuery conn text (default_param false allow))
             env (Answer None) w1 Hstart).
  cbn [complete]. unfold bind at 1.
  cbn [Blocking.poll_loop]. unfold bind at 1.
  rewrite (poll_promise_eq conn (Build_Env w1 _) (Answer None) b2 Hb1).
  unfold bind at 1.
  rewrite (poll_promise_eq conn (Build_Env b2 _) (Answer (Some h)) b3 Hb2).
  destruct fuel; cbn [Blocking.poll_loop ret fst snd log];
    rewrite <- !app_assoc; reflexivity.
Qed.

Lemma async_send_second_poll (fuel : nat) (a1 a2 a3 a4 : W) :
  2 <= fuel ->
  isDetached w1 = (false, a1) ->
  pollPendingQuery conn a1 = (Answer None, a2) ->
  isDetached a2 = (false, a3) ->
  pollPendingQuery conn a3 = (Answer (Some h), a4) ->
  let pos := List.length (log env) in
  Async.send {| Async._conn := conn |} text allow fuel env
  = (Returned (Async.Iterator (Async.new_AsyncResultStreamIterator conn h)),
     {| world := a4;
        log := log env
                 ++ [LoggerLog text;
                     Issue (pos + 1)
                       (StartPendingQuery conn text (default_param false allow));
                     Settle (pos + 1) (Answer None);
                     Detached false;
                     Issue (pos + 4) (PollPendingQuery conn);
                     Settle (pos + 4) (Answer None);
                     Detached false;
                     Issue (pos + 7) (PollPendingQuery conn);
                     Settle (pos + 7) (Answer (Some h))] |}).
Proof.
  intros Hfuel Hd1 Ha1 Hd2 Ha2 pos. destruct fuel as [|[|fuel]]; try lia.
  unfold Async.send; cbn [Async._conn].
  unfold bind at 1. unfold logger_log. unfold bind at 1.
  rewrite (request_await_eq (StartPendingQuery conn text (default_param false allow))
             (record (LoggerLog text) env) (Answer None) w1 Hstart).
  cbn [complete]. unfold bind at 1.
  rewrite async_poll_loop_step. cbn [world log]. rewrite Hd1, Ha1. cbv zeta.
  rewrite async_poll_loop_step. cbn [world log]. rewrite Hd2, Ha2. cbv zeta.
  unfold record; cbn [log world].
  rewrite !length_app; cbn [List.length]. fold pos.
  replace (pos + 1 + 2 + 1) with (pos + 4) by lia.
  replace (pos + 1 + 2 + 3 + 1) with (pos + 7) by lia.
  destruct fuel; cbn [Async.poll_loop ret];
    rewrite <- !app_assoc; reflexivity.
Qed.

End TwoPolls.

(** C8. When [startPendingQuery] and the first poll answer [null] and the
  second poll answers a header, with [isDetached()] false at both checks,
  [send] returns an iterator on that header after exactly two calls of
  [pollPendingQuery], in direct mode and in suspending mode. *)
Theorem send_two_polls :
  forall (W : Type) (B : Bindings W) (conn : Z) (text : string) (allow : option bool)
         (fuel : nat) (env : Env W) (h : Uint8Array)
         (w1 b2 b3 a1 a2 a3 a4 : W),
    2 <= fuel ->
    startPendingQuery conn text (default_param false allow) (world env) = (Answer None, w1) ->
    (* direct mode *)
    pollPendingQuery conn w1 = (Answer None, b2) ->
    pollPendingQuery conn b2 = (Answer (Some h), b3) ->
    (* suspending mode *)
    isDetached w1 = (false, a1) ->
    pollPendingQuery conn a1 = (Answer None, a2) ->
    isDetached a2 = (false, a3) ->
    pollPendingQuery conn a3 = (Answer (Some h), a4) ->
    let runb := Blocking.send {| Blocking._conn := conn |} text allow fuel env in
    let runa := Async.send {| Async._conn := conn |} text allow fuel env in
    (fst runb = Returned (Blocking.new_ResultStreamIterator conn h)
     /\ polls (since env (snd runb)) = 2)
    /\
    (fst runa = Returned (Async.Iterator (Async.new_AsyncResultStreamIterator conn h))
     /\ polls (since env (snd runa)) = 2).
Proof.
  intros W B conn text allow fuel env h w1 b2 b3 a1 a2 a3 a4
         Hfuel Hstart Hb1 Hb2 Hd1 Ha1 Hd2 Ha2 runb runa.
  subst runb runa.
  rewrite (blocking_send_second_poll conn text allow env h w1 Hstart fuel b2 b3 Hfuel Hb1 Hb2).
  rewrite (async_send_second_poll conn text allow env h w1 Hstart fuel a1 a2 a3 a4
             Hfuel Hd1 Ha1 Hd2 Ha2).
  cbn [fst snd]. rewrite !since_app. repeat split.
Qed.

Definition scenarioB : Script :=
  {| on_start := [Answer None]; on_poll := [Answer None; Answer (Some (bytes 10))];
     on_fetch := []; on_prepared := []; on_detached := [] |}.

Lemma send_two_polls_witness :
  (fst (Blocking.send {| Blocking._conn := 1 |} "select 1" None 2 (start_env scenarioB))
   = Returned (Blocking.new_ResultStreamIterator 1 (bytes 10))
   /\ polls (since (start_env scenarioB)
               (snd (Blocking.send {| Blocking._conn := 1 |} "select 1" None 2
                       (start_env scenarioB)))) = 2)
  /\
  (fst (Async.send {| Async._conn := 1 |} "select 1" None 2 (start_env scenarioB))
   = Returned (Async.Iterator (Async.new_AsyncResultStreamIterator 1 (bytes 10)))
   /\ polls (since (start_env scenarioB)
               (snd (Async.send {| Async._conn := 1 |} "select 1" None 2
                       (start_env scenarioB)))) = 2).
Proof.
  set (s1 := {| on_start := []; on_poll := [Answer None; Answer (Some (bytes 10))];
                on_fetch := []; on_prepared := []; on_detached := [] |}).
  set (s2 := {| on_start := []; on_poll := [Answer (Some (bytes 10))];
                on_fetch := []; on_prepared := []; on_detached := [] |}).
  exact (send_two_polls Script Scripted 1 "select 1" None 2 (start_env scenarioB)
           (bytes 10) s1 s2 script0 s1 s2 s2 script0
           (le_n 2) eq_refl eq_refl eq_refl eq_refl eq_refl eq_refl eq_refl).
Defined.

(** ** Sending a prepared statement *)

(** C9. A prepared-statement [send] is one [sendPrepared] call whose header
  is wrapped directly in a fresh iterator (or whose error is thrown):
  that call is all it records, so neither [startPendingQuery] nor
  [pollPendingQuery] nor [isDetached] is invoked, in both variants. *)
Theorem prepared_send_single_call :
  forall (W : Type) (B : Bindings W) (conn stmt : Z) (params : list JsValue) (env : Env W),
    let r := fst (sendPrepared conn stmt params (world env)) in
    let pos := List.length (log env) in
    let runb := Blocking.send_prepared
                  {| Blocking.connectionId := conn; Blocking.statementId := stmt |}
                  params env in
    let runa := Async.send_prepared
                  {| Async.connectionId := conn; Async.statementId := stmt |}
                  params env in
    (fst runb = complete (reply_map (Blocking.new_ResultStreamIterator conn) r)
     /\ since env (snd runb) = [Sync (SendPrepared conn stmt params) (reply_map Some r)]
     /\ calls (since env (snd runb)) = [SendPrepared conn stmt params])
    /\
    (fst runa = complete (reply_map (Async.new_AsyncResultStreamIterator conn) r)
     /\ since env (snd runa) = [Issue pos (SendPrepared conn stmt params);
                                Settle pos (reply_map Some r)]
     /\ calls (since env (snd runa)) = [SendPrepared conn stmt params]).
Proof.
  intros W B conn stmt params env r pos runb runa.
  subst r runb runa.
  unfold Blocking.send_prepared, Async.send_prepared, bind,
    call_sendPrepared, await_sendPrepared.
  cbn [Blocking.connectionId Blocking.statementId Async.connectionId Async.statementId].
  destruct (sendPrepared conn stmt params (world env)) as [[h|e] w'];
    cbn [fst snd complete reply_map ret]; rewrite !since_app; repeat split.
Qed.

(** ** One call of [next()] *)

Section NextEquations.
Context {W : Type} {B : Bindings W}.

Lemma blocking_next_eq (fuel : nat) (it : Blocking.ResultStreamIterator) (env : Env W) :
  Blocking.next fuel (it, env)
  = if Blocking._first it then
      (Returned {| done := false; value := Some (Blocking.header it) |},
       (Blocking.set_first false it, env))
    else if Blocking._depleted it then
      (Returned {| done := true; value := None |}, (it, env))
    else
      match Blocking.fetch_loop fuel (Blocking.conn it) env with
      | (Returned b, env') =>
          (Returned {| done := (List.length b =? 0)%nat; value := Some b |},
           (Blocking.set_depleted (List.length b =? 0)%nat it, env'))
      | (Threw e, env') => (Threw e, (it, env'))
      | (Spinning, env') => (Spinning, (it, env'))
      end.
Proof.
  unfold Blocking.next, bind, self, assign, on_env, ret; cbn [fst snd].
  destruct (Blocking._first it); [reflexivity|].
  destruct (Blocking._depleted it); [reflexivity|].
  cbn [fst snd].
  destruct (Blocking.fetch_loop fuel (Blocking.conn it) env) as [[b|e|] env'];
    reflexivity.
Qed.

(** The part of the suspending-mode [next()] after the in-flight promise,
    if any, was awaited: the retry loop, the depletion test, the prefetch. *)
Definition async_next_rest (fuel : nat) (it : Async.AsyncResultStreamIterator)
  (buffer : option Uint8Array) (env : Env W)
  : Completion IteratorResult * (Async.AsyncResultStreamIterator * Env W) :=
  match Async.fetch_loop fuel (Async.conn it) buffer env with
  | (Returned b, env') =>
      let it' := Async.set_depleted (List.length b =? 0)%nat it in
      if (List.length b =? 0)%nat then
        (Returned {| done := true; value := Some b |}, (it', env'))
      else
        let (r, w'') := fetchQueryResults (Async.conn it) (world env') in
        let p := {| ticket := List.length (log env'); settles := r |} in
        (Returned {| done := false; value := Some b |},
         (Async.set_inFlight (Some p) it',
          {| world := w'';
             log := log env' ++ [Issue (List.length (log env'))
                                   (FetchQueryResults (Async.conn it))] |}))
  | (Threw e, env') => (Threw e, (it, env'))
  | (Spinning, env') => (Spinning, (it, env'))
  end.

Lemma async_next_eq (fuel : nat) (it : Async.AsyncResultStreamIterator) (env : Env W) :
  Async.next fuel (it, env)
  = if Async._first it then
      (Returned {| done := false; value := Some (Async.header it) |},
       (Async.set_first false it, env))
    else if Async._depleted it then
      (Returned {| done := true; value := None |}, (it, env))
    else
      match Async._inFlight it with
      | Some p =>
          let env' := record (Settle (ticket p) (settles p)) env in
          match settles p with
          | Answer buffer =>
              async_next_rest fuel (Async.set_inFlight None it) buffer env'
          | Fault e => (Threw e, (it, env'))
          end
      | None => async_next_rest fuel it None env
      end.
Proof.
  unfold Async.next. unfold bind at 1. unfold self at 1. cbn [fst snd].
  destruct (Async._first it); [reflexivity|].
  destruct (Async._depleted it); [reflexivity|].
  unfold async_next_rest.
  destruct (Async._inFlight it) as [p|].
  - unfold bind at 1. unfold bind at 1. unfold on_env at 1, await. cbn [fst snd].
    destruct (settles p) as [buffer|e]; cbn [complete]; [|reflexivity].
    unfold bind at 1. unfold assign at 1. cbn [fst snd]. unfold ret at 1.
    unfold bind at 1. unfold on_env at 1. cbn [fst snd Async.conn Async.set_inFlight].
    destruct (Async.fetch_loop fuel (Async.conn it) buffer _) as [[b|e|] env'];
      [|reflexivity|reflexivity].
    unfold bind, assign, self, on_env, ret, request; cbn.
    destruct (List.length b =? 0)%nat; cbn; [reflexivity|].
    destruct (fetchQueryResults (Async.conn it) (world env')); reflexivity.
  - unfold bind at 1. unfold ret at 1.
    unfold bind at 1. unfold on_env at 1. cbn [fst snd].
    destruct (Async.fetch_loop fuel (Async.conn it) None env) as [[b|e|] env'];
      [|reflexivity|reflexivity].
    unfold bind, assign, self, on_env, ret, request; cbn.
    destruct (List.length b =? 0)%nat; cbn; [reflexivity|].
    destruct (fetchQueryResults (Async.conn it) (world env')); reflexivity.
Qed.

End NextEquations.

(** ** The retry loops of [next()] *)

(** The replies the drivers received, in order: those of the direct-mode
  calls and of the awaited promises. *)
Definition replies (l : list Event) : list (Reply (option Uint8Array)) :=
  flat_map (fun ev => match ev with
                      | Sync _ r => [r]
                      | Settle _ r => [r]
                      | _ => []
                      end) l.

Lemma replies_app l1 l2 : replies (l1 ++ l2) = replies l1 ++ replies l2.
Proof. apply flat_map_app. Qed.

(** [n] fetches of the suspending mode answered [null], recorded from log
  position [pos] on. *)
Fixpoint asking (conn : Z) (pos n : nat) : list Event :=
  match n with
  | O => []
  | S n' =>
      Issue pos (FetchQueryResults conn)
        :: Settle pos (Answer None)
        :: asking conn (pos + 2) n'
  end.

Lemma asking_length conn pos n : List.length (asking conn pos n) = 2 * n.
Proof.
  revert pos; induction n as [|n IH]; intros pos; cbn [asking List.length]; [reflexivity|].
  rewrite IH. lia.
Qed.

Lemma asking_replies conn pos n : replies (asking conn pos n) = repeat (Answer None) n.
Proof.
  revert pos; induction n as [|n IH]; intros pos; [reflexivity|].
  cbn [asking]. change (replies (?a :: ?b :: ?l)) with (replies [a; b] ++ replies l).
  rewrite IH. reflexivity.
Qed.

Lemma asking_fetches conn pos n : fetches (asking conn pos n) = n.
Proof.
  revert pos; induction n as [|n IH]; intros pos; [reflexivity|].
  change (asking conn pos (S n))
    with ([Issue pos (FetchQueryResults conn); Settle pos (Answer None)]
            ++ asking conn (pos + 2) n).
  rewrite fetches_app, IH. reflexivity.
Qed.

Lemma sync_calls_replies c r n : replies (repeat (Sync c r) n) = repeat r n.
Proof. induction n as [|n IH]; [reflexivity|]. cbn [repeat]. cbn. now f_equal. Qed.

Lemma sync_absent_replies conn n :
  replies (repeat (Sync (FetchQueryResults conn) (Answer None)) n) = repeat (Answer None) n.
Proof. apply sync_calls_replies. Qed.

Lemma sync_absent_fetches conn n :
  fetches (repeat (Sync (FetchQueryResults conn) (Answer None)) n) = n.
Proof.
  induction n as [|n IH]; [reflexivity|].
  change (repeat ?x (S n)) with ([x] ++ repeat x n).
  rewrite fetches_app, IH. reflexivity.
Qed.

Lemma Fetches_app {W} {B : Bindings W} conn (w w' : W) rs1 rs2 :
  Fetches conn w (rs1 ++ rs2) w' <->
  exists w1, Fetches conn w rs1 w1 /\ Fetches conn w1 rs2 w'.
Proof.
  revert w. induction rs1 as [|r rs1 IH]; intros w; cbn [app].
  - split.
    + intros H. exists w. split; [constructor|assumption].
    + intros (w1 & H1 & H2). inversion H1; subst. assumption.
  - split.
    + intros H. inversion H; subst.
      apply IH in H5. destruct H5 as (w2 & Ha & Hb).
      exists w2. split; [econstructor; eassumption|assumption].
    + intros (w2 & H1 & H2). inversion H1; subst.
      econstructor; [eassumption|]. apply IH. eauto.
Qed.

Section FetchLoops.
Context {W : Type} {B : Bindings W}.
Variable conn : Z.

Let absent := Sync (FetchQueryResults conn) (Answer None).

Lemma blocking_fetch_loop_step (fuel : nat) (env : Env W) :
  Blocking.fetch_loop (S fuel) conn env
  = let (r, w') := fetchQueryResults conn (world env) in
    let env' := {| world := w'; log := log env ++ [Sync (FetchQueryResults conn) r] |} in
    match r with
    | Answer None => Blocking.fetch_loop fuel conn env'
    | Answer (Some b) => (Returned b, env')
    | Fault e => (Threw e, env')
    end.
Proof.
  cbn [Blocking.fetch_loop]. unfold bind.
  destruct (fetchQueryResults conn (world env)) as [r w'] eqn:Hf.
  rewrite (call_eq (FetchQueryResults conn) env r w' Hf).
  destruct r as [[b|]|e]; reflexivity.
Qed.

(** Every run of the direct-mode loop. *)
Lemma blocking_fetch_loop_run (fuel : nat) :
  forall env : Env W,
  exists d,
    log (snd (Blocking.fetch_loop fuel conn env)) = log env ++ d /\
    match fst (Blocking.fetch_loop fuel conn env) with
    | Returned b =>
        exists n, n < fuel /\
          d = repeat absent n ++ [Sync (FetchQueryResults conn) (Answer (Some b))]
    | Threw e =>
        exists n, n < fuel /\
          d = repeat absent n ++ [Sync (FetchQueryResults conn) (Fault e)]
    | Spinning => d = repeat absent fuel
    end.
Proof.
  induction fuel as [|fuel IH]; intros env.
  - exists []. rewrite app_nil_r. cbn. auto.
  - rewrite blocking_fetch_loop_step.
    destruct (fetchQueryResults conn (world env)) as [[[b|]|e] w'].
    + exists [Sync (FetchQueryResults conn) (Answer (Some b))].
      cbn. split; [reflexivity|]. exists 0. split; [lia|reflexivity].
    + cbv zeta.
      match goal with |- context [Blocking.fetch_loop fuel conn ?e] =>
        destruct (IH e) as (d & Hlog & Hres) end.
      cbn [log] in Hlog. exists (absent :: d).
      split; [rewrite Hlog, <- app_assoc; reflexivity|].
      destruct (fst (Blocking.fetch_loop fuel conn _)) as [b|e|].
      * destruct Hres as (n & Hn & Hd). exists (S n). split; [lia|]. now rewrite Hd.
      * destruct Hres as (n & Hn & Hd). exists (S n). split; [lia|]. now rewrite Hd.
      * now rewrite Hres.
    + exists [Sync (FetchQueryResults conn) (Fault e)].
      cbn. split; [reflexivity|]. exists 0. split; [lia|reflexivity].
Qed.

(** With enough fuel the loop reaches the first buffer of the stream. *)
Lemma blocking_fetch_loop_stream (n : nat) (b : Uint8Array) :
  forall (fuel : nat) (env : Env W) (w' : W),
    Fetches conn (world env) (repeat (Answer None) n ++ [Answer (Some b)]) w' ->
    n < fuel ->
    Blocking.fetch_loop fuel conn env
    = (Returned b,
       {| world := w';
          log := log env ++ repeat absent n
                   ++ [Sync (FetchQueryResults conn) (Answer (Some b))] |}).
Proof.
  induction n as [|n IH]; intros fuel env w' HF Hfuel;
    (destruct fuel as [|fuel]; [lia|]);
    rewrite blocking_fetch_loop_step; cbn [repeat app] in HF; inversion HF; subst.
  - match goal with H : fetchQueryResults _ _ = _ |- _ => rewrite H end.
    match goal with H : Fetches _ _ [] _ |- _ => inversion H; subst end.
    reflexivity.
  - match goal with H : fetchQueryResults _ _ = _ |- _ => rewrite H end.
    cbv zeta. erewrite IH; [|cbn [world]; eassumption|lia].
    cbn [log repeat app]. rewrite <- app_assoc. reflexivity.
Qed.

Lemma async_fetch_loop_step (fuel : nat) (env : Env W) :
  let pos := List.length (log env) in
  Async.fetch_loop (S fuel) conn None env
  = let (r, w') := fetchQueryResults conn (world env) in
    let env' := {| world := w';
                   log := log env ++ [Issue pos (FetchQueryResults conn);
                                      Settle pos r] |} in
    match r with
    | Answer buffer => Async.fetch_loop fuel conn buffer env'
    | Fault e => (Threw e, env')
    end.
Proof.
  intros pos. cbn [Async.fetch_loop]. unfold bind at 1.
  destruct (fetchQueryResults conn (world env)) as [r w'] eqn:Hf.
  rewrite (request_await_eq (FetchQueryResults conn) env r w' Hf).
  destruct r; reflexivity.
Qed.

Lemma async_fetch_loop_ready (fuel : nat) (b : Uint8Array) (env : Env W) :
  Async.fetch_loop fuel conn (Some b) env = (Returned b, env).
Proof. destruct fuel; reflexivity. Qed.

(** Every run of the suspending-mode loop. *)
Lemma async_fetch_loop_run (fuel : nat) :
  forall (buffer : option Uint8Array) (env : Env W),
  let pos := List.length (log env) in
  exists d,
    log (snd (Async.fetch_loop fuel conn buffer env)) = log env ++ d /\
    match fst (Async.fetch_loop fuel conn buffer env) with
    | Returned b =>
        (buffer = Some b /\ d = []) \/
        (buffer = None /\ exists n,
            n < fuel /\
            d = asking conn pos n
                  ++ [Issue (pos + 2 * n) (FetchQueryResults conn);
                      Settle (pos + 2 * n) (Answer (Some b))])
    | Threw e =>
        buffer = None /\ exists n,
            n < fuel /\
            d = asking conn pos n
                  ++ [Issue (pos + 2 * n) (FetchQueryResults conn);
                      Settle (pos + 2 * n) (Fault e)]
    | Spinning => buffer = None /\ d = asking conn pos fuel
    end.
Proof.
  induction fuel as [|fuel IH]; intros [b|] env pos.
  - exists []. rewrite app_nil_r. cbn. auto.
  - exists []. rewrite app_nil_r. cbn. auto.
  - exists []. rewrite app_nil_r. cbn. auto.
  - rewrite async_fetch_loop_step. fold pos.
    destruct (fetchQueryResults conn (world env)) as [[[b|]|e] w'].
    + exists [Issue pos (FetchQueryResults conn); Settle pos (Answer (Some b))].
      cbv zeta. rewrite async_fetch_loop_ready. cbn.
      split; [reflexivity|]. right. split; [reflexivity|].
      exists 0. split; [lia|]. now rewrite Nat.add_0_r.
    + cbv zeta.
      match goal with |- context [Async.fetch_loop fuel conn None ?e] =>
        destruct (IH None e) as (d & Hlog & Hres) end.
      cbn [log] in Hlog, Hres.
      rewrite length_app in Hres; cbn [List.length] in Hres. fold pos in Hres.
      exists (Issue pos (FetchQueryResults conn) :: Settle pos (Answer None) :: d).
      split; [rewrite Hlog, <- app_assoc; reflexivity|].
      destruct (fst (Async.fetch_loop fuel conn None _)) as [b|x|].
      * right. split; [reflexivity|].
        destruct Hres as [[Hb _]|[_ (n & Hn & Hd)]]; [discriminate|].
        exists (S n). split; [lia|]. rewrite Hd.
        replace (pos + 2 * S n) with (pos + 2 + 2 * n) by lia. reflexivity.
      * destruct Hres as (_ & n & Hn & Hd).
        split; [reflexivity|]. exists (S n). split; [lia|]. rewrite Hd.
        replace (pos + 2 * S n) with (pos + 2 + 2 * n) by lia. reflexivity.
      * destruct Hres as (_ & Hd). split; [reflexivity|]. now rewrite Hd.
    + exists [Issue pos (FetchQueryResults conn); Settle pos (Fault e)].
      cbn. split; [reflexivity|]. split; [reflexivity|].
      exists 0. split; [lia|]. now rewrite Nat.add_0_r.
Qed.

(** With enough fuel the loop reaches the first buffer of the stream. *)
Lemma async_fetch_loop_stream (n : nat) (b : Uint8Array) :
  forall (fuel : nat) (env : Env W) (w' : W),
    Fetches conn (world env) (repeat (Answer None) n ++ [Answer (Some b)]) w' ->
    n < fuel ->
    let pos := List.length (log env) in
    Async.fetch_loop fuel conn None env
    = (Returned b,
       {| world := w';
          log := log env ++ asking conn pos n
                   ++ [Issue (pos + 2 * n) (FetchQueryResults conn);
                       Settle (pos + 2 * n) (Answer (Some b))] |}).
Proof.
  induction n as [|n IH]; intros fuel env w' HF Hfuel pos;
    (destruct fuel as [|fuel]; [lia|]);
    rewrite async_fetch_loop_step; fold pos;
    cbn [repeat app] in HF; inversion HF; subst.
  - match goal with H : fetchQueryResults _ _ = _ |- _ => rewrite H end.
    match goal with H : Fetches _ _ [] _ |- _ => inversion H; subst end.
    cbv zeta. rewrite async_fetch_loop_ready. cbn [asking app].
    now rewrite Nat.add_0_r.
  - match goal with H : fetchQueryResults _ _ = _ |- _ => rewrite H end.
    cbv zeta. erewrite IH; [|cbn [world]; eassumption|lia].
    cbn [log]. rewrite length_app; cbn [List.length]. fold pos.
    rewrite <- app_assoc. cbn [asking app].
    replace (pos + 2 * S n) with (pos + 2 + 2 * n) by lia. reflexivity.
Qed.

End FetchLoops.

(** ** After depletion *)

Definition exhausted : IteratorResult := {| done := true; value := None |}.

Section Depleted.
Context {W : Type} {B : Bindings W}.

Lemma blocking_next_depleted fuel (it : Blocking.ResultStreamIterator) (env : Env W) :
  Blocking._first it = false -> Blocking._depleted it = true ->
  Blocking.next fuel (it, env) = (Returned exhausted, (it, env)).
Proof. intros Hf Hd. rewrite blocking_next_eq, Hf, Hd. reflexivity. Qed.

Lemma async_next_depleted fuel (it : Async.AsyncResultStreamIterator) (env : Env W) :
  Async._first it = false -> Async._depleted it = true ->
  Async.next fuel (it, env) = (Returned exhausted, (it, env)).
Proof. intros Hf Hd. rewrite async_next_eq, Hf, Hd. reflexivity. Qed.

(** After any [next()] call, a set depleted flag comes with a cleared
    first flag. *)
Lemma blocking_next_first_cleared fuel s c s' :
  Blocking.next (B := B) fuel s = (c, s') ->
  Blocking._depleted (fst s') = true -> Blocking._first (fst s') = false.
Proof.
  destruct s as [it env]. rewrite blocking_next_eq.
  destruct (Blocking._first it) eqn:Hf.
  - intros H; inversion H; subst. reflexivity.
  - destruct (Blocking._depleted it) eqn:Hd.
    + intros H; inversion H; subst. intros _. exact Hf.
    + destruct (Blocking.fetch_loop fuel (Blocking.conn it) env) as [[b|e|] env'];
        intros H; inversion H; subst; cbn; intros Hd'; congruence.
Qed.

Lemma async_next_first_cleared fuel s c s' :
  Async.next (B := B) fuel s = (c, s') ->
  Async._depleted (fst s') = true -> Async._first (fst s') = false.
Proof.
  destruct s as [it env]. rewrite async_next_eq.
  destruct (Async._first it) eqn:Hf.
  - intros H; inversion H; subst. reflexivity.
  - destruct (Async._depleted it) eqn:Hd.
    + intros H; inversion H; subst. intros _. exact Hf.
    + unfold async_next_rest.
      destruct (Async._inFlight it) as [p|].
      * cbv zeta. destruct (settles p) as [buffer|e].
        -- destruct (Async.fetch_loop fuel _ buffer _) as [[b|e|] env'].
           ++ destruct (List.length b =? 0)%nat.
              ** intros H; inversion H; subst; cbn; intros; congruence.
              ** cbv zeta. destruct (fetchQueryResults _ _).
                 intros H; inversion H; subst; cbn; intros; congruence.
           ++ intros H; inversion H; subst; cbn; intros; congruence.
           ++ intros H; inversion H; subst; cbn; intros; congruence.
        -- intros H; inversion H; subst; cbn; intros; congruence.
      * destruct (Async.fetch_loop fuel _ None _) as [[b|e|] env'].
        -- destruct (List.length b =? 0)%nat.
           ++ intros H; inversion H; subst; cbn; intros; congruence.
           ++ cbv zeta. destruct (fetchQueryResults _ _).
              intros H; inversion H; subst; cbn; intros; congruence.
        -- intros H; inversion H; subst; cbn; intros; congruence.
        -- intros H; inversion H; subst; cbn; intros; congruence.
Qed.

Lemma blocking_nexts_depleted fuels (it : Blocking.ResultStreamIterator) (env : Env W) :
  Blocking._first it = false -> Blocking._depleted it = true ->
  nexts Blocking.next fuels (it, env) = (map (fun _ => Returned exhausted) fuels, (it, env)).
Proof.
  intros Hf Hd. induction fuels as [|fuel fuels IH]; [reflexivity|].
  cbn [nexts map]. rewrite (blocking_next_depleted fuel it env Hf Hd), IH. reflexivity.
Qed.

Lemma async_nexts_depleted fuels (it : Async.AsyncResultStreamIterator) (env : Env W) :
  Async._first it = false -> Async._depleted it = true ->
  nexts Async.next fuels (it, env) = (map (fun _ => Returned exhausted) fuels, (it, env)).
Proof.
  intros Hf Hd. induction fuels as [|fuel fuels IH]; [reflexivity|].
  cbn [nexts map]. rewrite (async_next_depleted fuel it env Hf Hd), IH. reflexivity.
Qed.

End Depleted.

(** C6. Once a [next()] call has left the depleted flag set, every further
  [next()] call, in either variant, returns [{done: true, value: null}]
  and leaves the iterator, the world of the bindings and the log as they
  were: nothing is called. *)
Theorem next_after_depletion :
  forall (W : Type) (B : Bindings W) (fuel : nat) (fuels : list nat)
         (sb sb' : Blocking.ResultStreamIterator * Env W) (cb : Completion IteratorResult)
         (sa sa' : Async.AsyncResultStreamIterator * Env W) (ca : Completion IteratorResult),
    Blocking.next fuel sb = (cb, sb') -> Blocking._depleted (fst sb') = true ->
    Async.next fuel sa = (ca, sa') -> Async._depleted (fst sa') = true ->
    nexts Blocking.next fuels sb' = (map (fun _ => Returned exhausted) fuels, sb')
    /\ nexts Async.next fuels sa' = (map (fun _ => Returned exhausted) fuels, sa').
Proof.
  intros W B fuel fuels sb sb' cb sa sa' ca Hb Hdb Ha Hda.
  pose proof (blocking_next_first_cleared fuel sb cb sb' Hb Hdb) as Hfb.
  pose proof (async_next_first_cleared fuel sa ca sa' Ha Hda) as Hfa.
  destruct sb' as [itb envb], sa' as [ita enva]. cbn [fst] in *.
  split.
  - now apply blocking_nexts_depleted.
  - now apply async_nexts_depleted.
Qed.

(** A stream that ends at once: the next fetch answers the empty buffer. *)
Definition ends_now : Script :=
  {| on_start := []; on_poll := []; on_fetch := [Answer (Some [])];
     on_prepared := []; on_detached := [] |}.

Definition depleted_blocking : Blocking.ResultStreamIterator * Env Script :=
  snd (Blocking.next 1
         (Blocking.set_first false (Blocking.new_ResultStreamIterator 1 (bytes 10)),
          start_env ends_now)).

Definition depleted_async : Async.AsyncResultStreamIterator * Env Script :=
  snd (Async.next 1
         (Async.set_first false (Async.new_AsyncResultStreamIterator 1 (bytes 10)),
          start_env ends_now)).

Lemma next_after_depletion_witness :
  nexts Blocking.next [1; 1; 1] depleted_blocking
  = (repeat (Returned exhausted) 3, depleted_blocking)
  /\ nexts Async.next [1; 1; 1] depleted_async
     = (repeat (Returned exhausted) 3, depleted_async).
Proof.
  exact (next_after_depletion Script Scripted 1 [1; 1; 1]
           (Blocking.set_first false (Blocking.new_ResultStreamIterator 1 (bytes 10)),
            start_env ends_now)
           depleted_blocking (Returned {| done := true; value := Some [] |})
           (Async.set_first false (Async.new_AsyncResultStreamIterator 1 (bytes 10)),
            start_env ends_now)
           depleted_async (Returned {| done := true; value := Some [] |})
           eq_refl eq_refl eq_refl eq_refl).
Defined.

(** ** The prefetch *)

(** Scenario A: a header of 10 bytes, then fetches answering 20 bytes and
  the empty buffer. *)
Definition scenarioA : Script :=
  {| on_start := [Answer (Some (bytes 10))]; on_poll := [];
     on_fetch := [Answer (Some (bytes 20)); Answer (Some [])];
     on_prepared := []; on_detached := [] |}.

Definition header_call
  : Completion IteratorResult * (Async.AsyncResultStreamIterator * Env Script) :=
  Async.next 1 (Async.new_AsyncResultStreamIterator 1 (bytes 10), start_env scenarioA).

(** The [next()] call that emits the header issues no fetch and leaves the
  in-flight placeholder [null]. *)
Lemma header_emitted_without_prefetch :
  fst header_call = Returned {| done := false; value := Some (bytes 10) |}
  /\ Async._inFlight (fst (snd header_call)) = None
  /\ fetches (log (snd (snd header_call))) = 0
  /\ world (snd (snd header_call)) = scenarioA.
Proof. vm_compute. repeat split. Qed.

(** C2 (amended). In the prefetching variant the [next()] call that emits
  the header calls nothing and leaves the in-flight placeholder [null];
  the fetch for the following chunk is issued, and held in the
  placeholder, by every later [next()] call that returns a chunk with
  [done = false]: on its return the last event is that request. *)
Theorem prefetch_after_chunk_not_header :
  forall (W : Type) (B : Bindings W) (fuel : nat) (conn : Z) (header : Uint8Array)
         (it : Async.AsyncResultStreamIterator) (env : Env W)
         (r : IteratorResult) (s' : Async.AsyncResultStreamIterator * Env W),
    Async._first it = false ->
    Async.next fuel (it, env) = (Returned r, s') ->
    done r = false ->
    Async.next fuel (Async.new_AsyncResultStreamIterator conn header, env)
    = (Returned {| done := false; value := Some header |},
       (Async.set_first false (Async.new_AsyncResultStreamIterator conn header), env))
    /\ Async._inFlight
         (Async.set_first false (Async.new_AsyncResultStreamIterator conn header)) = None
    /\ exists p d,
        Async._inFlight (fst s') = Some p
        /\ log (snd s')
           = log env ++ d ++ [Issue (ticket p) (FetchQueryResults (Async.conn it))].
Proof.
  intros W B fuel conn header it env r s' Hf Hnext Hdone.
  split; [rewrite async_next_eq; reflexivity|]. split; [reflexivity|].
  rewrite async_next_eq, Hf in Hnext.
  destruct (Async._depleted it) eqn:Hd.
  { inversion Hnext; subst. discriminate Hdone. }
  assert (Hrest : forall it1 buffer env1 d0,
             Async.conn it1 = Async.conn it ->
             log env1 = log env ++ d0 ->
             async_next_rest fuel it1 buffer env1 = (Returned r, s') ->
             exists p d,
               Async._inFlight (fst s') = Some p
               /\ log (snd s')
                  = log env ++ d ++ [Issue (ticket p) (FetchQueryResults (Async.conn it))]).
  { intros it1 buffer env1 d0 Hconn Hlen. unfold async_next_rest. rewrite Hconn.
    destruct (async_fetch_loop_run (Async.conn it) fuel buffer env1) as (d & Hlog & _).
    destruct (Async.fetch_loop fuel (Async.conn it) buffer env1) as [[b|e|] env2];
      try discriminate.
    cbn [snd] in Hlog.
    destruct (List.length b =? 0)%nat.
    - intros H; inversion H; subst. discriminate Hdone.
    - cbv zeta. destruct (fetchQueryResults (Async.conn it) (world env2)) as [rf w2].
      intros H; inversion H; subst. cbn.
      eexists _, (d0 ++ d). split; [reflexivity|].
      rewrite Hlog, Hlen, <- !app_assoc. reflexivity. }
  destruct (Async._inFlight it) as [p|].
  - cbv zeta in Hnext. destruct (settles p) as [buffer|e]; [|discriminate].
    eapply Hrest; [| |exact Hnext]; [reflexivity|].
    unfold record; cbn [log]. reflexivity.
  - eapply (Hrest _ _ _ []); [| |exact Hnext]; [reflexivity|now rewrite app_nil_r].
Qed.

Definition chunk_call
  : Completion IteratorResult * (Async.AsyncResultStreamIterator * Env Script) :=
  Async.next 1 (snd header_call).

Lemma prefetch_after_chunk_not_header_witness :
  Async._inFlight (fst (snd header_call)) = None
  /\ exists p l,
      Async._inFlight (fst (snd chunk_call)) = Some p
      /\ log (snd (snd chunk_call))
         = log (snd (snd header_call)) ++ l ++ [Issue (ticket p) (FetchQueryResults 1)].
Proof.
  exact (proj2 (prefetch_after_chunk_not_header Script Scripted 1 1 (bytes 10)
                  (fst (snd header_call)) (snd (snd header_call))
                  {| done := false; value := Some (bytes 20) |} (snd chunk_call)
                  eq_refl eq_refl eq_refl)).
Defined.

(** ** Absent chunks are retried *)

(** The reply held by the in-flight promise, if there is one. *)
Definition pending (it : Async.AsyncResultStreamIterator) : list (Reply (option Uint8Array)) :=
  match Async._inFlight it with
  | Some p => [settles p]
  | None => []
  end.

Section Retry.
Context {W : Type} {B : Bindings W}.

(** A direct-mode call that returns went through [null] replies only,
    before the buffer it returns. *)
Lemma blocking_next_returned fuel (it : Blocking.ResultStreamIterator) (env : Env W) r s' :
  Blocking._first it = false -> Blocking._depleted it = false ->
  Blocking.next fuel (it, env) = (Returned r, s') ->
  exists n b,
    n < fuel /\ r = {| done := (List.length b =? 0)%nat; value := Some b |}
    /\ replies (since env (snd s')) = repeat (Answer None) n ++ [Answer (Some b)]
    /\ fetches (since env (snd s')) = n + 1.
Proof.
  intros Hf Hd. rewrite blocking_next_eq, Hf, Hd.
  destruct (blocking_fetch_loop_run (Blocking.conn it) fuel env) as (d & Hlog & Hres).
  destruct (Blocking.fetch_loop fuel (Blocking.conn it) env) as [[b|e|] [w' l']];
    try discriminate.
  cbn [fst snd log] in *. subst l'.
  destruct Hres as (n & Hn & Hdd). intros H; inversion H; subst. cbn [snd].
  exists n, b. rewrite since_app.
  split; [assumption|]. split; [reflexivity|].
  rewrite replies_app, fetches_app, sync_absent_replies, sync_absent_fetches.
  split; reflexivity.
Qed.

Lemma async_next_rest_returned fuel (it : Async.AsyncResultStreamIterator)
  buffer (env : Env W) r s' :
  async_next_rest fuel it buffer env = (Returned r, s') ->
  exists d b,
    log (snd s') = log env ++ d
    /\ r = {| done := (List.length b =? 0)%nat; value := Some b |}
    /\ ((buffer = Some b /\ replies d = [] /\ fetches d = Nat.b2n (negb (done r)))
        \/ (buffer = None /\ exists n,
               n < fuel /\ replies d = repeat (Answer None) n ++ [Answer (Some b)]
               /\ fetches d = n + 1 + Nat.b2n (negb (done r)))).
Proof.
  unfold async_next_rest.
  destruct (async_fetch_loop_run (Async.conn it) fuel buffer env) as (d & Hlog & Hres).
  destruct (Async.fetch_loop fuel (Async.conn it) buffer env) as [[b|e|] [w' l']];
    try discriminate.
  cbn [fst snd log] in *. subst l'.
  assert (Hshape :
            (buffer = Some b /\ replies d = [] /\ fetches d = 0)
            \/ (buffer = None /\ exists n,
                   n < fuel /\ replies d = repeat (Answer None) n ++ [Answer (Some b)]
                   /\ fetches d = n + 1)).
  { destruct Hres as [[Hb Hd]|[Hb (n & Hn & Hd)]]; subst d.
    - left. repeat split; assumption || reflexivity.
    - right. split; [assumption|]. exists n. split; [assumption|].
      rewrite replies_app, fetches_app, asking_replies, asking_fetches.
      split; reflexivity. }
  destruct (List.length b =? 0)%nat eqn:Hlen.
  - intros H; inversion H; subst. cbn [snd log done negb Nat.b2n].
    exists d, b. rewrite Hlen. split; [reflexivity|]. split; [reflexivity|].
    destruct Hshape as [(Hb & Hr & Hfe)|(Hb & n & Hn & Hr & Hfe)].
    + left. repeat split; assumption.
    + right. split; [assumption|]. exists n. rewrite Hfe. repeat split; try assumption. lia.
  - cbv zeta. cbn [world log].
    destruct (fetchQueryResults (Async.conn it) w') as [rf w2].
    intros H; inversion H; subst. cbn [snd log done negb Nat.b2n].
    exists (d ++ [Issue (List.length (log env ++ d)) (FetchQueryResults (Async.conn it))]), b.
    rewrite Hlen, app_assoc. split; [reflexivity|]. split; [reflexivity|].
    rewrite replies_app, fetches_app, app_nil_r. cbn [fetches calls call_of filter is_fetch List.length].
    destruct Hshape as [(Hb & Hr & Hfe)|(Hb & n & Hn & Hr & Hfe)].
    + left. rewrite Hfe. repeat split; assumption.
    + right. split; [assumption|]. exists n. rewrite Hfe. repeat split; assumption.
Qed.

(** A suspending-mode call that returns went through [null] replies only,
    before the buffer it returns. *)
Lemma async_next_returned fuel (it : Async.AsyncResultStreamIterator) (env : Env W) r s' :
  Async._first it = false -> Async._depleted it = false ->
  Async.next fuel (it, env) = (Returned r, s') ->
  exists n b,
    n <= fuel /\ r = {| done := (List.length b =? 0)%nat; value := Some b |}
    /\ replies (since env (snd s')) = repeat (Answer None) n ++ [Answer (Some b)].
Proof.
  intros Hf Hd. rewrite async_next_eq, Hf, Hd.
  destruct (Async._inFlight it) as [p|].
  - cbv zeta. destruct (settles p) as [buffer|e] eqn:Hp; [|discriminate].
    intros H. apply async_next_rest_returned in H.
    destruct H as (d & b & Hlog & Hr & Hshape).
    destruct s' as [it' [w' l']]. cbn [snd log record] in *. subst l'.
    rewrite <- app_assoc, since_app. cbn [app].
    change (replies (?a :: ?l)) with (replies [a] ++ replies l). cbn [replies flat_map app].
    destruct Hshape as [(Hb & Hrep & _)|(Hb & n & Hn & Hrep & _)]; subst buffer.
    + exists 0, b. rewrite Hrep. split; [lia|]. split; [assumption|reflexivity].
    + exists (S n), b. rewrite Hrep. split; [lia|]. split; [assumption|reflexivity].
  - intros H. apply async_next_rest_returned in H.
    destruct H as (d & b & Hlog & Hr & Hshape).
    destruct s' as [it' [w' l']]. cbn [snd log] in *. subst l'.
    rewrite since_app.
    destruct Hshape as [(Hb & _)|(Hb & n & Hn & Hrep & _)]; [discriminate|].
    exists n, b. split; [lia|]. split; assumption.
Qed.

(** With enough fuel a direct-mode call reaches the first buffer. *)
Lemma blocking_next_stream fuel (it : Blocking.ResultStreamIterator) (env : Env W) n b w' :
  Blocking._first it = false -> Blocking._depleted it = false ->
  Fetches (Blocking.conn it) (world env) (repeat (Answer None) n ++ [Answer (Some b)]) w' ->
  n < fuel ->
  Blocking.next fuel (it, env)
  = (Returned {| done := (List.length b =? 0)%nat; value := Some b |},
     (Blocking.set_depleted (List.length b =? 0)%nat it,
      {| world := w';
         log := log env
                  ++ repeat (Sync (FetchQueryResults (Blocking.conn it)) (Answer None)) n
                  ++ [Sync (FetchQueryResults (Blocking.conn it)) (Answer (Some b))] |})).
Proof.
  intros Hf Hd HF Hn. rewrite blocking_next_eq, Hf, Hd.
  rewrite (blocking_fetch_loop_stream (Blocking.conn it) n b fuel env w' HF Hn).
  reflexivity.
Qed.

Lemma async_next_rest_fst fuel (it : Async.AsyncResultStreamIterator) buffer (env env' : Env W) b :
  Async.fetch_loop fuel (Async.conn it) buffer env = (Returned b, env') ->
  fst (async_next_rest fuel it buffer env)
  = Returned {| done := (List.length b =? 0)%nat; value := Some b |}.
Proof.
  intros H. unfold async_next_rest. rewrite H.
  destruct (List.length b =? 0)%nat; [reflexivity|].
  cbv zeta. destruct (fetchQueryResults _ _). reflexivity.
Qed.

(** With enough fuel a suspending-mode call reaches the first buffer, held
    by the in-flight promise or fetched by the loop. *)
Lemma async_next_stream fuel (it : Async.AsyncResultStreamIterator) (env : Env W) n b rs w' :
  Async._first it = false -> Async._depleted it = false ->
  Fetches (Async.conn it) (world env) rs w' ->
  pending it ++ rs = repeat (Answer None) n ++ [Answer (Some b)] ->
  n < fuel ->
  fst (Async.next fuel (it, env))
  = Returned {| done := (List.length b =? 0)%nat; value := Some b |}.
Proof.
  intros Hf Hd HF Hp Hn. rewrite async_next_eq, Hf, Hd.
  unfold pending in Hp. destruct (Async._inFlight it) as [p|].
  - cbv zeta. destruct (settles p) as [buffer|e];
      destruct n as [|n]; cbn [repeat app] in Hp; inversion Hp; subst.
    + eapply async_next_rest_fst. apply async_fetch_loop_ready.
    + eapply async_next_rest_fst.
      apply async_fetch_loop_stream with (n := n) (w' := w'); [exact HF|lia].
  - cbn [app] in Hp. subst rs. eapply async_next_rest_fst.
    apply async_fetch_loop_stream with (n := n) (w' := w'); [exact HF|lia].
Qed.

End Retry.

(** C7. In a [next()] call that is neither the first nor on a depleted
    iterator, in either variant: whatever the bindings answer, a value
    handed to the caller is a buffer, never [null], and every reply received
    before it in that call was [null]; and when the bindings answer [null]
    [n] times and then a buffer, the call (given fuel for more than [n]
    iterations) returns that buffer. *)
Theorem absent_fetch_retried :
  forall (W : Type) (B : Bindings W) (fuel : nat) (env : Env W)
         (itb : Blocking.ResultStreamIterator) (ita : Async.AsyncResultStreamIterator),
    Blocking._first itb = false -> Blocking._depleted itb = false ->
    Async._first ita = false -> Async._depleted ita = false ->
    (forall r s', Blocking.next fuel (itb, env) = (Returned r, s') ->
       exists n b, value r = Some b
         /\ replies (since env (snd s')) = repeat (Answer None) n ++ [Answer (Some b)])
    /\
    (forall r s', Async.next fuel (ita, env) = (Returned r, s') ->
       exists n b, value r = Some b
         /\ replies (since env (snd s')) = repeat (Answer None) n ++ [Answer (Some b)])
    /\
    (forall n b w',
       Fetches (Blocking.conn itb) (world env) (repeat (Answer None) n ++ [Answer (Some b)]) w' ->
       n < fuel ->
       fst (Blocking.next fuel (itb, env))
       = Returned {| done := (List.length b =? 0)%nat; value := Some b |}
       /\ fetches (since env (snd (snd (Blocking.next fuel (itb, env))))) = n + 1)
    /\
    (forall n b rs w',
       Fetches (Async.conn ita) (world env) rs w' ->
       pending ita ++ rs = repeat (Answer None) n ++ [Answer (Some b)] ->
       n < fuel ->
       fst (Async.next fuel (ita, env))
       = Returned {| done := (List.length b =? 0)%nat; value := Some b |}).
Proof.
  intros W B fuel env itb ita Hfb Hdb Hfa Hda. repeat split.
  - intros r s' H.
    destruct (blocking_next_returned fuel itb env r s' Hfb Hdb H) as (n & b & _ & Hr & Hrep & _).
    exists n, b. subst r. split; [reflexivity|assumption].
  - intros r s' H.
    destruct (async_next_returned fuel ita env r s' Hfa Hda H) as (n & b & _ & Hr & Hrep).
    exists n, b. subst r. split; [reflexivity|assumption].
  - rewrite (blocking_next_stream fuel itb env n b w' Hfb Hdb H H0). reflexivity.
  - rewrite (blocking_next_stream fuel itb env n b w' Hfb Hdb H H0). cbn [snd].
    rewrite since_app, fetches_app, sync_absent_fetches. reflexivity.
  - intros n b rs w' HF Hp Hn. exact (async_next_stream fuel ita env n b rs w' Hfa Hda HF Hp Hn).
Qed.

Definition two_nulls_then_chunk : Script :=
  {| on_start := []; on_poll := [];
     on_fetch := [Answer None; Answer None; Answer (Some (bytes 20))];
     on_prepared := []; on_detached := [] |}.

Lemma absent_fetch_retried_witness :
  fst (Blocking.next 3 (Blocking.set_first false (Blocking.new_ResultStreamIterator 1 (bytes 10)),
                        start_env two_nulls_then_chunk))
  = Returned {| done := false; value := Some (bytes 20) |}
  /\ fst (Async.next 3 (Async.set_first false (Async.new_AsyncResultStreamIterator 1 (bytes 10)),
                        start_env two_nulls_then_chunk))
     = Returned {| done := false; value := Some (bytes 20) |}.
Proof.
  pose proof (absent_fetch_retried Script Scripted 3 (start_env two_nulls_then_chunk)
                (Blocking.set_first false (Blocking.new_ResultStreamIterator 1 (bytes 10)))
                (Async.set_first false (Async.new_AsyncResultStreamIterator 1 (bytes 10)))
                eq_refl eq_refl eq_refl eq_refl) as H.
  assert (HF : Fetches 1 two_nulls_then_chunk
                 (repeat (Answer None) 2 ++ [Answer (Some (bytes 20))]) script0).
  { repeat (econstructor; [reflexivity|]). constructor. }
  split.
  - exact (proj1 (proj1 (proj2 (proj2 H)) 2 (bytes 20) script0 HF (le_n 3))).
  - exact (proj2 (proj2 (proj2 H)) 2 (bytes 20) _ script0 HF eq_refl (le_n 3)).
Defined.

(** ** Draining a stream *)

Definition chunk_result (c : Uint8Array) : IteratorResult :=
  {| done := false; value := Some c |}.

Definition sentinel_result : IteratorResult := {| done := true; value := Some [] |}.

(** The buffers among the answers, in order. *)
Definition arrived (chunks : list (option Uint8Array)) : list Uint8Array :=
  flat_map (fun c => match c with Some b => [b] | None => [] end) chunks.

Lemma arrived_nulls k : arrived (repeat None k) = [].
Proof. induction k as [|k IH]; [reflexivity|]. exact IH. Qed.

Lemma arrived_app l1 l2 : arrived (l1 ++ l2) = arrived l1 ++ arrived l2.
Proof. apply flat_map_app. Qed.

(** A list of answers starts with [null]s, followed by a buffer or by the end. *)
Lemma leading_nulls {A} (l : list (option A)) :
  exists k, l = repeat None k \/ exists c rest, l = repeat None k ++ Some c :: rest.
Proof.
  induction l as [|[c|] l IH].
  - exists 0. now left.
  - exists 0. right. now exists c, l.
  - destruct IH as (k & [H|(c & rest & H)]); exists (S k); subst l.
    + now left.
    + right. now exists c, rest.
Qed.

Lemma nonempty_length (b : Uint8Array) : b <> [] -> (List.length b =? 0)%nat = false.
Proof. destruct b; [congruence|reflexivity]. Qed.

Section Drain.
Context {W : Type} {B : Bindings W}.
Variable fuel : nat.

Lemma blocking_drain_chunks (m : nat) :
  forall (chunks : list (option Uint8Array)) (it : Blocking.ResultStreamIterator)
         (env : Env W) (w' : W) (n : nat),
    List.length chunks <= m ->
    Blocking._first it = false -> Blocking._depleted it = false ->
    Forall (fun c => c <> Some []) chunks ->
    Fetches (Blocking.conn it) (world env) (map Answer chunks ++ [Answer (Some [])]) w' ->
    List.length chunks < fuel -> List.length chunks < n ->
    drain Blocking.next n fuel (it, env)
    = (Returned (map chunk_result (arrived chunks) ++ [sentinel_result]),
       (Blocking.set_depleted true it,
        {| world := w';
           log := log env ++ map (Sync (FetchQueryResults (Blocking.conn it)))
                               (map Answer chunks ++ [Answer (Some [])]) |})).
Proof.
  induction m as [|m IH]; intros chunks it env w' n Hm Hf Hd Hne HF Hfuel Hn;
    (destruct n as [|n]; [lia|]); cbn [drain]; unfold bind;
    destruct (leading_nulls chunks) as (k & [Hc|(c & rest & Hc)]); subst chunks.
  - rewrite map_repeat in HF. rewrite repeat_length in Hfuel.
    rewrite (blocking_next_stream fuel it env k [] w' Hf Hd HF Hfuel).
    cbn [done List.length Nat.eqb]. unfold ret.
    rewrite arrived_nulls, map_app, !map_repeat. reflexivity.
  - rewrite length_app in Hm. cbn [List.length] in Hm. lia.
  - rewrite map_repeat in HF. rewrite repeat_length in Hfuel.
    rewrite (blocking_next_stream fuel it env k [] w' Hf Hd HF Hfuel).
    cbn [done List.length Nat.eqb]. unfold ret.
    rewrite arrived_nulls, map_app, !map_repeat. reflexivity.
  - rewrite length_app, repeat_length in Hm, Hfuel, Hn. cbn [List.length] in Hm, Hfuel, Hn.
    apply Forall_app in Hne. destruct Hne as [_ Hne].
    inversion Hne as [|? ? Hc Hrest]; subst.
    assert (Hcne : c <> []) by (intros ->; now apply Hc).
    rewrite map_app, map_repeat in HF. cbn [map] in HF.
    change (repeat (Answer None) k ++ Answer (Some c) :: map Answer rest)
      with (repeat (Answer None) k ++ [Answer (Some c)] ++ map Answer rest) in HF.
    rewrite <- !app_assoc in HF. rewrite app_assoc in HF.
    apply Fetches_app in HF. destruct HF as (w1 & HF1 & HF2).
    rewrite (blocking_next_stream fuel it env k c w1 Hf Hd HF1 ltac:(lia)).
    rewrite (nonempty_length c Hcne). cbn [done].
    rewrite (IH rest (Blocking.set_depleted false it) _ w' n);
      [|lia|assumption|reflexivity|assumption|exact HF2|lia|lia].
    unfold ret. cbn [Blocking.conn Blocking.set_depleted log world].
    rewrite arrived_app, arrived_nulls. cbn [app arrived flat_map map].
    f_equal. f_equal. f_equal.
    rewrite !map_app, !map_repeat, <- !app_assoc. reflexivity.
Qed.

(** A suspending-mode call on a stream whose next buffer is [b]: what it
    returns and where it leaves the iterator and the bindings. *)
Lemma async_next_chunk (it : Async.AsyncResultStreamIterator) (env : Env W) k b rs w1 :
  Async._first it = false -> Async._depleted it = false ->
  Fetches (Async.conn it) (world env) rs w1 ->
  pending it ++ rs = repeat (Answer None) k ++ [Answer (Some b)] ->
  k < fuel ->
  exists it' env',
    Async.next fuel (it, env)
    = (Returned {| done := (List.length b =? 0)%nat; value := Some b |}, (it', env'))
    /\ Async.conn it' = Async.conn it
    /\ Async._first it' = false
    /\ Async._depleted it' = (List.length b =? 0)%nat
    /\ if (List.length b =? 0)%nat then world env' = w1
       else exists r, fetchQueryResults (Async.conn it) w1 = (r, world env')
                      /\ pending it' = [r].
Proof.
  intros Hf Hd HF Hp Hk. rewrite async_next_eq, Hf, Hd.
  assert (Hrest : forall it1 buffer env1 env2,
             Async.conn it1 = Async.conn it -> Async._first it1 = false ->
             Async.fetch_loop fuel (Async.conn it1) buffer env1 = (Returned b, env2) ->
             world env2 = w1 ->
             exists it' env',
               async_next_rest fuel it1 buffer env1
               = (Returned {| done := (List.length b =? 0)%nat; value := Some b |}, (it', env'))
               /\ Async.conn it' = Async.conn it
               /\ Async._first it' = false
               /\ Async._depleted it' = (List.length b =? 0)%nat
               /\ if (List.length b =? 0)%nat then world env' = w1
                  else exists r, fetchQueryResults (Async.conn it) w1 = (r, world env')
                                 /\ pending it' = [r]).
  { intros it1 buffer env1 env2 Hconn Hf1 Hloop Hw. unfold async_next_rest.
    rewrite Hloop. destruct (List.length b =? 0)%nat.
    - eexists _, _. split; [reflexivity|]. cbn. auto.
    - cbv zeta. rewrite Hconn, Hw.
      destruct (fetchQueryResults (Async.conn it) w1) as [r w2].
      eexists _, _. split; [reflexivity|]. cbn.
      repeat split; try assumption. exists r. split; reflexivity. }
  unfold pending in Hp. destruct (Async._inFlight it) as [p|].
  - cbv zeta. destruct (settles p) as [buffer|e];
      destruct k as [|k]; cbn [repeat app] in Hp; inversion Hp; subst.
    + inversion HF; subst.
      eapply Hrest; [reflexivity|assumption|apply async_fetch_loop_ready|reflexivity].
    + eapply Hrest;
        [reflexivity|assumption
        |apply async_fetch_loop_stream with (n := k) (w' := w1); [exact HF|lia]
        |reflexivity].
  - cbn [app] in Hp. subst rs.
    eapply Hrest;
      [reflexivity|assumption
      |apply async_fetch_loop_stream with (n := k) (w' := w1); [exact HF|lia]
      |reflexivity].
Qed.

Lemma async_drain_chunks (m : nat) :
  forall (chunks : list (option Uint8Array)) (it : Async.AsyncResultStreamIterator)
         (env : Env W) (rs : list (Reply (option Uint8Array))) (w' : W) (n : nat),
    List.length chunks <= m ->
    Async._first it = false -> Async._depleted it = false ->
    Forall (fun c => c <> Some []) chunks ->
    Fetches (Async.conn it) (world env) rs w' ->
    pending it ++ rs = map Answer chunks ++ [Answer (Some [])] ->
    List.length chunks < fuel -> List.length chunks < n ->
    exists it' env',
      drain Async.next n fuel (it, env)
      = (Returned (map chunk_result (arrived chunks) ++ [sentinel_result]), (it', env'))
      /\ Async._first it' = false /\ Async._depleted it' = true /\ world env' = w'.
Proof.
  induction m as [|m IH]; intros chunks it env rs w' n Hm Hf Hd Hne HF Hp Hfuel Hn;
    (destruct n as [|n]; [lia|]); cbn [drain]; unfold bind;
    destruct (leading_nulls chunks) as (k & [Hc|(c & rest & Hc)]); subst chunks.
  - rewrite map_repeat in Hp. rewrite repeat_length in Hfuel.
    destruct (async_next_chunk it env k [] rs w' Hf Hd HF Hp Hfuel)
      as (it' & env' & Hnext & _ & Hf' & Hd' & Hw).
    rewrite Hnext. cbn [done List.length Nat.eqb] in *. unfold ret.
    rewrite arrived_nulls. exists it', env'. auto.
  - rewrite length_app in Hm. cbn [List.length] in Hm. lia.
  - rewrite map_repeat in Hp. rewrite repeat_length in Hfuel.
    destruct (async_next_chunk it env k [] rs w' Hf Hd HF Hp Hfuel)
      as (it' & env' & Hnext & _ & Hf' & Hd' & Hw).
    rewrite Hnext. cbn [done List.length Nat.eqb] in *. unfold ret.
    rewrite arrived_nulls. exists it', env'. auto.
  - rewrite length_app, repeat_length in Hm, Hfuel, Hn. cbn [List.length] in Hm, Hfuel, Hn.
    apply Forall_app in Hne. destruct Hne as [_ Hne].
    inversion Hne as [|? ? Hc Hrest]; subst.
    assert (Hcne : c <> []) by (intros ->; now apply Hc).
    rewrite map_app, map_repeat in Hp. cbn [map] in Hp.
    change (repeat (Answer None) k ++ Answer (Some c) :: map Answer rest)
      with (repeat (Answer None) k ++ [Answer (Some c)] ++ map Answer rest) in Hp.
    rewrite <- !app_assoc in Hp. rewrite !app_assoc in Hp. rewrite <- (app_assoc _ _ [_]) in Hp.
    (* the replies split into those up to [c] and the rest of the stream *)
    assert (Hsplit : exists rs1 rs2,
               rs = rs1 ++ rs2
               /\ pending it ++ rs1 = repeat (Answer None) k ++ [Answer (Some c)]
               /\ rs2 = map Answer rest ++ [Answer (Some [])]).
    { unfold pending in *. destruct (Async._inFlight it) as [p|].
      - destruct k as [|k]; cbn [repeat app] in Hp; injection Hp as Hs Hrs; rewrite Hs.
        + exists [], rs. repeat split. exact Hrs.
        + exists (repeat (Answer None) k ++ [Answer (Some c)]),
                 (map Answer rest ++ [Answer (Some [])]).
          repeat split. exact Hrs.
      - cbn [app] in Hp. subst rs.
        exists (repeat (Answer None) k ++ [Answer (Some c)]),
               (map Answer rest ++ [Answer (Some [])]).
        repeat split. }
    destruct Hsplit as (rs1 & rs2 & Hrs & Hp1 & Hrs2). subst rs.
    apply Fetches_app in HF. destruct HF as (w1 & HF1 & HF2).
    destruct (async_next_chunk it env k c rs1 w1 Hf Hd HF1 Hp1 ltac:(lia))
      as (it1 & env1 & Hnext & Hconn & Hf1 & Hd1 & Hw).
    rewrite Hnext. rewrite (nonempty_length c Hcne) in *. cbn [done].
    destruct Hw as (r & Hr & Hpend).
    (* the prefetch has taken the first reply of the rest of the stream *)
    assert (Hrest2 : exists rs3, rs2 = r :: rs3 /\ Fetches (Async.conn it) (world env1) rs3 w').
    { destruct rs2 as [|r2 rs3]; [destruct rest; discriminate|].
      inversion HF2; subst.
      match goal with H : fetchQueryResults _ w1 = (r2, _) |- _ =>
        rewrite Hr in H; inversion H; subst end.
      exists rs3. split; [reflexivity|assumption]. }
    destruct Hrest2 as (rs3 & Hrs3 & HF3).
    destruct (IH rest it1 env1 rs3 w' n) as (it' & env' & Hdrain & Hf' & Hd' & Hw');
      [lia|assumption|assumption|assumption|rewrite Hconn; exact HF3
      |rewrite Hpend, <- Hrs2, Hrs3; reflexivity|lia|lia|].
    rewrite Hdrain. unfold ret.
    rewrite arrived_app, arrived_nulls. cbn [app arrived flat_map map].
    exists it', env'. auto.
Qed.

End Drain.

(** ** No [done] before the empty buffer *)

(** The reply that carries the zero-length buffer. *)
Definition sentinel : Reply (option Uint8Array) := Answer (Some []).

Lemma zero_length_nil (b : Uint8Array) : (List.length b =? 0)%nat = true -> b = [].
Proof. destruct b; [reflexivity|discriminate]. Qed.

Section Sentinel.
Variables (S : Type) (next : nat -> M S IteratorResult)
          (depleted : S -> bool) (log_of : S -> list Event).

(** A call reports [done], or leaves the flag set, only if the flag was set
    or the call received the empty buffer. *)
Hypothesis next_sentinel :
  forall fuel s c s',
    next fuel s = (c, s') ->
    exists d,
      log_of s' = log_of s ++ d /\
      ((exists r, c = Returned r /\ done r = true) \/ depleted s' = true ->
       depleted s = true \/ In sentinel (replies d)).

Lemma nexts_sentinel (fuels : list nat) :
  forall s cs s',
    nexts next fuels s = (cs, s') ->
    exists d,
      log_of s' = log_of s ++ d /\
      ((exists r, In (Returned r) cs /\ done r = true) \/ depleted s' = true ->
       depleted s = true \/ In sentinel (replies d)).
Proof.
  induction fuels as [|fuel fuels IH]; intros s cs s'; cbn [nexts].
  - intros H; inversion H; subst. exists []. rewrite app_nil_r. split; [reflexivity|].
    intros [(r & [] & _)|Hd]. now left.
  - destruct (next fuel s) as [c s1] eqn:Hnext.
    destruct (nexts next fuels s1) as [cs' s2] eqn:Hrest.
    intros H; inversion H; subst.
    destruct (next_sentinel fuel s c s1 Hnext) as (d1 & Hlog1 & H1).
    destruct (IH s1 cs' s' Hrest) as (d2 & Hlog2 & H2).
    exists (d1 ++ d2). split; [rewrite Hlog2, Hlog1, app_assoc; reflexivity|].
    rewrite replies_app. intros Hany.
    assert (Hcases : (exists r, c = Returned r /\ done r = true)
                     \/ (exists r, In (Returned r) cs' /\ done r = true)
                     \/ depleted s' = true).
    { destruct Hany as [(r & [Hr|Hr] & Hd)|Hd]; eauto. }
    destruct Hcases as [Hc|Hc].
    + destruct (H1 (or_introl Hc)) as [Hs|Hin]; [now left|].
      right. apply in_or_app. now left.
    + destruct (H2 Hc) as [Hs1|Hin].
      * destruct (H1 (or_intror Hs1)) as [Hs|Hin]; [now left|].
        right. apply in_or_app. now left.
      * right. apply in_or_app. now right.
Qed.

End Sentinel.

Section SentinelSteps.
Context {W : Type} {B : Bindings W}.

Lemma blocking_next_sentinel fuel (s : Blocking.ResultStreamIterator * Env W) c s' :
  Blocking.next fuel s = (c, s') ->
  exists d,
    log (snd s') = log (snd s) ++ d /\
    ((exists r, c = Returned r /\ done r = true) \/ Blocking._depleted (fst s') = true ->
     Blocking._depleted (fst s) = true \/ In sentinel (replies d)).
Proof.
  destruct s as [it env]. rewrite blocking_next_eq. cbn [fst snd].
  destruct (Blocking._first it) eqn:Hf.
  { intros H; inversion H; subst. exists []. rewrite app_nil_r. split; [reflexivity|].
    cbn. intros [(r & Hr & Hd)|Hd]; [|now left]. inversion Hr; subst. discriminate Hd. }
  destruct (Blocking._depleted it) eqn:Hd.
  { intros H; inversion H; subst. exists []. rewrite app_nil_r. split; [reflexivity|].
    intros _. now left. }
  destruct (blocking_fetch_loop_run (Blocking.conn it) fuel env) as (d & Hlog & Hres).
  destruct (Blocking.fetch_loop fuel (Blocking.conn it) env) as [[b|e|] env'];
    cbn [fst snd] in *; intros H; inversion H; subst c s'; exists d;
    (split; [assumption|]); cbn [fst snd].
  - destruct Hres as (n & _ & Hdd). subst d.
    assert (Hz : (List.length b =? 0)%nat = true ->
                 In sentinel (replies (repeat (Sync (FetchQueryResults (Blocking.conn it))
                                                 (Answer None)) n
                                         ++ [Sync (FetchQueryResults (Blocking.conn it))
                                               (Answer (Some b))]))).
    { intros Hz. apply zero_length_nil in Hz. subst b.
      rewrite replies_app. apply in_or_app. right. now left. }
    intros [(r & Hr & Hdone)|Hdep]; right; apply Hz.
    + inversion Hr; subst. exact Hdone.
    + exact Hdep.
  - intros [(r & Hr & _)|Hdep]; [discriminate|congruence].
  - intros [(r & Hr & _)|Hdep]; [discriminate|congruence].
Qed.

Lemma async_next_rest_sentinel fuel (it : Async.AsyncResultStreamIterator)
  buffer (env : Env W) c s' :
  Async._depleted it = false ->
  async_next_rest fuel it buffer env = (c, s') ->
  exists d,
    log (snd s') = log env ++ d /\
    ((exists r, c = Returned r /\ done r = true) \/ Async._depleted (fst s') = true ->
     buffer = Some [] \/ In sentinel (replies d)).
Proof.
  intros Hd Hrest.
  destruct c as [r|e|].
  - destruct (async_next_rest_returned fuel it buffer env r s' Hrest)
      as (d & b & Hlog & Hr & Hshape).
    exists d. split; [assumption|].
    assert (Hdep : Async._depleted (fst s') = done r).
    { clear - Hrest. unfold async_next_rest in Hrest.
      destruct (Async.fetch_loop fuel (Async.conn it) buffer env) as [[b'|e|] env'];
        try discriminate.
      destruct (List.length b' =? 0)%nat eqn:Hlen.
      - inversion Hrest; subst. reflexivity.
      - cbv zeta in Hrest. destruct (fetchQueryResults _ _).
        inversion Hrest; subst. reflexivity. }
    intros Hany.
    assert (Hdone : done r = true).
    { destruct Hany as [(r' & Hr' & Hdone)|Hdep']; [now inversion Hr'; subst|congruence]. }
    subst r. cbn [done] in Hdone. apply zero_length_nil in Hdone. subst b.
    destruct Hshape as [(Hb & _)|(_ & n & _ & Hrep & _)]; [now left|].
    right. rewrite Hrep. apply in_or_app. right. now left.
  - unfold async_next_rest in Hrest.
    destruct (async_fetch_loop_run (Async.conn it) fuel buffer env) as (d & Hlog & _).
    destruct (Async.fetch_loop fuel (Async.conn it) buffer env) as [[b'|e'|] env'].
    + destruct (List.length b' =? 0)%nat; [discriminate|].
      cbv zeta in Hrest. destruct (fetchQueryResults _ _). discriminate.
    + inversion Hrest; subst. exists d. split; [assumption|]. cbn [fst].
      intros [(r & Hr & _)|Hdep]; [discriminate|congruence].
    + discriminate.
  - unfold async_next_rest in Hrest.
    destruct (async_fetch_loop_run (Async.conn it) fuel buffer env) as (d & Hlog & _).
    destruct (Async.fetch_loop fuel (Async.conn it) buffer env) as [[b'|e'|] env'].
    + destruct (List.length b' =? 0)%nat; [discriminate|].
      cbv zeta in Hrest. destruct (fetchQueryResults _ _). discriminate.
    + discriminate.
    + inversion Hrest; subst. exists d. split; [assumption|]. cbn [fst].
      intros [(r & Hr & _)|Hdep]; [discriminate|congruence].
Qed.

Lemma async_next_sentinel fuel (s : Async.AsyncResultStreamIterator * Env W) c s' :
  Async.next fuel s = (c, s') ->
  exists d,
    log (snd s') = log (snd s) ++ d /\
    ((exists r, c = Returned r /\ done r = true) \/ Async._depleted (fst s') = true ->
     Async._depleted (fst s) = true \/ In sentinel (replies d)).
Proof.
  destruct s as [it env]. rewrite async_next_eq. cbn [fst snd].
  destruct (Async._first it) eqn:Hf.
  { intros H; inversion H; subst. exists []. rewrite app_nil_r. split; [reflexivity|].
    cbn. intros [(r & Hr & Hd)|Hd]; [|now left]. inversion Hr; subst. discriminate Hd. }
  destruct (Async._depleted it) eqn:Hd.
  { intros H; inversion H; subst. exists []. rewrite app_nil_r. split; [reflexivity|].
    intros _. now left. }
  destruct (Async._inFlight it) as [p|].
  - cbv zeta. destruct (settles p) as [buffer|e] eqn:Hp.
    + intros H. apply async_next_rest_sentinel in H; [|exact Hd].
      destruct H as (d & Hlog & Hany).
      exists (Settle (ticket p) (Answer buffer) :: d).
      split; [rewrite Hlog; unfold record; cbn [log]; now rewrite <- app_assoc|].
      intros H. right. destruct (Hany H) as [Hb|Hin].
      * subst buffer. now left.
      * change (replies (?a :: ?l)) with (replies [a] ++ replies l).
        apply in_or_app. now right.
    + intros H; inversion H; subst. exists [Settle (ticket p) (Fault e)].
      split; [reflexivity|]. cbn [fst].
      intros [(r & Hr & _)|Hdep]; [discriminate|congruence].
  - intros H. apply async_next_rest_sentinel in H; [|exact Hd].
    destruct H as (d & Hlog & Hany). exists d. split; [assumption|].
    intros H. right. destruct (Hany H) as [Hb|Hin]; [discriminate|assumption].
Qed.

(** What [send] returns is a fresh iterator on the header it last received. *)
Lemma blocking_send_fresh (this : Blocking.DuckDBConnection) text allow fuel
  (env env' : Env W) it :
  Blocking.send this text allow fuel env = (Returned it, env') ->
  exists h l,
    it = Blocking.new_ResultStreamIterator (Blocking._conn this) h
    /\ replies (since env env') = l ++ [Answer (Some h)].
Proof.
  intros Hrun.
  destruct (blocking_send_run this text allow fuel env) as (r & d & Hlog & Hres).
  cbv zeta in Hlog, Hres. rewrite Hrun in Hlog, Hres. cbn [fst snd] in *.
  destruct env' as [w' l']. cbn [log] in Hlog. subst l'. rewrite since_app.
  destruct r as [header|e]; [|destruct Hres; discriminate].
  destruct Hres as (h & Hit & [[Hh Hd]|[Hh (n & _ & Hd)]]); subst; exists h.
  - exists []. split; reflexivity.
  - exists (Answer None :: repeat (Answer None) n). split; [reflexivity|].
    change (replies (?a :: ?l)) with (replies [a] ++ replies l).
    rewrite replies_app, sync_calls_replies. reflexivity.
Qed.

Lemma waiting_replies conn pos n : replies (waiting conn pos n) = repeat (Answer None) n.
Proof.
  revert pos; induction n as [|n IH]; intros pos; [reflexivity|].
  cbn [waiting]. change (replies (?a :: ?b :: ?c :: ?l)) with (replies [a; b; c] ++ replies l).
  rewrite IH. reflexivity.
Qed.

Lemma async_send_fresh (this : Async.AsyncDuckDBConnection) text allow fuel
  (env env' : Env W) it :
  Async.send this text allow fuel env = (Returned (Async.Iterator it), env') ->
  exists h l,
    it = Async.new_AsyncResultStreamIterator (Async._conn this) h
    /\ replies (since env env') = l ++ [Answer (Some h)].
Proof.
  intros Hrun.
  destruct (async_send_run this text allow fuel env) as (r & d & Hlog & Hres).
  cbv zeta in Hlog, Hres. rewrite Hrun in Hlog, Hres. cbn [fst snd] in *.
  destruct env' as [w' l']. cbn [log] in Hlog. subst l'. rewrite since_app.
  destruct r as [header|e]; [|destruct Hres; discriminate].
  destruct Hres as (h & Hit & [[Hh Hd]|[Hh (n & _ & Hd)]]); subst; exists h.
  - exists []. split; reflexivity.
  - exists (Answer None :: repeat (Answer None) n). split; [reflexivity|].
    change (replies (?a :: ?b :: ?c :: ?l)) with (replies [a; b; c] ++ replies l).
    rewrite replies_app, waiting_replies. reflexivity.
Qed.

End SentinelSteps.

Section DrainFresh.
Context {W : Type} {B : Bindings W}.
Variables (fuel n : nat) (conn : Z) (header : Uint8Array)
          (chunks : list (option Uint8Array)) (env : Env W) (w' : W).
Hypothesis nonempty_chunks : Forall (fun c => c <> Some []) chunks.
Hypothesis stream : Fetches conn (world env) (map Answer chunks ++ [sentinel]) w'.
Hypothesis enough_fuel : List.length chunks < fuel.
Hypothesis enough_calls : List.length chunks + 2 <= n.

Lemma blocking_drain_fresh :
  drain Blocking.next n fuel (Blocking.new_ResultStreamIterator conn header, env)
  = (Returned (chunk_result header :: map chunk_result (arrived chunks) ++ [sentinel_result]),
     (Blocking.set_depleted true
        (Blocking.set_first false (Blocking.new_ResultStreamIterator conn header)),
      {| world := w';
         log := log env ++ map (Sync (FetchQueryResults conn))
                             (map Answer chunks ++ [sentinel]) |})).
Proof.
  destruct n as [|n']; [lia|]. cbn [drain]. unfold bind at 1.
  rewrite blocking_next_eq. cbn [Blocking._first Blocking.new_ResultStreamIterator done].
  unfold bind at 1.
  rewrite (blocking_drain_chunks fuel (List.length chunks) chunks
             (Blocking.set_first false (Blocking.new_ResultStreamIterator conn header))
             env w' n');
    [reflexivity|lia|reflexivity|reflexivity|assumption|exact stream|assumption|lia].
Qed.

Lemma async_drain_fresh :
  exists it' env',
    drain Async.next n fuel (Async.new_AsyncResultStreamIterator conn header, env)
    = (Returned (chunk_result header :: map chunk_result (arrived chunks) ++ [sentinel_result]),
       (it', env'))
    /\ Async._first it' = false /\ Async._depleted it' = true /\ world env' = w'.
Proof.
  destruct n as [|n']; [lia|]. cbn [drain]. unfold bind at 1.
  rewrite async_next_eq. cbn [Async._first Async.new_AsyncResultStreamIterator done].
  unfold bind at 1.
  destruct (async_drain_chunks fuel (List.length chunks) chunks
              (Async.set_first false (Async.new_AsyncResultStreamIterator conn header))
              env (map Answer chunks ++ [sentinel]) w' n')
    as (it' & env' & Hdrain & Hf & Hd & Hw);
    [lia|reflexivity|reflexivity|assumption|exact stream|reflexivity|assumption|lia|].
  rewrite Hdrain. exists it', env'. auto.
Qed.

End DrainFresh.

(** C3. Draining the iterator that [send] returned on a header, in either
    variant. When the bindings answer the fetches with [chunks] (each
    [null] or a non-empty buffer) and then with the empty buffer, the
    [next()] calls yield the header with [done = false], then the buffers
    of [chunks] in order with [done = false], then the empty buffer with
    [done = true], and draining stops there (given fuel and calls enough
    for the stream). [send] returns nothing but a fresh iterator on the
    header it received last. And whatever the bindings answer, no [next()]
    call of a fresh iterator reports [done] before the empty buffer was
    received. *)
Theorem drain_header_chunks_sentinel :
  forall (W : Type) (B : Bindings W) (fuel n : nat) (conn : Z) (header : Uint8Array)
         (chunks : list (option Uint8Array)) (env : Env W) (w' : W),
    Forall (fun c => c <> Some []) chunks ->
    Fetches conn (world env) (map Answer chunks ++ [sentinel]) w' ->
    List.length chunks < fuel ->
    List.length chunks + 2 <= n ->
    let expected :=
      chunk_result header :: map chunk_result (arrived chunks) ++ [sentinel_result] in
    fst (drain Blocking.next n fuel (Blocking.new_ResultStreamIterator conn header, env))
    = Returned expected
    /\ fst (drain Async.next n fuel (Async.new_AsyncResultStreamIterator conn header, env))
       = Returned expected
    /\ (forall this text allow fuel0 env0 env1 it,
          Blocking.send this text allow fuel0 env0 = (Returned it, env1) ->
          exists h l,
            it = Blocking.new_ResultStreamIterator (Blocking._conn this) h
            /\ replies (since env0 env1) = l ++ [Answer (Some h)])
    /\ (forall this text allow fuel0 env0 env1 it,
          Async.send this text allow fuel0 env0 = (Returned (Async.Iterator it), env1) ->
          exists h l,
            it = Async.new_AsyncResultStreamIterator (Async._conn this) h
            /\ replies (since env0 env1) = l ++ [Answer (Some h)])
    /\ (forall fuels cs s' r,
          nexts Blocking.next fuels (Blocking.new_ResultStreamIterator conn header, env)
          = (cs, s') ->
          In (Returned r) cs -> done r = true ->
          In sentinel (replies (since env (snd s'))))
    /\ (forall fuels cs s' r,
          nexts Async.next fuels (Async.new_AsyncResultStreamIterator conn header, env)
          = (cs, s') ->
          In (Returned r) cs -> done r = true ->
          In sentinel (replies (since env (snd s')))).
Proof.
  intros W B fuel n conn header chunks env w' Hne HF Hfuel Hn expected.
  split; [|split; [|split; [|split; [|split]]]].
  - subst expected.
    now rewrite (blocking_drain_fresh fuel n conn header chunks env w' Hne HF Hfuel Hn).
  - subst expected.
    destruct (async_drain_fresh fuel n conn header chunks env w' Hne HF Hfuel Hn)
      as (it' & env' & Hdrain & _).
    now rewrite Hdrain.
  - intros this text allow fuel0 env0 env1 it. apply blocking_send_fresh.
  - intros this text allow fuel0 env0 env1 it. apply async_send_fresh.
  - intros fuels cs s' r Hrun Hin Hdone.
    destruct (nexts_sentinel _ Blocking.next (fun s => Blocking._depleted (fst s))
                (fun s => log (snd s)) blocking_next_sentinel fuels _ cs s' Hrun)
      as (d & Hlog & Hany).
    cbn [fst snd Blocking._depleted Blocking.new_ResultStreamIterator] in *.
    destruct s' as [it' [w1 l1]]. cbn [snd log] in *. subst l1. rewrite since_app.
    destruct Hany as [Hfalse|Hin']; [left; eauto|discriminate|assumption].
  - intros fuels cs s' r Hrun Hin Hdone.
    destruct (nexts_sentinel _ Async.next (fun s => Async._depleted (fst s))
                (fun s => log (snd s)) async_next_sentinel fuels _ cs s' Hrun)
      as (d & Hlog & Hany).
    cbn [fst snd Async._depleted Async.new_AsyncResultStreamIterator] in *.
    destruct s' as [it' [w1 l1]]. cbn [snd log] in *. subst l1. rewrite since_app.
    destruct Hany as [Hfalse|Hin']; [left; eauto|discriminate|assumption].
Qed.

(** Scenario A: a header of 10 bytes, fetches answering 20 bytes and then
    the empty buffer: three elements. *)
Lemma drain_header_chunks_sentinel_witness :
  fst (drain Blocking.next 3 2 (Blocking.new_ResultStreamIterator 1 (bytes 10),
                                start_env scenarioA))
  = Returned [ {| done := false; value := Some (bytes 10) |};
               {| done := false; value := Some (bytes 20) |};
               {| done := true; value := Some [] |} ]
  /\ fst (drain Async.next 3 2 (Async.new_AsyncResultStreamIterator 1 (bytes 10),
                                start_env scenarioA))
     = Returned [ {| done := false; value := Some (bytes 10) |};
                  {| done := false; value := Some (bytes 20) |};
                  {| done := true; value := Some [] |} ].
Proof.
  assert (Hne : Forall (fun c : option Uint8Array => c <> Some []) [Some (bytes 20)]).
  { constructor; [discriminate|constructor]. }
  assert (HF : Fetches 1 (world (start_env scenarioA))
                 (map Answer [Some (bytes 20)] ++ [sentinel])
                 {| on_start := [Answer (Some (bytes 10))]; on_poll := []; on_fetch := [];
                    on_prepared := []; on_detached := [] |}).
  { repeat (econstructor; [reflexivity|]). constructor. }
  pose proof (drain_header_chunks_sentinel Script Scripted 2 3 1 (bytes 10)
                [Some (bytes 20)] (start_env scenarioA) _ Hne HF (le_n 2) (le_n 3)) as H.
  exact (conj (proj1 H) (proj1 (proj2 H))).
Defined.

(** Scenario A through [send], computed. *)
Example scenarioA_blocking :
  fst ((it <- Blocking.send {| Blocking._conn := 1 |} "select 1" None 1 ;;
        fun env => let (r, s) := drain Blocking.next 3 1 (it, env) in (r, snd s))
         (start_env scenarioA))
  = Returned [chunk_result (bytes 10); chunk_result (bytes 20); sentinel_result].
Proof. reflexivity. Qed.

Example scenarioA_async :
  fst ((sent <- Async.send {| Async._conn := 1 |} "select 1" None 1 ;;
        match sent with
        | Async.Undefined => ret []
        | Async.Iterator it =>
            fun env => let (r, s) := drain Async.next 3 1 (it, env) in (r, snd s)
        end)
         (start_env scenarioA))
  = Returned [chunk_result (bytes 10); chunk_result (bytes 20); sentinel_result].
Proof. reflexivity. Qed.

(** ** Outstanding requests *)

(** Tickets are log positions: no ticket is issued twice, and every ticket
    recorded lies before the end of the log. *)
Definition ticketed (l : list Event) : Prop :=
  NoDup (issued l) /\ forall t, In t (issued l ++ settled l) -> t < List.length l.

(** From [l0] on, no point of the log has more than one request outstanding. *)
Inductive Quiet (l0 : list Event) : list Event -> Prop :=
| Quiet_start : List.length (outstanding l0) <= 1 -> Quiet l0 l0
| Quiet_step l ev :
    Quiet l0 l -> List.length (outstanding (l ++ [ev])) <= 1 -> Quiet l0 (l ++ [ev]).

(** No request is outstanding, and none was beyond the first since [l0]. *)
Definition Calm (l0 l : list Event) : Prop :=
  ticketed l /\ Quiet l0 l /\ outstanding l = [].

Lemma issued_app l1 l2 : issued (l1 ++ l2) = issued l1 ++ issued l2.
Proof. apply flat_map_app. Qed.

Lemma settled_app l1 l2 : settled (l1 ++ l2) = settled l1 ++ settled l2.
Proof. apply flat_map_app. Qed.

Lemma last_event_cases {A} (d : list A) : d = [] \/ exists d' a, d = d' ++ [a].
Proof.
  destruct d as [|a d]; [now left|right].
  destruct (exists_last (l := a :: d)) as (d' & a' & H); [discriminate|].
  now exists d', a'.
Qed.

Lemma Quiet_every_point l0 l :
  Quiet l0 l ->
  forall d1 d2, l = l0 ++ d1 ++ d2 -> List.length (outstanding (l0 ++ d1)) <= 1.
Proof.
  induction 1 as [H0|l ev HQ IH Hle]; intros d1 d2 Heq.
  - rewrite <- (app_nil_r l0) in Heq at 1. apply app_inv_head in Heq.
    symmetry in Heq. apply app_eq_nil in Heq. destruct Heq as [-> _].
    now rewrite app_nil_r.
  - destruct (last_event_cases d2) as [->|(d2' & ev' & ->)].
    + rewrite app_nil_r in Heq. now rewrite <- Heq.
    + rewrite !app_assoc in Heq. apply app_inj_tail in Heq. destruct Heq as [Heq _].
      apply (IH d1 d2'). now rewrite Heq, <- app_assoc.
Qed.

Lemma filter_both {A} (f g : A -> bool) (l : list A) :
  filter (fun x => f x && g x) l = filter g (filter f l).
Proof.
  induction l as [|a l IH]; [reflexivity|]. cbn [filter].
  destruct (f a); cbn [andb filter]; [destruct (g a)|]; now rewrite IH.
Qed.

Lemma filter_none {A} (f : A -> bool) (l : list A) :
  (forall x, In x l -> f x = false) -> filter f l = [].
Proof.
  induction l as [|a l IH]; intros H; [reflexivity|]. cbn [filter].
  rewrite (H a (or_introl eq_refl)). apply IH. intros x Hx. apply H. now right.
Qed.

Lemma at_most_one_of {A} (a : A) (l : list A) :
  NoDup l -> (forall x, In x l -> x = a) -> List.length l <= 1.
Proof.
  intros Hnd Hall. destruct l as [|x [|y l]]; cbn; try lia.
  inversion Hnd as [|? ? Hnin _]; subst. exfalso. apply Hnin. left.
  rewrite (Hall x), (Hall y); cbn; auto.
Qed.

Section Tickets.
Variable l : list Event.
Hypothesis Hl : ticketed l.

Lemma fresh_ticket_not_issued : ~ In (List.length l) (issued l).
Proof.
  intros H. destruct Hl as [_ Hb].
  specialize (Hb (List.length l) (in_or_app _ _ _ (or_introl H))). lia.
Qed.

Lemma fresh_ticket_not_settled : existsb (Nat.eqb (List.length l)) (settled l) = false.
Proof.
  destruct (existsb (Nat.eqb (List.length l)) (settled l)) eqn:E; [|reflexivity].
  apply existsb_exists in E. destruct E as (t & Hin & Heq).
  apply Nat.eqb_eq in Heq. subst t. destruct Hl as [_ Hb].
  specialize (Hb (List.length l) (in_or_app _ _ _ (or_intror Hin))). lia.
Qed.

Lemma ticketed_issue c : ticketed (l ++ [Issue (List.length l) c]).
Proof.
  destruct Hl as [Hnd Hb]. split.
  - rewrite issued_app. cbn [issued flat_map app].
    apply NoDup_app; [assumption|repeat constructor; intros []|].
    intros t Hin [Heq|[]]. subst t. now apply fresh_ticket_not_issued.
  - intros t. rewrite issued_app, settled_app, length_app.
    cbn [issued settled flat_map app List.length]. rewrite app_nil_r.
    rewrite !in_app_iff. intros [[H|[H|[]]]|H].
    + specialize (Hb t (in_or_app _ _ _ (or_introl H))). lia.
    + lia.
    + specialize (Hb t (in_or_app _ _ _ (or_intror H))). lia.
Qed.

Lemma outstanding_issue c :
  outstanding (l ++ [Issue (List.length l) c]) = outstanding l ++ [List.length l].
Proof.
  unfold outstanding. rewrite issued_app, settled_app.
  cbn [issued settled flat_map app]. rewrite app_nil_r, filter_app.
  cbn [filter]. now rewrite fresh_ticket_not_settled.
Qed.

Lemma ticketed_settle t r : t < List.length l -> ticketed (l ++ [Settle t r]).
Proof.
  intros Ht. destruct Hl as [Hnd Hb]. split.
  - rewrite issued_app. cbn [issued flat_map app]. now rewrite app_nil_r.
  - intros t'. rewrite issued_app, settled_app, length_app.
    cbn [issued settled flat_map app List.length]. rewrite app_nil_r.
    rewrite !in_app_iff. intros [H|[H|[H|[]]]].
    + specialize (Hb t' (in_or_app _ _ _ (or_introl H))). lia.
    + specialize (Hb t' (in_or_app _ _ _ (or_intror H))). lia.
    + lia.
Qed.

Lemma outstanding_settle t r :
  outstanding (l ++ [Settle t r]) = filter (fun x => negb (x =? t)%nat) (outstanding l).
Proof.
  unfold outstanding. rewrite issued_app, settled_app.
  cbn [issued settled flat_map app]. rewrite app_nil_r, <- filter_both.
  apply filter_ext. intros x. rewrite existsb_app. cbn [existsb].
  rewrite orb_false_r, negb_orb. reflexivity.
Qed.

(** An event that is neither a request nor an await. *)
Lemma ticketed_other ev : issued [ev] = [] -> settled [ev] = [] -> ticketed (l ++ [ev]).
Proof.
  intros Hi Hs. destruct Hl as [Hnd Hb]. split.
  - rewrite issued_app, Hi. now rewrite app_nil_r.
  - intros t. rewrite issued_app, settled_app, Hi, Hs, !app_nil_r, length_app.
    intros H. specialize (Hb t H). lia.
Qed.

Lemma outstanding_other ev :
  issued [ev] = [] -> settled [ev] = [] -> outstanding (l ++ [ev]) = outstanding l.
Proof.
  intros Hi Hs. unfold outstanding. now rewrite issued_app, settled_app, Hi, Hs, !app_nil_r.
Qed.

End Tickets.

Section CalmSteps.
Variables l0 l : list Event.
Hypothesis Hcalm : Calm l0 l.

Lemma calm_other ev : issued [ev] = [] -> settled [ev] = [] -> Calm l0 (l ++ [ev]).
Proof.
  intros Hi Hs. destruct Hcalm as (Ht & Hq & Ho). split; [|split].
  - now apply ticketed_other.
  - constructor; [assumption|]. rewrite outstanding_other, Ho by assumption. cbn. lia.
  - now rewrite outstanding_other.
Qed.

(** A request posted on a calm log is the one request outstanding. *)
Lemma calm_issue c :
  let l1 := l ++ [Issue (List.length l) c] in
  ticketed l1 /\ Quiet l0 l1 /\ outstanding l1 = [List.length l].
Proof.
  destruct Hcalm as (Ht & Hq & Ho). cbv zeta.
  rewrite (outstanding_issue l Ht), Ho. split; [|split].
  - now apply ticketed_issue.
  - constructor; [assumption|]. rewrite (outstanding_issue l Ht), Ho. cbn. lia.
  - reflexivity.
Qed.

(** A request posted and awaited at once leaves the log calm. *)
Lemma calm_round c r :
  Calm l0 (l ++ [Issue (List.length l) c; Settle (List.length l) r]).
Proof.
  destruct (calm_issue c) as (Ht1 & Hq1 & Ho1). cbv zeta in *.
  change (l ++ [Issue (List.length l) c; Settle (List.length l) r])
    with (l ++ [Issue (List.length l) c] ++ [Settle (List.length l) r]).
  rewrite app_assoc.
  assert (Ho2 : outstanding ((l ++ [Issue (List.length l) c]) ++ [Settle (List.length l) r]) = []).
  { rewrite outstanding_settle, Ho1. cbn [filter]. now rewrite Nat.eqb_refl. }
  split; [|split].
  - apply ticketed_settle; [assumption|]. rewrite length_app. cbn. lia.
  - constructor; [assumption|]. rewrite Ho2. cbn. lia.
  - exact Ho2.
Qed.

End CalmSteps.

(** Awaiting the promise that holds the only ticket that may be outstanding
    leaves the log calm. *)
Lemma calm_await l0 l t r :
  ticketed l -> Quiet l0 l -> t < List.length l ->
  (forall t', In t' (outstanding l) -> t' = t) ->
  Calm l0 (l ++ [Settle t r]).
Proof.
  intros Ht Hq Hlt Hall.
  assert (Ho : outstanding (l ++ [Settle t r]) = []).
  { rewrite outstanding_settle. apply filter_none.
    intros x Hx. rewrite (Hall x Hx), Nat.eqb_refl. reflexivity. }
  split; [|split].
  - now apply ticketed_settle.
  - constructor; [assumption|]. rewrite Ho. cbn. lia.
  - exact Ho.
Qed.

(** The iterator holds the only request that may be outstanding. *)
Definition Holding (it : Async.AsyncResultStreamIterator) (l : list Event) : Prop :=
  match Async._inFlight it with
  | Some p => ticket p < List.length l /\ forall t, In t (outstanding l) -> t = ticket p
  | None => outstanding l = []
  end.

Definition Good {W} (l0 : list Event) (s : Async.AsyncResultStreamIterator * Env W) : Prop :=
  ticketed (log (snd s)) /\ Quiet l0 (log (snd s)) /\ Holding (fst s) (log (snd s)).

Lemma Good_at_most_one {W} l0 (s : Async.AsyncResultStreamIterator * Env W) :
  Good l0 s -> List.length (outstanding (log (snd s))) <= 1.
Proof.
  intros (Ht & _ & Hh). unfold Holding in Hh.
  destruct (Async._inFlight (fst s)) as [p|].
  - apply (at_most_one_of (ticket p)); [|apply Hh].
    apply NoDup_filter. apply Ht.
  - rewrite Hh. cbn. lia.
Qed.

Section Prefetching.
Context {W : Type} {B : Bindings W}.
Variable l0 : list Event.

Lemma async_fetch_loop_calm (fuel : nat) (conn : Z) :
  forall (buffer : option Uint8Array) (env : Env W),
    Calm l0 (log env) ->
    Calm l0 (log (snd (Async.fetch_loop fuel conn buffer env))).
Proof.
  induction fuel as [|fuel IH]; intros [b|] env Hcalm; try exact Hcalm.
  rewrite async_fetch_loop_step.
  destruct (fetchQueryResults conn (world env)) as [[buffer|e] w']; cbv zeta.
  - apply IH. cbn [log]. now apply calm_round.
  - cbn [snd log]. now apply calm_round.
Qed.

Lemma async_poll_loop_calm (fuel : nat) (conn : Z) :
  forall (header : option Uint8Array) (env : Env W),
    Calm l0 (log env) ->
    Calm l0 (log (snd (Async.poll_loop fuel conn header env))).
Proof.
  induction fuel as [|fuel IH]; intros [h|] env Hcalm; try exact Hcalm.
  rewrite async_poll_loop_step.
  assert (Hround : forall r,
             Calm l0 (log env ++ [Detached false;
                                  Issue (List.length (log env) + 1) (PollPendingQuery conn);
                                  Settle (List.length (log env) + 1) r])).
  { intros r.
    change (log env ++ [Detached false;
                        Issue (List.length (log env) + 1) (PollPendingQuery conn);
                        Settle (List.length (log env) + 1) r])
      with (log env ++ [Detached false]
              ++ [Issue (List.length (log env) + 1) (PollPendingQuery conn);
                  Settle (List.length (log env) + 1) r]).
    rewrite app_assoc.
    replace (List.length (log env) + 1) with (List.length (log env ++ [Detached false]))
      by (rewrite length_app; reflexivity).
    apply calm_round. now apply calm_other. }
  destruct (isDetached (world env)) as [[|] w1].
  - cbn [snd log].
    change (log env ++ [Detached true; ConsoleError worker_not_set])
      with (log env ++ [Detached true] ++ [ConsoleError worker_not_set]).
    rewrite app_assoc. apply calm_other; [|reflexivity|reflexivity].
    now apply calm_other.
  - destruct (pollPendingQuery conn w1) as [[header|e] w2]; cbv zeta.
    + apply IH. cbn [log]. apply Hround.
    + cbn [snd log]. apply Hround.
Qed.

(** [send] leaves no request outstanding. *)
Lemma async_send_calm (this : Async.AsyncDuckDBConnection) text allow fuel (env : Env W) :
  Calm l0 (log env) ->
  Calm l0 (log (snd (Async.send this text allow fuel env))).
Proof.
  intros Hcalm. unfold Async.send.
  unfold bind at 1. unfold logger_log. unfold bind at 1.
  destruct (respond (StartPendingQuery (Async._conn this) text (default_param false allow))
              (world (record (LoggerLog text) env))) as [r w'] eqn:Hs.
  rewrite (request_await_eq _ _ r w' Hs).
  assert (Hc1 : Calm l0 (log (record (LoggerLog text) env)
                           ++ [Issue (List.length (log (record (LoggerLog text) env)))
                                 (StartPendingQuery (Async._conn this) text
                                    (default_param false allow));
                               Settle (List.length (log (record (LoggerLog text) env))) r])).
  { apply calm_round. unfold record; cbn [log]. now apply calm_other. }
  destruct r as [header|e]; cbn [complete]; [|exact Hc1].
  unfold bind.
  match goal with |- context [Async.poll_loop fuel ?c header ?e] =>
    pose proof (async_poll_loop_calm fuel c header e Hc1) as Hc2;
    destruct (Async.poll_loop fuel c header e) as [[[h|]|x|] env'] end;
    exact Hc2.
Qed.

Lemma async_send_prepared_calm (this : Async.AsyncPreparedStatement) params (env : Env W) :
  Calm l0 (log env) ->
  Calm l0 (log (snd (Async.send_prepared this params env))).
Proof.
  intros Hcalm. unfold Async.send_prepared, bind, await_sendPrepared.
  destruct (sendPrepared _ _ params (world env)) as [[h|e] w']; cbn [complete snd log ret];
    now apply calm_round.
Qed.

Lemma async_next_rest_good fuel (it : Async.AsyncResultStreamIterator)
  buffer (env : Env W) c s' :
  Async._inFlight it = None ->
  Calm l0 (log env) ->
  async_next_rest fuel it buffer env = (c, s') ->
  Good l0 s'
  /\ Async.conn (fst s') = Async.conn it
  /\ Async._first (fst s') = Async._first it
  /\ forall r, c = Returned r -> done r = false ->
       exists p d,
         Async._inFlight (fst s') = Some p
         /\ outstanding (log (snd s')) = [ticket p]
         /\ log (snd s') = log env ++ d ++ [Issue (ticket p) (FetchQueryResults (Async.conn it))].
Proof.
  intros Hnone Hcalm. unfold async_next_rest.
  pose proof (async_fetch_loop_calm fuel (Async.conn it) buffer env Hcalm) as Hc2.
  destruct (async_fetch_loop_run (Async.conn it) fuel buffer env) as (d & Hlog & _).
  destruct (Async.fetch_loop fuel (Async.conn it) buffer env) as [[b|e|] env2];
    cbn [snd] in Hc2, Hlog.
  - destruct (List.length b =? 0)%nat eqn:Hlen.
    + intros H; inversion H; subst. cbn [fst snd]. split; [|split; [|split]].
      * destruct Hc2 as (Ht & Hq & Ho). split; [assumption|]. split; [assumption|].
        unfold Holding. cbn. rewrite Hnone. exact Ho.
      * reflexivity.
      * reflexivity.
      * intros r Hr Hdone. inversion Hr; subst. discriminate Hdone.
    + cbv zeta. destruct (fetchQueryResults (Async.conn it) (world env2)) as [rf w2].
      intros H; inversion H; subst. cbn [fst snd log].
      destruct (calm_issue l0 (log env2) Hc2 (FetchQueryResults (Async.conn it)))
        as (Ht & Hq & Ho).
      cbv zeta in Ht, Hq, Ho. split; [|split; [|split]].
      * split; [assumption|]. split; [assumption|].
        unfold Holding. cbn [Async._inFlight Async.set_inFlight ticket fst snd log].
        rewrite Ho, length_app. cbn [List.length]. split; [lia|].
        intros t [Ht'|[]]. now symmetry.
      * reflexivity.
      * reflexivity.
      * intros r Hr Hdone. eexists _, d. cbn [Async._inFlight Async.set_inFlight ticket].
        split; [reflexivity|]. split; [exact Ho|].
        rewrite Hlog, <- app_assoc. reflexivity.
  - intros H; inversion H; subst. cbn [fst snd]. split; [|split; [|split]].
    + destruct Hc2 as (Ht & Hq & Ho). split; [assumption|]. split; [assumption|].
      unfold Holding. cbn [fst snd]. rewrite Hnone. exact Ho.
    + reflexivity.
    + reflexivity.
    + intros r Hr. discriminate Hr.
  - intros H; inversion H; subst. cbn [fst snd]. split; [|split; [|split]].
    + destruct Hc2 as (Ht & Hq & Ho). split; [assumption|]. split; [assumption|].
      unfold Holding. cbn [fst snd]. rewrite Hnone. exact Ho.
    + reflexivity.
    + reflexivity.
    + intros r Hr. discriminate Hr.
Qed.

(** One [next()] call keeps the invariant, and a call that returns a chunk
    after the header has posted the next fetch before it returns. *)
Lemma async_next_good fuel (s : Async.AsyncResultStreamIterator * Env W) c s' :
  Good l0 s ->
  Async.next fuel s = (c, s') ->
  Good l0 s'
  /\ Async.conn (fst s') = Async.conn (fst s)
  /\ Async._first (fst s') = false
  /\ (Async._first (fst s) = false ->
      forall r, c = Returned r -> done r = false ->
        exists p d,
          Async._inFlight (fst s') = Some p
          /\ outstanding (log (snd s')) = [ticket p]
          /\ log (snd s')
             = log (snd s) ++ d ++ [Issue (ticket p) (FetchQueryResults (Async.conn (fst s)))]).
Proof.
  destruct s as [it env]. intros (Ht & Hq & Hh). cbn [fst snd] in *.
  rewrite async_next_eq.
  destruct (Async._first it) eqn:Hf.
  { intros H; inversion H; subst. cbn [fst snd]. split; [|split; [|split]];
      try reflexivity; [|discriminate].
    split; [assumption|]. split; assumption. }
  destruct (Async._depleted it) eqn:Hd.
  { intros H; inversion H; subst. cbn [fst snd]. split; [|split; [|split]];
      try reflexivity; try assumption.
    - split; [assumption|]. split; assumption.
    - intros _ r Hr Hdone. inversion Hr; subst. discriminate Hdone. }
  unfold Holding in Hh. destruct (Async._inFlight it) as [p|] eqn:Hp.
  - destruct Hh as (Hlt & Hall). cbv zeta.
    assert (Hc1 : Calm l0 (log (record (Settle (ticket p) (settles p)) env))).
    { unfold record; cbn [log]. now apply calm_await. }
    destruct (settles p) as [buffer|e] eqn:Hsp.
    + intros H. apply async_next_rest_good in H; [|reflexivity|exact Hc1].
      destruct H as (Hgood & Hconn & Hfirst & Hissued).
      split; [assumption|]. split; [exact Hconn|]. split; [rewrite Hfirst; exact Hf|].
      intros _ r Hr Hdone. destruct (Hissued r Hr Hdone) as (p' & d & Hin & Ho & Hlog).
      exists p', (Settle (ticket p) (Answer buffer) :: d).
      split; [assumption|]. split; [assumption|].
      rewrite Hlog. unfold record; cbn [log Async.conn Async.set_inFlight].
      now rewrite <- app_assoc.
    + intros H; inversion H; subst. cbn [fst snd]. split; [|split; [|split]];
        try reflexivity; try assumption; [|discriminate].
      destruct Hc1 as (Ht1 & Hq1 & Ho1). split; [assumption|]. split; [assumption|].
      unfold Holding. cbn [fst snd]. rewrite Hp, Ho1.
      unfold record; cbn [log]. rewrite length_app.
      split; [lia|]. intros t [].
  - intros H. apply async_next_rest_good in H; [|exact Hp|now split].
    destruct H as (Hgood & Hconn & Hfirst & Hissued).
    split; [assumption|]. split; [exact Hconn|]. split; [rewrite Hfirst; exact Hf|].
    intros _ r Hr Hdone. exact (Hissued r Hr Hdone).
Qed.

Lemma async_nexts_good (fuels : list nat) :
  forall (s : Async.AsyncResultStreamIterator * Env W) cs s',
    Good l0 s ->
    nexts Async.next fuels s = (cs, s') ->
    Good l0 s'
    /\ Async.conn (fst s') = Async.conn (fst s)
    /\ (fuels <> [] -> Async._first (fst s') = false).
Proof.
  induction fuels as [|fuel fuels IH]; intros s cs s' Hgood; cbn [nexts].
  - intros H; inversion H; subst. split; [assumption|]. split; [reflexivity|congruence].
  - destruct (Async.next fuel s) as [c s1] eqn:Hnext.
    destruct (nexts Async.next fuels s1) as [cs' s2] eqn:Hrest.
    intros H; inversion H; subst.
    destruct (async_next_good fuel s c s1 Hgood Hnext) as (Hg1 & Hc1 & Hf1 & _).
    destruct (IH s1 cs' s' Hg1 Hrest) as (Hg2 & Hc2 & Hf2).
    split; [assumption|]. split; [congruence|]. intros _.
    destruct fuels as [|f fuels'].
    + cbn [nexts] in Hrest. inversion Hrest; subst. exact Hf1.
    + apply Hf2. discriminate.
Qed.

End Prefetching.

(** C4. In the prefetching variant, along any sequence of [next()] calls on
    an iterator created where no request is outstanding, at every point of
    the log at most one request is outstanding; and whenever a call after
    the header returns a chunk with [done = false], the fetch for the
    following chunk has been posted before the call returns: it is the last
    event recorded and the one request outstanding, held by the iterator. *)
Theorem at_most_one_fetch_outstanding :
  forall (W : Type) (B : Bindings W) (conn : Z) (header : Uint8Array) (env : Env W)
         (fuels : list nat) (cs : list (Completion IteratorResult))
         (s' : Async.AsyncResultStreamIterator * Env W),
    ticketed (log env) ->
    outstanding (log env) = [] ->
    nexts Async.next fuels (Async.new_AsyncResultStreamIterator conn header, env) = (cs, s') ->
    (forall d1 d2,
        log (snd s') = log env ++ d1 ++ d2 ->
        List.length (outstanding (log env ++ d1)) <= 1)
    /\
    (forall fuel r s'',
        fuels <> [] ->
        Async.next fuel s' = (Returned r, s'') ->
        done r = false ->
        (exists p d,
            Async._inFlight (fst s'') = Some p
            /\ outstanding (log (snd s'')) = [ticket p]
            /\ log (snd s'')
               = log (snd s') ++ d ++ [Issue (ticket p) (FetchQueryResults conn)])
        /\ forall d1 d2,
            log (snd s'') = log env ++ d1 ++ d2 ->
            List.length (outstanding (log env ++ d1)) <= 1).
Proof.
  intros W B conn header env fuels cs s' Ht Ho Hrun.
  assert (Hgood0 : Good (log env) (Async.new_AsyncResultStreamIterator conn header, env)).
  { unfold Good. cbn [fst snd]. split; [assumption|]. split; [|exact Ho].
    apply Quiet_start. rewrite Ho. cbn. lia. }
  destruct (async_nexts_good (log env) fuels _ cs s' Hgood0 Hrun) as (Hgood & Hconn & Hfirst).
  cbn [fst Async.conn Async.new_AsyncResultStreamIterator] in Hconn.
  split.
  - apply Quiet_every_point. apply Hgood.
  - intros fuel r s'' Hne Hnext Hdone.
    destruct (async_next_good (log env) fuel s' (Returned r) s'' Hgood Hnext)
      as (Hgood' & _ & _ & Hissued).
    split.
    + rewrite <- Hconn. exact (Hissued (Hfirst Hne) r eq_refl Hdone).
    + apply Quiet_every_point. apply Hgood'.
Qed.

Lemma at_most_one_fetch_outstanding_witness :
  List.length (outstanding (log (snd (snd header_call)))) <= 1
  /\ exists p d,
      Async._inFlight (fst (snd chunk_call)) = Some p
      /\ outstanding (log (snd (snd chunk_call))) = [ticket p]
      /\ log (snd (snd chunk_call))
         = log (snd (snd header_call)) ++ d ++ [Issue (ticket p) (FetchQueryResults 1)].
Proof.
  assert (Ht : ticketed (log (start_env scenarioA))).
  { split; [constructor|intros t []]. }
  destruct (at_most_one_fetch_outstanding Script Scripted 1 (bytes 10) (start_env scenarioA)
              [1] [fst header_call] (snd header_call) Ht eq_refl eq_refl) as [H1 H2].
  split.
  - exact (H1 (log (snd (snd header_call))) [] eq_refl).
  - assert (Hne : [1] <> []) by discriminate.
    exact (proj1 (H2 1 {| done := false; value := Some (bytes 20) |} (snd chunk_call)
                    Hne eq_refl eq_refl)).
Defined.


(** * Further properties of the drivers *)

(** ** Errors while the header is negotiated *)

(** The detachment checks recorded. *)
Definition checks (l : list Event) : nat :=
  List.length (filter (fun ev => match ev with Detached _ => true | _ => false end) l).

Lemma checks_app l1 l2 : checks (l1 ++ l2) = checks l1 + checks l2.
Proof. unfold checks. now rewrite filter_app, length_app. Qed.

Lemma waiting_checks conn pos n : checks (waiting conn pos n) = n.
Proof.
  revert pos; induction n as [|n IH]; intros pos; [reflexivity|].
  change (waiting conn pos (S n))
    with ([Detached false; Issue (pos + 1) (PollPendingQuery conn);
           Settle (pos + 1) (Answer None)] ++ waiting conn (pos + 3) n).
  rewrite checks_app, IH. reflexivity.
Qed.

Lemma sync_poll_polls conn r n : polls (repeat (Sync (PollPendingQuery conn) r) n) = n.
Proof.
  induction n as [|n IH]; [reflexivity|].
  change (repeat ?x (S n)) with ([x] ++ repeat x n).
  rewrite polls_app, IH. reflexivity.
Qed.

Lemma waiting_no_fault conn pos n t e : ~ In (Settle t (Fault e)) (waiting conn pos n).
Proof.
  revert pos; induction n as [|n IH]; intros pos; cbn; [tauto|].
  intros [H|[H|[H|H]]]; try discriminate. now apply IH in H.
Qed.

(** X1. In direct mode an error thrown by [startPendingQuery] ends [send]
    at once: the very error is thrown, whatever its message, after that one
    call; nothing is polled and nothing is written to the console. *)
Theorem blocking_send_start_error :
  forall (W : Type) (B : Bindings W) (this : Blocking.DuckDBConnection)
         (text : string) (allow : option bool) (fuel : nat) (env : Env W)
         (e : Thrown) (w' : W),
    startPendingQuery (Blocking._conn this) text (default_param false allow) (world env)
    = (Fault e, w') ->
    Blocking.send this text allow fuel env
    = (Threw e,
       {| world := w';
          log := log env
                   ++ [Sync (StartPendingQuery (Blocking._conn this) text
                               (default_param false allow)) (Fault e)] |}).
Proof.
  intros W B this text allow fuel env e w' Hs.
  unfold Blocking.send. unfold bind at 1.
  rewrite (call_eq (StartPendingQuery (Blocking._conn this) text (default_param false allow))
             env (Fault e) w' Hs).
  reflexivity.
Qed.

Definition start_refused : Script :=
  {| on_start := [Fault (new_Error "Parser Error: the worker is not set!")];
     on_poll := [Answer (Some (bytes 10))]; on_fetch := [];
     on_prepared := []; on_detached := [] |}.

Lemma blocking_send_start_error_witness :
  fst (Blocking.send {| Blocking._conn := 1 |} "selec 1" None 3 (start_env start_refused))
  = Threw (new_Error "Parser Error: the worker is not set!").
Proof.
  exact (f_equal fst
           (blocking_send_start_error Script Scripted {| Blocking._conn := 1 |}
              "selec 1" None 3 (start_env start_refused)
              (new_Error "Parser Error: the worker is not set!") _ eq_refl)).
Defined.

(** X2. In suspending mode [send] rethrows the rejection of any request it
    awaits, [startPendingQuery] or a poll, as it is (no "link terminated"
    error is substituted), and does nothing after it: the await of the
    rejected request is the last event of the call. *)
Theorem async_send_rejection_unchanged :
  forall (W : Type) (B : Bindings W) (this : Async.AsyncDuckDBConnection)
         (text : string) (allow : option bool) (fuel : nat) (env : Env W)
         (t : nat) (e : Thrown),
    In (Settle t (Fault e)) (since env (snd (Async.send this text allow fuel env))) ->
    fst (Async.send this text allow fuel env) = Threw e
    /\ exists d, since env (snd (Async.send this text allow fuel env))
                 = d ++ [Settle t (Fault e)].
Proof.
  intros W B this text allow fuel env t e.
  destruct (async_send_run this text allow fuel env) as (r & d & Hlog & Hres).
  cbv zeta in Hlog, Hres.
  destruct (Async.send this text allow fuel env) as [c [w' l']].
  cbn [fst snd log] in *. subst l'. rewrite since_app.
  set (pos := List.length (log env)) in *.
  set (conn := Async._conn this) in *.
  intros [H|[H|H]]; try discriminate.
  destruct r as [header|e0].
  - destruct H as [H|H]; [discriminate|].
    destruct c as [[|it]|x|].
    + destruct Hres as (_ & n & _ & Hd); subst d.
      apply in_app_or in H. destruct H as [H|[H|[H|[]]]]; try discriminate.
      now apply waiting_no_fault in H.
    + destruct Hres as (h & _ & [[_ Hd]|[_ (n & _ & Hd)]]); subst d; [destruct H|].
      apply in_app_or in H. destruct H as [H|[H|[H|[H|[]]]]]; try discriminate.
      now apply waiting_no_fault in H.
    + destruct Hres as (_ & n & _ & Hd); subst d.
      apply in_app_or in H. destruct H as [H|[H|[H|[H|[]]]]]; try discriminate.
      * now apply waiting_no_fault in H.
      * inversion H; subst. split; [reflexivity|].
        exists (LoggerLog text
                  :: Issue (pos + 1) (StartPendingQuery conn text (default_param false allow))
                  :: Settle (pos + 1) (Answer header)
                  :: waiting conn (pos + 3) n
                       ++ [Detached false;
                           Issue (pos + 3 + 3 * n + 1) (PollPendingQuery conn)]).
        cbn [app]. rewrite <- app_assoc. reflexivity.
    + destruct Hres as (_ & Hd); subst d. now apply waiting_no_fault in H.
  - destruct Hres as (Hc & Hd); subst d. cbn in Hc.
    destruct H as [H|[]]. inversion H; subst.
    split; [reflexivity|].
    exists [LoggerLog text;
            Issue (pos + 1) (StartPendingQuery conn text (default_param false allow))].
    reflexivity.
Qed.

Definition poll_refused : Script :=
  {| on_start := [Answer None];
     on_poll := [Answer None;
                 Fault (new_Error "cannot send a message since the worker is not set!")];
     on_fetch := []; on_prepared := []; on_detached := [] |}.

Lemma async_send_rejection_unchanged_witness :
  fst (Async.send {| Async._conn := 1 |} "select 1" None 5 (start_env poll_refused))
  = Threw (new_Error "cannot send a message since the worker is not set!").
Proof.
  refine (proj1 (async_send_rejection_unchanged Script Scripted {| Async._conn := 1 |}
                   "select 1" None 5 (start_env poll_refused) 7
                   (new_Error "cannot send a message since the worker is not set!") _)).
  vm_compute. do 8 right. left. reflexivity.
Defined.

(** ** How long [send] polls *)

(** X3. When [send] returns an iterator, the replies it received were [n]
    times [null] and then the header the iterator carries, and it polled
    exactly [n] times: not at all when [startPendingQuery] answers the
    header itself. In suspending mode it checked [isDetached()] once for
    each poll. *)
Theorem send_polls_once_per_null :
  forall (W : Type) (B : Bindings W) (conn : Z) (text : string) (allow : option bool)
         (fuel : nat) (env : Env W),
    (forall it env',
        Blocking.send {| Blocking._conn := conn |} text allow fuel env = (Returned it, env') ->
        exists n h,
          it = Blocking.new_ResultStreamIterator conn h
          /\ replies (since env env') = repeat (Answer None) n ++ [Answer (Some h)]
          /\ polls (since env env') = n)
    /\
    (forall it env',
        Async.send {| Async._conn := conn |} text allow fuel env
        = (Returned (Async.Iterator it), env') ->
        exists n h,
          it = Async.new_AsyncResultStreamIterator conn h
          /\ replies (since env env') = repeat (Answer None) n ++ [Answer (Some h)]
          /\ polls (since env env') = n
          /\ checks (since env env') = n).
Proof.
  intros W B conn text allow fuel env. split.
  - intros it env' Hrun.
    destruct (blocking_send_run {| Blocking._conn := conn |} text allow fuel env)
      as (r & d & Hlog & Hres).
    cbv zeta in Hlog, Hres. rewrite Hrun in Hlog, Hres. cbn [fst snd Blocking._conn] in *.
    destruct env' as [w' l']. cbn [log] in Hlog. subst l'. rewrite since_app.
    destruct r as [header|e]; [|destruct Hres; discriminate].
    destruct Hres as (h & Hit & [[Hh Hd]|[Hh (n & _ & Hd)]]); subst.
    + exists 0, h. repeat split.
    + exists (S n), h. split; [reflexivity|].
      change (?a :: ?l) with ([a] ++ l).
      rewrite !replies_app, !polls_app, sync_calls_replies, sync_poll_polls.
      split; [reflexivity|]. cbn. lia.
  - intros it env' Hrun.
    destruct (async_send_run {| Async._conn := conn |} text allow fuel env)
      as (r & d & Hlog & Hres).
    cbv zeta in Hlog, Hres. rewrite Hrun in Hlog, Hres. cbn [fst snd Async._conn] in *.
    destruct env' as [w' l']. cbn [log] in Hlog. subst l'. rewrite since_app.
    destruct r as [header|e]; [|destruct Hres; discriminate].
    destruct Hres as (h & Hit & [[Hh Hd]|[Hh (n & _ & Hd)]]); subst.
    + exists 0, h. repeat split.
    + exists (S n), h. split; [reflexivity|].
      change (?a :: ?b :: ?c :: ?l) with ([a; b; c] ++ l).
      rewrite !replies_app, !polls_app, !checks_app,
        waiting_replies, waiting_polls, waiting_checks.
      repeat split; cbn; lia.
Qed.

(** Is every poll request in [l] directly preceded by a detachment check
    that answered [false]? [prev] is the event before [l]. *)
Fixpoint polls_guarded (prev : option Event) (l : list Event) : bool :=
  match l with
  | [] => true
  | ev :: l' =>
      match ev with
      | Issue _ (PollPendingQuery _) =>
          match prev with
          | Some (Detached false) => polls_guarded (Some ev) l'
          | _ => false
          end
      | _ => polls_guarded (Some ev) l'
      end
  end.

Lemma polls_guarded_waiting conn n :
  forall pos prev tail,
    (forall prev', polls_guarded prev' tail = true) ->
    polls_guarded prev (waiting conn pos n ++ tail) = true.
Proof.
  induction n as [|n IH]; intros pos prev tail Htail; cbn [waiting app].
  - apply Htail.
  - cbn [polls_guarded]. now apply IH.
Qed.

(** X4. In suspending mode [send] never polls without having just checked
    the link: every [pollPendingQuery] request it records comes directly
    after an [isDetached()] that answered [false]. *)
Theorem async_send_polls_guarded :
  forall (W : Type) (B : Bindings W) (this : Async.AsyncDuckDBConnection)
         (text : string) (allow : option bool) (fuel : nat) (env : Env W),
    polls_guarded None (since env (snd (Async.send this text allow fuel env))) = true.
Proof.
  intros W B this text allow fuel env.
  destruct (async_send_run this text allow fuel env) as (r & d & Hlog & Hres).
  cbv zeta in Hlog, Hres.
  destruct (Async.send this text allow fuel env) as [c [w' l']].
  cbn [fst snd log] in *. subst l'. rewrite since_app.
  cbn [polls_guarded].
  destruct r as [header|e].
  - destruct c as [[|it]|x|].
    + destruct Hres as (_ & n & _ & Hd); subst d.
      apply polls_guarded_waiting. reflexivity.
    + destruct Hres as (h & _ & [[_ Hd]|[_ (n & _ & Hd)]]); subst d; [reflexivity|].
      apply polls_guarded_waiting. reflexivity.
    + destruct Hres as (_ & n & _ & Hd); subst d.
      apply polls_guarded_waiting. reflexivity.
    + destruct Hres as (_ & Hd); subst d.
      rewrite <- (app_nil_r (waiting _ _ _)).
      apply polls_guarded_waiting. reflexivity.
  - destruct Hres as (_ & Hd); subst d. reflexivity.
Qed.

Lemma send_polls_once_per_null_witness :
  exists n h,
    Blocking.new_ResultStreamIterator 1 (bytes 10) = Blocking.new_ResultStreamIterator 1 h
    /\ replies (since (start_env scenarioB)
                  (snd (Blocking.send {| Blocking._conn := 1 |} "select 1" None 2
                          (start_env scenarioB))))
       = repeat (Answer None) n ++ [Answer (Some h)]
    /\ polls (since (start_env scenarioB)
                (snd (Blocking.send {| Blocking._conn := 1 |} "select 1" None 2
                        (start_env scenarioB)))) = n.
Proof.
  exact (proj1 (send_polls_once_per_null Script Scripted 1 "select 1" None 2
                  (start_env scenarioB))
           (Blocking.new_ResultStreamIterator 1 (bytes 10))
           (snd (Blocking.send {| Blocking._conn := 1 |} "select 1" None 2
                   (start_env scenarioB)))
           eq_refl).
Defined.

(** ** Waiting without bound *)

Section Spinning.
Context {W : Type} {B : Bindings W}.
Variable conn : Z.

(** A set of worlds in which the operation answers [null] and stays. *)
Definition stays_absent (op : W -> Reply (option Uint8Array) * W) (I : W -> Prop) : Prop :=
  forall w, I w -> exists w', op w = (Answer None, w') /\ I w'.

Lemma blocking_poll_loop_spins (I : W -> Prop) :
  stays_absent (pollPendingQuery conn) I ->
  forall (fuel : nat) (env : Env W),
    I (world env) ->
    exists w',
      I w' /\
      Blocking.poll_loop fuel conn None env
      = (Spinning,
         {| world := w';
            log := log env ++ repeat (Sync (PollPendingQuery conn) (Answer None)) fuel |}).
Proof.
  intros Hstay. induction fuel as [|fuel IH]; intros env HI.
  - exists (world env). split; [assumption|]. cbn. rewrite app_nil_r. now destruct env.
  - destruct (Hstay _ HI) as (w1 & Hp & HI1).
    cbn [Blocking.poll_loop]. unfold bind.
    rewrite (poll_promise_eq conn env (Answer None) w1 Hp).
    destruct (IH {| world := w1;
                    log := log env ++ [Sync (PollPendingQuery conn) (Answer None)] |} HI1)
      as (w' & HI' & Hloop).
    rewrite Hloop. exists w'. split; [assumption|].
    cbn [log repeat]. rewrite <- app_assoc. reflexivity.
Qed.

Lemma blocking_fetch_loop_spins (I : W -> Prop) :
  stays_absent (fetchQueryResults conn) I ->
  forall (fuel : nat) (env : Env W),
    I (world env) ->
    exists w',
      I w' /\
      Blocking.fetch_loop fuel conn env
      = (Spinning,
         {| world := w';
            log := log env ++ repeat (Sync (FetchQueryResults conn) (Answer None)) fuel |}).
Proof.
  intros Hstay. induction fuel as [|fuel IH]; intros env HI.
  - exists (world env). split; [assumption|]. cbn. rewrite app_nil_r. now destruct env.
  - destruct (Hstay _ HI) as (w1 & Hf & HI1).
    rewrite blocking_fetch_loop_step, Hf. cbv zeta.
    destruct (IH {| world := w1;
                    log := log env ++ [Sync (FetchQueryResults conn) (Answer None)] |} HI1)
      as (w' & HI' & Hloop).
    rewrite Hloop. exists w'. split; [assumption|].
    cbn [log repeat]. rewrite <- app_assoc. reflexivity.
Qed.

End Spinning.

(** X5. The direct-mode [send] has no way out of its polling loop but a
    header or an error: while the bindings keep answering [null] it keeps
    polling, whatever the bound on the iterations. With [startPendingQuery]
    answering [null] into worlds where the poll answers [null] and stays,
    every bound [fuel] is exhausted, after exactly [fuel] polls. *)
Theorem blocking_send_polls_without_bound :
  forall (W : Type) (B : Bindings W) (I : W -> Prop) (this : Blocking.DuckDBConnection)
         (text : string) (allow : option bool) (env : Env W) (w1 : W),
    startPendingQuery (Blocking._conn this) text (default_param false allow) (world env)
    = (Answer None, w1) ->
    I w1 ->
    stays_absent (pollPendingQuery (Blocking._conn this)) I ->
    forall fuel,
      fst (Blocking.send this text allow fuel env) = Spinning
      /\ polls (since env (snd (Blocking.send this text allow fuel env))) = fuel.
Proof.
  intros W B I this text allow env w1 Hs HI Hstay fuel.
  unfold Blocking.send. unfold bind at 1. unfold bind at 2.
  rewrite (call_eq (StartPendingQuery (Blocking._conn this) text (default_param false allow))
             env (Answer None) w1 Hs).
  cbn [complete]. unfold bind.
  destruct (blocking_poll_loop_spins (Blocking._conn this) I Hstay fuel
              {| world := w1;
                 log := log env ++ [Sync (StartPendingQuery (Blocking._conn this) text
                                            (default_param false allow)) (Answer None)] |} HI)
    as (w' & _ & Hloop).
  rewrite Hloop. cbn [fst snd log]. split; [reflexivity|].
  rewrite <- app_assoc, since_app. cbn [app].
  change (?a :: ?l) with ([a] ++ l). rewrite polls_app, sync_poll_polls. reflexivity.
Qed.

Lemma exhausted_polls_stay_absent :
  stays_absent (pollPendingQuery (W := Script) 1) (fun s => on_poll s = []).
Proof.
  intros s Hs. cbn. rewrite Hs. cbn. eexists. split; reflexivity.
Defined.

Lemma blocking_send_polls_without_bound_witness :
  fst (Blocking.send {| Blocking._conn := 1 |} "select 1" None 7 (start_env script0)) = Spinning
  /\ polls (since (start_env script0)
              (snd (Blocking.send {| Blocking._conn := 1 |} "select 1" None 7
                      (start_env script0)))) = 7.
Proof.
  exact (blocking_send_polls_without_bound Script Scripted (fun s => on_poll s = [])
           {| Blocking._conn := 1 |} "select 1" None (start_env script0) script0
           eq_refl eq_refl exhausted_polls_stay_absent 7).
Defined.

(** X6. So has the direct-mode [next()]: on an iterator past its header and
    not depleted, while [fetchQueryResults] keeps answering [null] the call
    keeps fetching; every bound [fuel] is exhausted after exactly [fuel]
    fetches, and the iterator is left as it was. *)
Theorem blocking_next_fetches_without_bound :
  forall (W : Type) (B : Bindings W) (I : W -> Prop)
         (it : Blocking.ResultStreamIterator) (env : Env W),
    Blocking._first it = false -> Blocking._depleted it = false ->
    I (world env) ->
    stays_absent (fetchQueryResults (Blocking.conn it)) I ->
    forall fuel,
      fst (Blocking.next fuel (it, env)) = Spinning
      /\ fst (snd (Blocking.next fuel (it, env))) = it
      /\ fetches (since env (snd (snd (Blocking.next fuel (it, env))))) = fuel.
Proof.
  intros W B I it env Hf Hd HI Hstay fuel.
  rewrite blocking_next_eq, Hf, Hd.
  destruct (blocking_fetch_loop_spins (Blocking.conn it) I Hstay fuel env HI)
    as (w' & _ & Hloop).
  rewrite Hloop. cbn [fst snd]. split; [reflexivity|]. split; [reflexivity|].
  rewrite since_app. apply sync_absent_fetches.
Qed.

Lemma exhausted_fetches_stay_absent :
  stays_absent (fetchQueryResults (W := Script) 1) (fun s => on_fetch s = []).
Proof.
  intros s Hs. cbn. rewrite Hs. cbn. eexists. split; reflexivity.
Defined.

Lemma blocking_next_fetches_without_bound_witness :
  fst (Blocking.next 7 (Blocking.set_first false (Blocking.new_ResultStreamIterator 1 (bytes 10)),
                        start_env script0)) = Spinning.
Proof.
  exact (proj1 (blocking_next_fetches_without_bound Script Scripted (fun s => on_fetch s = [])
                  (Blocking.set_first false (Blocking.new_ResultStreamIterator 1 (bytes 10)))
                  (start_env script0) eq_refl eq_refl eq_refl
                  exhausted_fetches_stay_absent 7)).
Defined.

(** ** Errors while fetching *)

Lemma sync_absent_no_fault conn n e tail :
  In (Sync (FetchQueryResults conn) (Fault e))
     (repeat (Sync (FetchQueryResults conn) (Answer None)) n ++ tail) ->
  In (Sync (FetchQueryResults conn) (Fault e)) tail.
Proof.
  rewrite in_app_iff. intros [H|H]; [|assumption].
  apply repeat_spec in H. discriminate H.
Qed.

Lemma asking_no_fault conn pos n t e : ~ In (Settle t (Fault e)) (asking conn pos n).
Proof.
  revert pos; induction n as [|n IH]; intros pos; cbn; [tauto|].
  intros [H|[H|H]]; try discriminate. now apply IH in H.
Qed.

Section NextRuns.
Context {W : Type} {B : Bindings W}.

(** Every run of the part of the suspending-mode [next()] that follows the
    await of the in-flight promise. *)
Lemma async_next_rest_run fuel (it : Async.AsyncResultStreamIterator)
  (buffer : option Uint8Array) (env : Env W) :
  let conn := Async.conn it in
  let pos := List.length (log env) in
  let run := async_next_rest fuel it buffer env in
  exists d,
    log (snd (snd run)) = log env ++ d
    /\ Async.conn (fst (snd run)) = conn
    /\ match fst run with
       | Returned r =>
           exists b dl,
             r = {| done := (List.length b =? 0)%nat; value := Some b |}
             /\ d = dl ++ (if (List.length b =? 0)%nat then []
                           else [Issue (pos + List.length dl) (FetchQueryResults conn)])
             /\ ((buffer = Some b /\ dl = [])
                 \/ (buffer = None /\ exists n,
                        n < fuel
                        /\ dl = asking conn pos n
                                  ++ [Issue (pos + 2 * n) (FetchQueryResults conn);
                                      Settle (pos + 2 * n) (Answer (Some b))]))
       | Threw e =>
           fst (snd run) = it /\ buffer = None /\ exists n,
             n < fuel
             /\ d = asking conn pos n
                      ++ [Issue (pos + 2 * n) (FetchQueryResults conn);
                          Settle (pos + 2 * n) (Fault e)]
       | Spinning => fst (snd run) = it /\ buffer = None /\ d = asking conn pos fuel
       end.
Proof.
  intros conn pos run.
  assert (Hrun : run = async_next_rest fuel it buffer env) by reflexivity.
  clearbody run. unfold async_next_rest in Hrun. fold conn in Hrun.
  destruct (async_fetch_loop_run conn fuel buffer env) as (dl & Hlog & Hres).
  cbv zeta in Hres. fold pos in Hres.
  destruct (Async.fetch_loop fuel conn buffer env) as [[b|e|] [w2 l2]];
    cbn [fst snd log] in *; subst l2.
  - destruct (List.length b =? 0)%nat eqn:Hlen.
    + subst run. cbn [fst snd log]. exists dl.
      split; [reflexivity|]. split; [reflexivity|].
      exists b, dl. rewrite Hlen, app_nil_r. split; [reflexivity|]. split; [reflexivity|].
      exact Hres.
    + cbv zeta in Hrun. cbn [world log] in Hrun.
      destruct (fetchQueryResults conn w2) as [rf w3]. subst run. cbn [fst snd log].
      exists (dl ++ [Issue (List.length (log env ++ dl)) (FetchQueryResults conn)]).
      rewrite app_assoc. split; [reflexivity|]. split; [reflexivity|].
      exists b, dl. rewrite Hlen, length_app. fold pos.
      split; [reflexivity|]. split; [reflexivity|]. exact Hres.
  - subst run. cbn [fst snd log]. exists dl.
    split; [reflexivity|]. split; [reflexivity|]. split; [reflexivity|]. exact Hres.
  - subst run. cbn [fst snd log]. exists dl.
    split; [reflexivity|]. split; [reflexivity|]. split; [reflexivity|]. exact Hres.
Qed.

End NextRuns.

(** X7. In direct mode, when [fetchQueryResults] throws inside [next()],
    the call throws that very error and leaves the iterator as it was, not
    depleted: a later call fetches again. *)
Theorem blocking_next_fetch_error :
  forall (W : Type) (B : Bindings W) (fuel : nat)
         (it : Blocking.ResultStreamIterator) (env : Env W) (e : Thrown),
    Blocking._first it = false -> Blocking._depleted it = false ->
    In (Sync (FetchQueryResults (Blocking.conn it)) (Fault e))
       (since env (snd (snd (Blocking.next fuel (it, env))))) ->
    fst (Blocking.next fuel (it, env)) = Threw e
    /\ fst (snd (Blocking.next fuel (it, env))) = it.
Proof.
  intros W B fuel it env e Hf Hd. rewrite blocking_next_eq, Hf, Hd.
  destruct (blocking_fetch_loop_run (Blocking.conn it) fuel env) as (d & Hlog & Hres).
  destruct (Blocking.fetch_loop fuel (Blocking.conn it) env) as [[b|x|] [w' l']];
    cbn [fst snd log] in *; subst l'; rewrite since_app; intros H.
  - destruct Hres as (n & _ & Hdd); subst d.
    apply sync_absent_no_fault in H. destruct H as [H|[]]. discriminate.
  - destruct Hres as (n & _ & Hdd); subst d.
    apply sync_absent_no_fault in H. destruct H as [H|[]]. inversion H; subst.
    split; reflexivity.
  - subst d. rewrite <- (app_nil_r (repeat _ fuel)) in H.
    apply sync_absent_no_fault in H. destruct H.
Qed.

Definition fetch_refused : Script :=
  {| on_start := []; on_poll := [];
     on_fetch := [Answer None; Fault (new_Error "Out of Memory Error")];
     on_prepared := []; on_detached := [] |}.

Lemma blocking_next_fetch_error_witness :
  fst (Blocking.next 5 (Blocking.set_first false (Blocking.new_ResultStreamIterator 1 (bytes 10)),
                        start_env fetch_refused))
  = Threw (new_Error "Out of Memory Error").
Proof.
  refine (proj1 (blocking_next_fetch_error Script Scripted 5
                   (Blocking.set_first false (Blocking.new_ResultStreamIterator 1 (bytes 10)))
                   (start_env fetch_refused) (new_Error "Out of Memory Error")
                   eq_refl eq_refl _)).
  vm_compute. right. left. reflexivity.
Defined.

(** X8. In the prefetching variant a rejected prefetch is never cleared:
    [next()] awaits the in-flight promise before it resets the placeholder,
    so once the held promise is rejected, every later [next()] call throws
    that same error again, fetches nothing and leaves the iterator and the
    bindings as they were. *)
Theorem async_next_rejected_prefetch_sticks :
  forall (W : Type) (B : Bindings W) (fuels : list nat)
         (it : Async.AsyncResultStreamIterator) (env : Env W) (p : Promise) (e : Thrown),
    Async._first it = false -> Async._depleted it = false ->
    Async._inFlight it = Some p -> settles p = Fault e ->
    nexts Async.next fuels (it, env)
    = (map (fun _ => Threw e) fuels,
       (it, {| world := world env;
               log := log env ++ repeat (Settle (ticket p) (Fault e)) (List.length fuels) |})).
Proof.
  intros W B fuels it env p e Hf Hd Hp Hs. revert env.
  induction fuels as [|fuel fuels IH]; intros env.
  - cbn. rewrite app_nil_r. now destruct env.
  - cbn [nexts map List.length repeat].
    rewrite async_next_eq, Hf, Hd, Hp. cbv zeta. rewrite Hs.
    rewrite IH. unfold record; cbn [world log]. rewrite <- app_assoc. reflexivity.
Qed.

Definition prefetch_refused : Script :=
  {| on_start := []; on_poll := [];
     on_fetch := [Answer (Some (bytes 20)); Fault (new_Error "Out of Memory Error")];
     on_prepared := []; on_detached := [] |}.

(** The iterator after the header and the first chunk of [prefetch_refused]:
    its prefetch was rejected. *)
Definition after_refused_prefetch : Async.AsyncResultStreamIterator * Env Script :=
  snd (Async.next 1
         (Async.set_first false (Async.new_AsyncResultStreamIterator 1 (bytes 10)),
          start_env prefetch_refused)).

Lemma async_next_rejected_prefetch_sticks_witness :
  fst (nexts Async.next [1; 1; 1] after_refused_prefetch)
  = [Threw (new_Error "Out of Memory Error");
     Threw (new_Error "Out of Memory Error");
     Threw (new_Error "Out of Memory Error")].
Proof.
  exact (f_equal fst
           (async_next_rejected_prefetch_sticks Script Scripted [1; 1; 1]
              (fst after_refused_prefetch) (snd after_refused_prefetch)
              {| ticket := 2; settles := Fault (new_Error "Out of Memory Error") |}
              (new_Error "Out of Memory Error") eq_refl eq_refl eq_refl eq_refl)).
Defined.

(** X9. In the prefetching variant an error thrown by a fetch of the retry
    loop (not by the held prefetch) is thrown as it is and leaves the
    placeholder [null] and the iterator not depleted, so that a later call
    fetches again. *)
Theorem async_next_loop_error :
  forall (W : Type) (B : Bindings W) (fuel : nat)
         (it : Async.AsyncResultStreamIterator) (env : Env W) (t : nat) (e : Thrown),
    Async._first it = false -> Async._depleted it = false ->
    pending it = [] \/ pending it = [Answer None] ->
    In (Settle t (Fault e)) (since env (snd (snd (Async.next fuel (it, env))))) ->
    fst (Async.next fuel (it, env)) = Threw e
    /\ fst (snd (Async.next fuel (it, env))) = Async.set_inFlight None it.
Proof.
  intros W B fuel it env t e Hf Hd Hpend. rewrite async_next_eq, Hf, Hd.
  assert (Hrest : forall it1 buffer env1 d0,
             log env1 = log env ++ d0 -> ~ In (Settle t (Fault e)) d0 ->
             In (Settle t (Fault e)) (since env (snd (snd (async_next_rest fuel it1 buffer env1)))) ->
             fst (async_next_rest fuel it1 buffer env1) = Threw e
             /\ fst (snd (async_next_rest fuel it1 buffer env1)) = it1).
  { intros it1 buffer env1 d0 Hlog0 Hd0.
    destruct (async_next_rest_run fuel it1 buffer env1) as (d & Hlog & _ & Hres).
    cbv zeta in Hlog, Hres.
    destruct (async_next_rest fuel it1 buffer env1) as [c [it' [w' l']]].
    cbn [fst snd log] in *. subst l'. rewrite Hlog0, <- app_assoc, since_app.
    intros H. apply in_app_or in H. destruct H as [H|H]; [contradiction|].
    destruct c as [r|x|].
    - destruct Hres as (b & dl & _ & Hdd & Hshape). subst d.
      apply in_app_or in H. destruct H as [H|H].
      + destruct Hshape as [[_ Hdl]|[_ (n & _ & Hdl)]]; subst dl; [destruct H|].
        apply in_app_or in H. destruct H as [H|[H|[H|[]]]]; try discriminate.
        now apply asking_no_fault in H.
      + destruct (List.length b =? 0)%nat; [destruct H|].
        destruct H as [H|[]]. discriminate.
    - destruct Hres as (Hit & _ & n & _ & Hdd). subst d.
      apply in_app_or in H. destruct H as [H|[H|[H|[]]]]; try discriminate.
      + now apply asking_no_fault in H.
      + inversion H; subst. split; reflexivity.
    - destruct Hres as (_ & _ & Hdd). subst d. now apply asking_no_fault in H. }
  unfold pending in Hpend. destruct (Async._inFlight it) as [p|] eqn:Hp.
  - destruct Hpend as [Hpend|Hpend]; [discriminate|]. injection Hpend as Hs.
    cbv zeta. rewrite Hs. apply (Hrest _ _ _ [Settle (ticket p) (Answer None)]).
    + reflexivity.
    + intros [H|[]]. discriminate.
  - intros H. destruct (Hrest it None env []) as (Hc & Hit).
    + now rewrite app_nil_r.
    + intros [].
    + exact H.
    + split; [assumption|]. rewrite Hit. destruct it. cbn in Hp. now subst.
Qed.

Lemma async_next_loop_error_witness :
  fst (Async.next 5 (Async.set_first false (Async.new_AsyncResultStreamIterator 1 (bytes 10)),
                     start_env fetch_refused))
  = Threw (new_Error "Out of Memory Error").
Proof.
  refine (proj1 (async_next_loop_error Script Scripted 5
                   (Async.set_first false (Async.new_AsyncResultStreamIterator 1 (bytes 10)))
                   (start_env fetch_refused) 2 (new_Error "Out of Memory Error")
                   eq_refl eq_refl (or_introl eq_refl) _)).
  vm_compute. do 3 right. left. reflexivity.
Defined.

(** ** What the prefetch buys *)

(** X10. In the prefetching variant, when the held prefetch has resolved
    to a buffer, [next()] returns that buffer without fetching first,
    whatever the bound on its retry loop: it awaits the held promise, and
    the only request it posts is the prefetch of the following chunk (none
    if the buffer is the empty one). *)
Theorem async_next_returns_prefetched :
  forall (W : Type) (B : Bindings W) (fuel : nat)
         (it : Async.AsyncResultStreamIterator) (env : Env W) (p : Promise) (b : Uint8Array),
    Async._first it = false -> Async._depleted it = false ->
    Async._inFlight it = Some p -> settles p = Answer (Some b) ->
    fst (Async.next fuel (it, env))
    = Returned {| done := (List.length b =? 0)%nat; value := Some b |}
    /\ since env (snd (snd (Async.next fuel (it, env))))
       = Settle (ticket p) (Answer (Some b))
           :: (if (List.length b =? 0)%nat then []
               else [Issue (List.length (log env) + 1) (FetchQueryResults (Async.conn it))]).
Proof.
  intros W B fuel it env p b Hf Hd Hp Hs.
  rewrite async_next_eq, Hf, Hd, Hp. cbv zeta. rewrite Hs.
  unfold async_next_rest. rewrite async_fetch_loop_ready.
  cbn [Async.conn Async.set_inFlight].
  destruct (List.length b =? 0)%nat.
  - cbn [fst snd]. split; [reflexivity|]. unfold record. now rewrite since_app.
  - cbv zeta. destruct (fetchQueryResults _ _) as [r w']. cbn [fst snd].
    split; [reflexivity|]. unfold record; cbn [log].
    rewrite <- app_assoc, since_app, length_app. reflexivity.
Qed.

Definition two_chunks : Script :=
  {| on_start := []; on_poll := [];
     on_fetch := [Answer (Some (bytes 20)); Answer (Some (bytes 30)); Answer (Some [])];
     on_prepared := []; on_detached := [] |}.

(** The iterator after the header and the first chunk of [two_chunks]: it
    holds the prefetch of the second chunk. *)
Definition holding_second_chunk : Async.AsyncResultStreamIterator * Env Script :=
  snd (Async.next 1
         (Async.set_first false (Async.new_AsyncResultStreamIterator 1 (bytes 10)),
          start_env two_chunks)).

Lemma async_next_returns_prefetched_witness :
  fst (Async.next 0 holding_second_chunk)
  = Returned {| done := false; value := Some (bytes 30) |}.
Proof.
  exact (proj1 (async_next_returns_prefetched Script Scripted 0
                  (fst holding_second_chunk) (snd holding_second_chunk)
                  {| ticket := 2; settles := Answer (Some (bytes 30)) |} (bytes 30)
                  eq_refl eq_refl eq_refl eq_refl)).
Defined.

(** X11. Draining consumes exactly the stream, in both variants: when the
    fetches are answered by [chunks] and then the empty buffer, draining a
    fresh iterator leaves the bindings in the world reached by those answers
    and the iterator depleted; the prefetching variant does not fetch past
    the empty buffer. In direct mode that is one fetch per answer. *)
Theorem drain_consumes_exactly_the_stream :
  forall (W : Type) (B : Bindings W) (fuel n : nat) (conn : Z) (header : Uint8Array)
         (chunks : list (option Uint8Array)) (env : Env W) (w' : W),
    Forall (fun c => c <> Some []) chunks ->
    Fetches conn (world env) (map Answer chunks ++ [sentinel]) w' ->
    List.length chunks < fuel ->
    List.length chunks + 2 <= n ->
    let sb := snd (drain Blocking.next n fuel (Blocking.new_ResultStreamIterator conn header, env)) in
    let sa := snd (drain Async.next n fuel (Async.new_AsyncResultStreamIterator conn header, env)) in
    world (snd sb) = w' /\ world (snd sa) = w'
    /\ Blocking._depleted (fst sb) = true /\ Async._depleted (fst sa) = true
    /\ fetches (since env (snd sb)) = List.length chunks + 1.
Proof.
  intros W B fuel n conn header chunks env w' Hne HF Hfuel Hn sb sa. subst sb sa.
  rewrite (blocking_drain_fresh fuel n conn header chunks env w' Hne HF Hfuel Hn).
  destruct (async_drain_fresh fuel n conn header chunks env w' Hne HF Hfuel Hn)
    as (it' & env' & Hdrain & _ & Hd & Hw).
  rewrite Hdrain. cbn [fst snd world]. rewrite since_app.
  repeat split; try assumption.
  rewrite <- (length_map Answer chunks).
  replace (List.length (map Answer chunks) + 1)
    with (List.length (map Answer chunks ++ [sentinel]))
    by (rewrite length_app; reflexivity).
  generalize (map Answer chunks ++ [sentinel]). intros l.
  induction l as [|r l IH]; [reflexivity|].
  cbn [map]. change (?a :: ?l) with ([a] ++ l) at 1. rewrite fetches_app, IH. reflexivity.
Qed.

Lemma drain_consumes_exactly_the_stream_witness :
  world (snd (snd (drain Blocking.next 4 3 (Blocking.new_ResultStreamIterator 1 (bytes 10),
                                            start_env two_chunks)))) = script0
  /\ world (snd (snd (drain Async.next 4 3 (Async.new_AsyncResultStreamIterator 1 (bytes 10),
                                            start_env two_chunks)))) = script0.
Proof.
  assert (Hne : Forall (fun c : option Uint8Array => c <> Some [])
                  [Some (bytes 20); Some (bytes 30)]).
  { repeat (constructor; [discriminate|]). constructor. }
  assert (HF : Fetches 1 (world (start_env two_chunks))
                 (map Answer [Some (bytes 20); Some (bytes 30)] ++ [sentinel]) script0).
  { repeat (econstructor; [reflexivity|]). constructor. }
  pose proof (drain_consumes_exactly_the_stream Script Scripted 3 4 1 (bytes 10)
                [Some (bytes 20); Some (bytes 30)] (start_env two_chunks) script0
                Hne HF (le_n 3) (le_n 4)) as H.
  exact (conj (proj1 H) (proj1 (proj2 H))).
Defined.

(** ** What [done] means *)

Section DoneFlag.
Context {W : Type} {B : Bindings W}.

Lemma blocking_next_done fuel (s s' : Blocking.ResultStreamIterator * Env W) r :
  Blocking.next fuel s = (Returned r, s') ->
  match value r with
  | None => done r = true /\ Blocking._depleted (fst s) = true
  | Some b =>
      (Blocking._first (fst s) = true /\ done r = false /\ b = Blocking.header (fst s))
      \/ (Blocking._first (fst s) = false /\ done r = (List.length b =? 0)%nat)
  end.
Proof.
  destruct s as [it env]. cbn [fst].
  destruct (Blocking._first it) eqn:Hf.
  { rewrite blocking_next_eq, Hf. intros H; inversion H; subst. cbn. left. auto. }
  destruct (Blocking._depleted it) eqn:Hd.
  { rewrite blocking_next_eq, Hf, Hd. intros H; inversion H; subst. cbn. auto. }
  intros H. destruct (blocking_next_returned fuel it env r s' Hf Hd H)
    as (n & b & _ & Hr & _).
  subst r. cbn. right. auto.
Qed.

Lemma async_next_done fuel (s s' : Async.AsyncResultStreamIterator * Env W) r :
  Async.next fuel s = (Returned r, s') ->
  match value r with
  | None => done r = true /\ Async._depleted (fst s) = true
  | Some b =>
      (Async._first (fst s) = true /\ done r = false /\ b = Async.header (fst s))
      \/ (Async._first (fst s) = false /\ done r = (List.length b =? 0)%nat)
  end.
Proof.
  destruct s as [it env]. cbn [fst].
  destruct (Async._first it) eqn:Hf.
  { rewrite async_next_eq, Hf. intros H; inversion H; subst. cbn. left. auto. }
  destruct (Async._depleted it) eqn:Hd.
  { rewrite async_next_eq, Hf, Hd. intros H; inversion H; subst. cbn. auto. }
  intros H. destruct (async_next_returned fuel it env r s' Hf Hd H)
    as (n & b & _ & Hr & _).
  subst r. cbn. right. auto.
Qed.

End DoneFlag.

(** X12. What a returned [{done, value}] tells, in both variants: [value]
    is [null] only on an iterator that was already depleted; the header is
    handed out with [done = false] even when it is empty; and any other
    buffer comes with [done = true] exactly when its length is zero. *)
Theorem next_done_iff_empty_buffer :
  forall (W : Type) (B : Bindings W) (fuel : nat) (r : IteratorResult),
    (forall (s s' : Blocking.ResultStreamIterator * Env W),
        Blocking.next fuel s = (Returned r, s') ->
        match value r with
        | None => done r = true /\ Blocking._depleted (fst s) = true
        | Some b =>
            (Blocking._first (fst s) = true /\ done r = false /\ b = Blocking.header (fst s))
            \/ (Blocking._first (fst s) = false /\ done r = (List.length b =? 0)%nat)
        end)
    /\
    (forall (s s' : Async.AsyncResultStreamIterator * Env W),
        Async.next fuel s = (Returned r, s') ->
        match value r with
        | None => done r = true /\ Async._depleted (fst s) = true
        | Some b =>
            (Async._first (fst s) = true /\ done r = false /\ b = Async.header (fst s))
            \/ (Async._first (fst s) = false /\ done r = (List.length b =? 0)%nat)
        end).
Proof.
  intros W B fuel r. split; intros s s'.
  - apply blocking_next_done.
  - apply async_next_done.
Qed.

(** An empty header does not end the stream. *)
Lemma next_done_iff_empty_buffer_witness :
  (Blocking._first (Blocking.new_ResultStreamIterator 1 []) = true
   /\ done {| done := false; value := Some [] |} = false
   /\ [] = Blocking.header (Blocking.new_ResultStreamIterator 1 []))
  \/ (Blocking._first (Blocking.new_ResultStreamIterator 1 []) = false
      /\ done {| done := false; value := Some [] |} = (List.length (@nil Byte.byte) =? 0)%nat).
Proof.
  exact (proj1 (next_done_iff_empty_buffer Script Scripted 1
                  {| done := false; value := Some [] |})
           (Blocking.new_ResultStreamIterator 1 [], start_env two_chunks)
           (Blocking.set_first false (Blocking.new_ResultStreamIterator 1 []),
            start_env two_chunks)
           eq_refl).
Defined.

(** ** What [next()] calls *)

(** Is the event a [fetchQueryResults] on [conn], or the await of a request? *)
Definition fetch_on (conn : Z) (ev : Event) : bool :=
  match ev with
  | Sync (FetchQueryResults c) _ => (c =? conn)%Z
  | Issue _ (FetchQueryResults c) => (c =? conn)%Z
  | Settle _ _ => true
  | _ => false
  end.

Lemma fetch_on_sync_repeat conn r n :
  forallb (fetch_on conn) (repeat (Sync (FetchQueryResults conn) r) n) = true.
Proof.
  induction n as [|n IH]; [reflexivity|]. cbn [repeat forallb fetch_on].
  now rewrite Z.eqb_refl.
Qed.

Lemma fetch_on_asking conn pos n : forallb (fetch_on conn) (asking conn pos n) = true.
Proof.
  revert pos; induction n as [|n IH]; intros pos; [reflexivity|].
  cbn [asking forallb fetch_on]. now rewrite Z.eqb_refl, IH.
Qed.

Section OnlyFetches.
Variables (S : Type) (next : nat -> M S IteratorResult)
          (conn_of : S -> Z) (log_of : S -> list Event) (conn : Z).

Hypothesis next_only_fetches :
  forall fuel s c s',
    conn_of s = conn ->
    next fuel s = (c, s') ->
    conn_of s' = conn
    /\ exists d, log_of s' = log_of s ++ d /\ forallb (fetch_on conn) d = true.

Lemma nexts_only_fetch (fuels : list nat) :
  forall s cs s',
    conn_of s = conn ->
    nexts next fuels s = (cs, s') ->
    conn_of s' = conn
    /\ exists d, log_of s' = log_of s ++ d /\ forallb (fetch_on conn) d = true.
Proof.
  induction fuels as [|fuel fuels IH]; intros s cs s' Hc; cbn [nexts].
  - intros H; injection H as <- <-. split; [assumption|].
    exists []. now rewrite app_nil_r.
  - destruct (next fuel s) as [c s1] eqn:Hnext.
    destruct (nexts next fuels s1) as [cs' s2] eqn:Hrest.
    intros H; injection H as <- <-.
    destruct (next_only_fetches fuel s c s1 Hc Hnext) as (Hc1 & d1 & Hlog1 & Hd1).
    destruct (IH s1 cs' s2 Hc1 Hrest) as (Hc2 & d2 & Hlog2 & Hd2).
    split; [assumption|]. exists (d1 ++ d2).
    split; [rewrite Hlog2, Hlog1, app_assoc; reflexivity|].
    rewrite forallb_app, Hd1, Hd2. reflexivity.
Qed.

End OnlyFetches.

Section OnlyFetchesSteps.
Context {W : Type} {B : Bindings W}.

Lemma blocking_next_only_fetches conn fuel
  (s : Blocking.ResultStreamIterator * Env W) c s' :
  Blocking.conn (fst s) = conn ->
  Blocking.next fuel s = (c, s') ->
  Blocking.conn (fst s') = conn
  /\ exists d, log (snd s') = log (snd s) ++ d /\ forallb (fetch_on conn) d = true.
Proof.
  destruct s as [it env]. cbn [fst snd]. intros Hc. rewrite blocking_next_eq.
  destruct (Blocking._first it).
  { intros H; inversion H; subst. split; [reflexivity|]. exists []. now rewrite app_nil_r. }
  destruct (Blocking._depleted it).
  { intros H; inversion H; subst. split; [reflexivity|]. exists []. now rewrite app_nil_r. }
  destruct (blocking_fetch_loop_run (Blocking.conn it) fuel env) as (d & Hlog & Hres).
  destruct (Blocking.fetch_loop fuel (Blocking.conn it) env) as [[b|e|] env'];
    cbn [fst snd] in *; intros H; inversion H; subst c s'; cbn [fst snd];
    (split; [exact Hc|]); exists d; (split; [assumption|]).
  - destruct Hres as (n & _ & Hd). subst d.
    rewrite forallb_app, Hc, fetch_on_sync_repeat. cbn. now rewrite Z.eqb_refl.
  - destruct Hres as (n & _ & Hd). subst d.
    rewrite forallb_app, Hc, fetch_on_sync_repeat. cbn. now rewrite Z.eqb_refl.
  - subst d. rewrite Hc. apply fetch_on_sync_repeat.
Qed.

Lemma async_next_rest_only_fetches conn fuel (it : Async.AsyncResultStreamIterator)
  buffer (env : Env W) :
  Async.conn it = conn ->
  Async.conn (fst (snd (async_next_rest fuel it buffer env))) = conn
  /\ exists d,
      log (snd (snd (async_next_rest fuel it buffer env))) = log env ++ d
      /\ forallb (fetch_on conn) d = true.
Proof.
  intros Hc.
  destruct (async_next_rest_run fuel it buffer env) as (d & Hlog & Hconn & Hres).
  cbv zeta in Hlog, Hconn, Hres. rewrite Hc in *.
  split; [assumption|]. exists d. split; [assumption|].
  destruct (fst (async_next_rest fuel it buffer env)) as [r|e|].
  - destruct Hres as (b & dl & _ & Hd & Hshape). subst d.
    rewrite forallb_app.
    assert (Hdl : forallb (fetch_on conn) dl = true).
    { destruct Hshape as [[_ Hdl]|[_ (n & _ & Hdl)]]; subst dl; [reflexivity|].
      rewrite forallb_app, fetch_on_asking. cbn. now rewrite Z.eqb_refl. }
    rewrite Hdl. destruct (List.length b =? 0)%nat; cbn; [reflexivity|].
    now rewrite Z.eqb_refl.
  - destruct Hres as (_ & _ & n & _ & Hd). subst d.
    rewrite forallb_app, fetch_on_asking. cbn. now rewrite Z.eqb_refl.
  - destruct Hres as (_ & _ & Hd). subst d. apply fetch_on_asking.
Qed.

Lemma async_next_only_fetches conn fuel
  (s : Async.AsyncResultStreamIterator * Env W) c s' :
  Async.conn (fst s) = conn ->
  Async.next fuel s = (c, s') ->
  Async.conn (fst s') = conn
  /\ exists d, log (snd s') = log (snd s) ++ d /\ forallb (fetch_on conn) d = true.
Proof.
  destruct s as [it env]. cbn [fst snd]. intros Hc. rewrite async_next_eq.
  destruct (Async._first it).
  { intros H; inversion H; subst. split; [reflexivity|]. exists []. now rewrite app_nil_r. }
  destruct (Async._depleted it).
  { intros H; inversion H; subst. split; [reflexivity|]. exists []. now rewrite app_nil_r. }
  destruct (Async._inFlight it) as [p|].
  - cbv zeta. destruct (settles p) as [buffer|e].
    + destruct (async_next_rest_only_fetches conn fuel (Async.set_inFlight None it) buffer
                  (record (Settle (ticket p) (Answer buffer)) env) Hc)
        as (Hconn & d & Hlog & Hd).
      intros H. rewrite H in Hconn, Hlog. cbn [fst snd] in Hconn, Hlog.
      split; [assumption|]. exists (Settle (ticket p) (Answer buffer) :: d).
      split; [rewrite Hlog; unfold record; cbn [log]; now rewrite <- app_assoc|].
      cbn [forallb fetch_on]. exact Hd.
    + intros H; inversion H; subst. split; [reflexivity|].
      exists [Settle (ticket p) (Fault e)]. split; reflexivity.
  - destruct (async_next_rest_only_fetches conn fuel it None env Hc)
      as (Hconn & d & Hlog & Hd).
    intros H. rewrite H in Hconn, Hlog. cbn [fst snd] in Hconn, Hlog.
    split; [assumption|]. exists d. split; assumption.
Qed.

End OnlyFetchesSteps.

(** X13. Whatever the bindings answer, a sequence of [next()] calls on an
    iterator created on connection [conn] does nothing to the outside but
    call [fetchQueryResults(conn)] and await its requests: it starts and
    polls no query, checks no detachment, fetches on no other connection
    and writes nothing to the logger or the console; and the iterator stays
    on [conn]. In both variants. *)
Theorem nexts_only_fetch_own_connection :
  forall (W : Type) (B : Bindings W) (conn : Z) (header : Uint8Array)
         (fuels : list nat) (env : Env W),
    let sb := snd (nexts Blocking.next fuels (Blocking.new_ResultStreamIterator conn header, env)) in
    let sa := snd (nexts Async.next fuels (Async.new_AsyncResultStreamIterator conn header, env)) in
    forallb (fetch_on conn) (since env (snd sb)) = true
    /\ Blocking.conn (fst sb) = conn
    /\ forallb (fetch_on conn) (since env (snd sa)) = true
    /\ Async.conn (fst sa) = conn.
Proof.
  intros W B conn header fuels env sb sa.
  destruct (nexts Blocking.next fuels (Blocking.new_ResultStreamIterator conn header, env))
    as [csb sb'] eqn:Hb.
  destruct (nexts Async.next fuels (Async.new_AsyncResultStreamIterator conn header, env))
    as [csa sa'] eqn:Ha.
  subst sb sa. cbn [snd].
  destruct (nexts_only_fetch _ Blocking.next (fun s => Blocking.conn (fst s))
              (fun s => log (snd s)) conn (blocking_next_only_fetches conn)
              fuels (Blocking.new_ResultStreamIterator conn header, env) csb sb' eq_refl Hb)
    as (Hcb & db & Hlb & Hdb).
  destruct (nexts_only_fetch _ Async.next (fun s => Async.conn (fst s))
              (fun s => log (snd s)) conn (async_next_only_fetches conn)
              fuels (Async.new_AsyncResultStreamIterator conn header, env) csa sa' eq_refl Ha)
    as (Hca & da & Hla & Hda).
  cbn [fst snd] in *.
  destruct sb' as [itb [wb lb]], sa' as [ita [wa la]]. cbn [fst snd log] in *.
  subst lb la. rewrite !since_app. auto.
Qed.

(** ** From [send] to the end of the stream *)

(** X14. In suspending mode, from a log with nothing outstanding: when
    [send] returns its iterator nothing is outstanding, and from the start
    of [send] through any sequence of [next()] calls on that iterator no
    point of the log has more than one request outstanding: the polls of
    [send] and the fetches of [next()] never overlap. *)
Theorem async_session_one_request_at_a_time :
  forall (W : Type) (B : Bindings W) (this : Async.AsyncDuckDBConnection)
         (text : string) (allow : option bool) (fuel : nat) (env0 env : Env W)
         (it : Async.AsyncResultStreamIterator) (fuels : list nat)
         (cs : list (Completion IteratorResult))
         (s' : Async.AsyncResultStreamIterator * Env W),
    ticketed (log env0) ->
    outstanding (log env0) = [] ->
    Async.send this text allow fuel env0 = (Returned (Async.Iterator it), env) ->
    nexts Async.next fuels (it, env) = (cs, s') ->
    outstanding (log env) = []
    /\ forall d1 d2,
        log (snd s') = log env0 ++ d1 ++ d2 ->
        List.length (outstanding (log env0 ++ d1)) <= 1.
Proof.
  intros W B this text allow fuel env0 env it fuels cs s' Ht Ho Hsend Hnexts.
  assert (Hcalm0 : Calm (log env0) (log env0)).
  { split; [assumption|]. split; [|assumption].
    apply Quiet_start. rewrite Ho. cbn. lia. }
  pose proof (async_send_calm (log env0) this text allow fuel env0 Hcalm0) as Hcalm.
  rewrite Hsend in Hcalm. cbn [snd] in Hcalm.
  destruct (async_send_fresh this text allow fuel env0 env it Hsend) as (h & _ & Hit & _).
  destruct Hcalm as (Ht1 & Hq1 & Ho1).
  split; [assumption|].
  assert (Hgood : Good (log env0) (it, env)).
  { unfold Good, Holding. subst it. cbn [fst snd Async._inFlight Async.new_AsyncResultStreamIterator].
    auto. }
  destruct (async_nexts_good (log env0) fuels (it, env) cs s' Hgood Hnexts) as (Hgood' & _).
  apply Quiet_every_point. apply Hgood'.
Qed.

Lemma async_session_one_request_at_a_time_witness :
  outstanding (log (snd (Async.send {| Async._conn := 1 |} "select 1" None 2
                           (start_env scenarioB)))) = [].
Proof.
  assert (Ht : ticketed (log (start_env scenarioB))).
  { split; [constructor|intros t []]. }
  exact (proj1 (async_session_one_request_at_a_time Script Scripted {| Async._conn := 1 |}
                  "select 1" None 2 (start_env scenarioB)
                  (snd (Async.send {| Async._conn := 1 |} "select 1" None 2
                          (start_env scenarioB)))
                  (Async.new_AsyncResultStreamIterator 1 (bytes 10)) [1; 1]
                  _ _ Ht eq_refl eq_refl eq_refl)).
Defined.

(** ** Logging *)

(** The values written to the logger. *)
Definition logged (l : list Event) : list string :=
  flat_map (fun ev => match ev with LoggerLog v => [v] | _ => [] end) l.

Lemma logged_app l1 l2 : logged (l1 ++ l2) = logged l1 ++ logged l2.
Proof. apply flat_map_app. Qed.

Lemma logged_waiting conn pos n : logged (waiting conn pos n) = [].
Proof.
  revert pos; induction n as [|n IH]; intros pos; [reflexivity|].
  cbn [waiting]. exact (IH (pos + 3)).
Qed.

Lemma logged_sync_repeat c r n : logged (repeat (Sync c r) n) = [].
Proof. induction n as [|n IH]; [reflexivity|]. exact IH. Qed.

(** X15. The suspending-mode [send] writes the query text to the logger
    once, before it does anything else, whatever follows; the direct-mode
    [send] writes nothing to the logger. *)
Theorem send_logs_query_once :
  forall (W : Type) (B : Bindings W) (conn : Z) (text : string) (allow : option bool)
         (fuel : nat) (env : Env W),
    (exists d, since env (snd (Async.send {| Async._conn := conn |} text allow fuel env))
               = LoggerLog text :: d
               /\ logged d = [])
    /\ logged (since env (snd (Blocking.send {| Blocking._conn := conn |} text allow fuel env)))
       = [].
Proof.
  intros W B conn text allow fuel env. split.
  - destruct (async_send_run {| Async._conn := conn |} text allow fuel env)
      as (r & d & Hlog & Hres).
    cbv zeta in Hlog, Hres.
    destruct (Async.send {| Async._conn := conn |} text allow fuel env) as [c [w' l']].
    cbn [fst snd log] in *. subst l'. rewrite since_app.
    eexists. split; [reflexivity|].
    change (logged (?a :: ?b :: ?l)) with (logged [a; b] ++ logged l). cbn [logged flat_map app].
    destruct r as [header|e].
    + destruct c as [[|it]|x|].
      * destruct Hres as (_ & n & _ & Hd); subst d.
        now rewrite logged_app, logged_waiting.
      * destruct Hres as (h & _ & [[_ Hd]|[_ (n & _ & Hd)]]); subst d; [reflexivity|].
        now rewrite logged_app, logged_waiting.
      * destruct Hres as (_ & n & _ & Hd); subst d.
        now rewrite logged_app, logged_waiting.
      * destruct Hres as (_ & Hd); subst d. apply logged_waiting.
    + destruct Hres as (_ & Hd); subst d. reflexivity.
  - destruct (blocking_send_run {| Blocking._conn := conn |} text allow fuel env)
      as (r & d & Hlog & Hres).
    cbv zeta in Hlog, Hres.
    destruct (Blocking.send {| Blocking._conn := conn |} text allow fuel env) as [c [w' l']].
    cbn [fst snd log] in *. subst l'. rewrite since_app.
    change (logged (?a :: ?l)) with (logged [a] ++ logged l). cbn [logged flat_map app].
    destruct r as [header|e].
    + destruct c as [it|x|].
      * destruct Hres as (h & _ & [[_ Hd]|[_ (n & _ & Hd)]]); subst d; [reflexivity|].
        now rewrite logged_app, logged_sync_repeat.
      * destruct Hres as (_ & n & e & _ & Hd & _); subst d.
        now rewrite logged_app, logged_sync_repeat.
      * destruct Hres as (_ & Hd); subst d. apply logged_sync_repeat.
    + destruct Hres as (_ & Hd); subst d. reflexivity.
Qed.

(** ** The detachment check is the only other way out *)

Section AsyncSpinning.
Context {W : Type} {B : Bindings W}.
Variable conn : Z.

(** A set of worlds in which the link is attached, the poll answers [null],
    and both stay so. *)
Definition stays_waiting (I : W -> Prop) : Prop :=
  forall w, I w ->
    exists w1 w2,
      isDetached w = (false, w1)
      /\ pollPendingQuery conn w1 = (Answer None, w2)
      /\ I w2.

Lemma async_poll_loop_spins (I : W -> Prop) :
  stays_waiting I ->
  forall (fuel : nat) (env : Env W),
    I (world env) ->
    exists w',
      I w' /\
      Async.poll_loop fuel conn None env
      = (Spinning,
         {| world := w'; log := log env ++ waiting conn (List.length (log env)) fuel |}).
Proof.
  intros Hstay. induction fuel as [|fuel IH]; intros env HI.
  - exists (world env). split; [assumption|]. cbn. rewrite app_nil_r. now destruct env.
  - destruct (Hstay _ HI) as (w1 & w2 & Hd & Hp & HI2).
    rewrite async_poll_loop_step, Hd, Hp. cbv zeta.
    destruct (IH {| world := w2;
                    log := log env ++ [Detached false;
                                       Issue (List.length (log env) + 1) (PollPendingQuery conn);
                                       Settle (List.length (log env) + 1) (Answer None)] |} HI2)
      as (w' & HI' & Hloop).
    rewrite Hloop. exists w'. split; [assumption|].
    cbn [log]. rewrite length_app. cbn [List.length waiting].
    rewrite <- app_assoc. reflexivity.
Qed.

End AsyncSpinning.

(** X16. The suspending-mode [send] leaves its polling loop on a header, an
    error or a detached link only: while the link stays attached and the
    poll keeps answering [null], every bound [fuel] on the iterations is
    exhausted, after exactly [fuel] polls, each behind its own check. *)
Theorem async_send_polls_while_attached :
  forall (W : Type) (B : Bindings W) (I : W -> Prop) (this : Async.AsyncDuckDBConnection)
         (text : string) (allow : option bool) (env : Env W) (w1 : W),
    startPendingQuery (Async._conn this) text (default_param false allow) (world env)
    = (Answer None, w1) ->
    I w1 ->
    stays_waiting (Async._conn this) I ->
    forall fuel,
      fst (Async.send this text allow fuel env) = Spinning
      /\ polls (since env (snd (Async.send this text allow fuel env))) = fuel
      /\ checks (since env (snd (Async.send this text allow fuel env))) = fuel.
Proof.
  intros W B I this text allow env w1 Hs HI Hstay fuel.
  assert (Hrun : exists w' pos,
             Async.send this text allow fuel env
             = (Spinning,
                {| world := w';
                   log := (log env
                             ++ [LoggerLog text;
                                 Issue (List.length (log env) + 1)
                                   (StartPendingQuery (Async._conn this) text
                                      (default_param false allow));
                                 Settle (List.length (log env) + 1) (Answer None)])
                            ++ waiting (Async._conn this) pos fuel |})).
  { unfold Async.send. unfold bind at 1. unfold logger_log. unfold bind at 1.
    rewrite (request_await_eq
               (StartPendingQuery (Async._conn this) text (default_param false allow))
               (record (LoggerLog text) env) (Answer None) w1 Hs).
    cbn [complete]. unfold bind.
    match goal with |- context [Async.poll_loop fuel _ None ?e] =>
      destruct (async_poll_loop_spins (Async._conn this) I Hstay fuel e HI)
        as (w' & _ & Hloop); rewrite Hloop end.
    unfold record; cbn [log]. rewrite length_app; cbn [List.length].
    rewrite <- !app_assoc. cbn [app].
    eexists _, _. rewrite <- app_assoc. reflexivity. }
  destruct Hrun as (w' & pos & Hrun). rewrite Hrun. cbn [fst snd].
  rewrite <- app_assoc, since_app, polls_app, checks_app, waiting_polls, waiting_checks.
  repeat split.
Qed.

Lemma exhausted_scripts_stay_waiting :
  stays_waiting (W := Script) 1 (fun s => on_poll s = [] /\ on_detached s = []).
Proof.
  intros s [Hp Hd]. cbn. rewrite Hp, Hd. cbn. eexists _, _. repeat split.
Defined.

Lemma async_send_polls_while_attached_witness :
  fst (Async.send {| Async._conn := 1 |} "select 1" None 7 (start_env script0)) = Spinning.
Proof.
  exact (proj1 (async_send_polls_while_attached Script Scripted
                  (fun s => on_poll s = [] /\ on_detached s = [])
                  {| Async._conn := 1 |} "select 1" None (start_env script0) script0
                  eq_refl (conj eq_refl eq_refl) exhausted_scripts_stay_waiting 7)).
Defined.

(** ** Preparing a statement *)

(** [createPrepared] of the bindings answers a statement id or throws. It
    is no operation of the streaming protocol: it acts on the world of the
    bindings and the log of the stream does not record it. *)
Class Preparing (W : Type) := {
  createPrepared : Z -> string -> W -> Reply Z * W
}.

Definition call_createPrepared {W} {P : Preparing W} (conn : Z) (text : string)
  : M (Env W) Z :=
  fun env =>
    let (r, w') := createPrepared conn text (world env) in
    (complete r, {| world := w'; log := log env |}).

Module BlockingStatements.

(** [DuckDBConnection.prepare] *)
Definition prepare {W} {P : Preparing W} (this : Blocking.DuckDBConnection) (text : string)
  : M (Env W) Blocking.PreparedStatement :=
  stmt <- call_createPrepared (Blocking._conn this) text ;;
  ret {| Blocking.connectionId := Blocking._conn this; Blocking.statementId := stmt |}.

End BlockingStatements.

Module AsyncStatements.

(** [AsyncDuckDBConnection.prepare] *)
Definition prepare {W} {P : Preparing W} (this : Async.AsyncDuckDBConnection) (text : string)
  : M (Env W) Async.AsyncPreparedStatement :=
  stmt <- call_createPrepared (Async._conn this) text ;;
  ret {| Async.connectionId := Async._conn this; Async.statementId := stmt |}.

End AsyncStatements.

Section Prepared.
Context {W : Type} {B : Bindings W} {P : Preparing W}.

Lemma blocking_prepare_eq (this : Blocking.DuckDBConnection) text (env : Env W) :
  BlockingStatements.prepare this text env
  = let (r, w') := createPrepared (Blocking._conn this) text (world env) in
    (complete (reply_map (fun stmt => {| Blocking.connectionId := Blocking._conn this;
                                         Blocking.statementId := stmt |}) r),
     {| world := w'; log := log env |}).
Proof.
  unfold BlockingStatements.prepare, bind, call_createPrepared.
  destruct (createPrepared _ text (world env)) as [[stmt|e] w']; reflexivity.
Qed.

Lemma async_prepare_eq (this : Async.AsyncDuckDBConnection) text (env : Env W) :
  AsyncStatements.prepare this text env
  = let (r, w') := createPrepared (Async._conn this) text (world env) in
    (complete (reply_map (fun stmt => {| Async.connectionId := Async._conn this;
                                         Async.statementId := stmt |}) r),
     {| world := w'; log := log env |}).
Proof.
  unfold AsyncStatements.prepare, bind, call_createPrepared.
  destruct (createPrepared _ text (world env)) as [[stmt|e] w']; reflexivity.
Qed.

End Prepared.

(** X17. A stream of a prepared statement stays on the connection that
    prepared it, in both variants: when [prepare] on connection [conn]
    returns a statement and its [send] returns an iterator, then all that
    is recorded from [prepare] through any sequence of [next()] calls is
    the one [sendPrepared] on [conn] with the statement id that
    [createPrepared] answered, followed by fetches on [conn] only. *)
Theorem prepared_stream_stays_on_connection :
  forall (W : Type) (B : Bindings W) (P : Preparing W) (conn : Z) (text : string)
         (params : list JsValue) (fuels : list nat) (env0 : Env W),
    (forall st env1 it env2,
        BlockingStatements.prepare {| Blocking._conn := conn |} text env0 = (Returned st, env1) ->
        Blocking.send_prepared st params env1 = (Returned it, env2) ->
        fst (createPrepared conn text (world env0)) = Answer (Blocking.statementId st)
        /\ exists r d,
            since env0 (snd (snd (nexts Blocking.next fuels (it, env2))))
            = Sync (SendPrepared conn (Blocking.statementId st) params) r :: d
            /\ forallb (fetch_on conn) d = true)
    /\
    (forall st env1 it env2,
        AsyncStatements.prepare {| Async._conn := conn |} text env0 = (Returned st, env1) ->
        Async.send_prepared st params env1 = (Returned it, env2) ->
        fst (createPrepared conn text (world env0)) = Answer (Async.statementId st)
        /\ exists t r d,
            since env0 (snd (snd (nexts Async.next fuels (it, env2))))
            = Issue t (SendPrepared conn (Async.statementId st) params) :: Settle t r :: d
            /\ forallb (fetch_on conn) d = true).
Proof.
  intros W B P conn text params fuels env0. split.
  - intros st env1 it env2. rewrite blocking_prepare_eq. cbn [Blocking._conn].
    destruct (createPrepared conn text (world env0)) as [[stmt|e] w1];
      cbn [complete reply_map]; [|discriminate].
    intros H; inversion H; subst st env1. cbn [fst Blocking.statementId].
    unfold Blocking.send_prepared, bind, call_sendPrepared.
    cbn [Blocking.connectionId Blocking.statementId world log].
    destruct (sendPrepared conn stmt params w1) as [[h|e] w2];
      cbn [complete]; [|discriminate].
    unfold ret. intros H2; inversion H2; subst it env2.
    split; [reflexivity|].
    destruct (nexts Blocking.next fuels _) as [cs s'] eqn:Hn. cbn [snd].
    match type of Hn with nexts _ _ ?s0 = _ =>
      destruct (nexts_only_fetch _ Blocking.next (fun s => Blocking.conn (fst s))
                  (fun s => log (snd s)) conn (blocking_next_only_fetches conn)
                  fuels s0 cs s' eq_refl Hn) as (_ & d & Hlog & Hd) end.
    cbn [fst snd log] in Hlog. destruct s' as [it' [w' l']]. cbn [snd log] in *. subst l'.
    rewrite <- app_assoc, since_app. eexists _, d. split; [reflexivity|assumption].
  - intros st env1 it env2. rewrite async_prepare_eq. cbn [Async._conn].
    destruct (createPrepared conn text (world env0)) as [[stmt|e] w1];
      cbn [complete reply_map]; [|discriminate].
    intros H; inversion H; subst st env1. cbn [fst Async.statementId].
    unfold Async.send_prepared, bind, await_sendPrepared.
    cbn [Async.connectionId Async.statementId world log].
    destruct (sendPrepared conn stmt params w1) as [[h|e] w2];
      cbn [complete]; [|discriminate].
    unfold ret. intros H2; inversion H2; subst it env2.
    split; [reflexivity|].
    destruct (nexts Async.next fuels _) as [cs s'] eqn:Hn. cbn [snd].
    match type of Hn with nexts _ _ ?s0 = _ =>
      destruct (nexts_only_fetch _ Async.next (fun s => Async.conn (fst s))
                  (fun s => log (snd s)) conn (async_next_only_fetches conn)
                  fuels s0 cs s' eq_refl Hn) as (_ & d & Hlog & Hd) end.
    cbn [fst snd log] in Hlog. destruct s' as [it' [w' l']]. cbn [snd log] in *. subst l'.
    rewrite <- app_assoc, since_app. eexists _, _, d. split; [reflexivity|assumption].
Qed.

(** When [createPrepared] throws, [prepare] throws that error and builds
    no statement; a [send] chained on it is not reached, so that
    [sendPrepared] is not called and the log is left as it was. *)
Lemma prepare_error_stops_send :
  forall (W : Type) (B : Bindings W) (P : Preparing W) (conn : Z) (text : string)
         (params : list JsValue) (env : Env W) (e : Thrown) (w' : W),
    createPrepared conn text (world env) = (Fault e, w') ->
    (st <- BlockingStatements.prepare {| Blocking._conn := conn |} text ;;
     Blocking.send_prepared st params) env
    = (Threw e, {| world := w'; log := log env |})
    /\ (st <- AsyncStatements.prepare {| Async._conn := conn |} text ;;
        Async.send_prepared st params) env
       = (Threw e, {| world := w'; log := log env |}).
Proof.
  intros W B P conn text params env e w' Hc.
  unfold bind at 1. rewrite blocking_prepare_eq. cbn [Blocking._conn]. rewrite Hc.
  unfold bind at 1. rewrite async_prepare_eq. cbn [Async._conn]. rewrite Hc.
  split; reflexivity.
Qed.

(** A bindings surface whose [createPrepared] refuses every statement. *)
Definition Refusing : Preparing Script :=
  {| createPrepared _ _ s := (Fault (new_Error "Parser Error: syntax error"), s) |}.

Lemma prepare_error_stops_send_witness :
  fst ((st <- BlockingStatements.prepare (P := Refusing) {| Blocking._conn := 1 |} "selec ?" ;;
        Blocking.send_prepared st [JsNumber 1]) (start_env scenarioA))
  = Threw (new_Error "Parser Error: syntax error").
Proof.
  exact (f_equal fst
           (proj1 (prepare_error_stops_send Script Scripted Refusing 1 "selec ?"
                     [JsNumber 1] (start_env scenarioA)
                     (new_Error "Parser Error: syntax error") scenarioA eq_refl))).
Defined.

(** A bindings surface whose [createPrepared] answers statement 7. *)
Definition Accepting : Preparing Script :=
  {| createPrepared _ _ s := (Answer 7%Z, s) |}.

Definition prepared_stream : Script :=
  {| on_start := []; on_poll := [];
     on_fetch := [Answer (Some (bytes 20)); Answer (Some [])];
     on_prepared := [Answer (bytes 10)]; on_detached := [] |}.

Lemma prepared_stream_stays_on_connection_witness :
  exists r d,
    since (start_env prepared_stream)
      (snd (snd (nexts Blocking.next [1; 1; 1]
                   (Blocking.new_ResultStreamIterator 1 (bytes 10),
                    snd (Blocking.send_prepared
                           {| Blocking.connectionId := 1; Blocking.statementId := 7 |}
                           [JsNumber 1] (start_env prepared_stream))))))
    = Sync (SendPrepared 1 7 [JsNumber 1]) r :: d
    /\ forallb (fetch_on 1) d = true.
Proof.
  exact (proj2 (proj1 (prepared_stream_stays_on_connection Script Scripted Accepting 1
                         "select ?" [JsNumber 1] [1; 1; 1] (start_env prepared_stream))
                  {| Blocking.connectionId := 1; Blocking.statementId := 7 |}
                  (start_env prepared_stream)
                  (Blocking.new_ResultStreamIterator 1 (bytes 10))
                  (snd (Blocking.send_prepared
                          {| Blocking.connectionId := 1; Blocking.statementId := 7 |}
                          [JsNumber 1] (start_env prepared_stream)))
                  eq_refl eq_refl)).
Defined.

(** ** The two variants of [send] on an attached link *)

Section SameHeader.
Context {W : Type} {B : Bindings W}.
Variable conn : Z.

(** The link is attached, and asking does not change the bindings. *)
Hypothesis attached : forall w, isDetached w = (false, w).

Lemma async_poll_loop_follows_blocking (fuel : nat) :
  forall (header : option Uint8Array) (envb enva envb' : Env W) (h : Uint8Array),
    world enva = world envb ->
    Blocking.poll_loop fuel conn header envb = (Returned h, envb') ->
    exists enva',
      Async.poll_loop fuel conn header enva = (Returned (Some h), enva')
      /\ world enva' = world envb'.
Proof.
  induction fuel as [|fuel IH]; intros [h0|] envb enva envb' h Hw.
  - cbn. intros H; inversion H; subst. exists enva. auto.
  - cbn. discriminate.
  - cbn. intros H; inversion H; subst. exists enva. auto.
  - cbn [Blocking.poll_loop]. unfold bind.
    destruct (pollPendingQuery conn (world envb)) as [r w'] eqn:Hp.
    rewrite (poll_promise_eq conn envb r w' Hp).
    rewrite async_poll_loop_step, Hw, attached, Hp. cbv zeta.
    destruct r as [header|e]; [|discriminate].
    intros H. eapply IH; [|exact H]. reflexivity.
Qed.

End SameHeader.

(** X18. On a link that stays attached (and whose check leaves the bindings
    alone), the suspending-mode [send] gets what the direct-mode [send]
    gets: whenever the direct mode returns an iterator on a header, so does
    the suspending mode, on the same connection and header, leaving the
    bindings in the same world. *)
Theorem async_send_follows_blocking :
  forall (W : Type) (B : Bindings W) (conn : Z) (text : string) (allow : option bool)
         (fuel : nat) (env envb : Env W) (it : Blocking.ResultStreamIterator),
    (forall w, isDetached w = (false, w)) ->
    Blocking.send {| Blocking._conn := conn |} text allow fuel env = (Returned it, envb) ->
    exists enva,
      Async.send {| Async._conn := conn |} text allow fuel env
      = (Returned (Async.Iterator
                     (Async.new_AsyncResultStreamIterator conn (Blocking.header it))), enva)
      /\ Blocking.conn it = conn
      /\ world enva = world envb.
Proof.
  intros W B conn text allow fuel env envb it Hatt.
  unfold Blocking.send, Async.send. cbn [Blocking._conn Async._conn].
  unfold bind at 1. unfold bind at 2. unfold logger_log. unfold bind at 2.
  destruct (respond (StartPendingQuery conn text (default_param false allow)) (world env))
    as [r w1] eqn:Hs.
  rewrite (call_eq _ env r w1 Hs).
  rewrite (request_await_eq (StartPendingQuery conn text (default_param false allow))
             (record (LoggerLog text) env) r w1 Hs).
  destruct r as [header|e]; cbn [complete]; [|discriminate].
  unfold bind.
  match goal with |- context [Blocking.poll_loop fuel conn header ?eb] =>
    destruct (Blocking.poll_loop fuel conn header eb) as [[h|x|] envb1] eqn:Hb;
      try discriminate end.
  unfold ret. intros H; inversion H; subst it envb.
  match type of Hb with Blocking.poll_loop _ _ _ ?eb = _ =>
    match goal with |- context [Async.poll_loop fuel conn header ?ea] =>
      destruct (async_poll_loop_follows_blocking conn Hatt fuel header eb ea envb1 h
                  eq_refl Hb) as (enva & Ha & Hw) end end.
  rewrite Ha. exists enva. cbn. auto.
Qed.

(** The scripted bindings on a link that is never detached. *)
Definition Attached : Bindings Script :=
  {| startPendingQuery := startPendingQuery (Bindings := Scripted);
     pollPendingQuery := pollPendingQuery (Bindings := Scripted);
     fetchQueryResults := fetchQueryResults (Bindings := Scripted);
     sendPrepared := sendPrepared (Bindings := Scripted);
     isDetached s := (false, s) |}.

Lemma async_send_follows_blocking_witness :
  exists enva,
    Async.send (B := Attached) {| Async._conn := 1 |} "select 1" None 2 (start_env scenarioB)
    = (Returned (Async.Iterator (Async.new_AsyncResultStreamIterator 1 (bytes 10))), enva)
    /\ Blocking.conn (Blocking.new_ResultStreamIterator 1 (bytes 10)) = 1%Z
    /\ world enva = script0.
Proof.
  exact (async_send_follows_blocking Script Attached 1 "select 1" None 2
           (start_env scenarioB)
           (snd (Blocking.send (B := Attached) {| Blocking._conn := 1 |} "select 1" None 2
                   (start_env scenarioB)))
           (Blocking.new_ResultStreamIterator 1 (bytes 10))
           (fun w => eq_refl) eq_refl).
Defined.
